(** * NPM Security Scanner Pro: the scanning core of [content.js] and the
      registry lookup of [background.js]

    A shallow embedding of the package-name extractor, the sliding-window
    rate limiter, the package record, the exposed-file probe and the risk
    assessment, followed by the properties established about them.

    Conventions.
    - A JavaScript string is a [string]: a sequence of code units, each
      below 256.  Literals of the source are kept as they are.
    - A JavaScript value that a function may receive is a [value]; [null]
      and [undefined] are distinct constructors.
    - A call that may raise is a [completion]: [Normal v] or [Throw].
    - Time stamps, download counts and HTTP status codes are integers ([Z]).
    - A regular expression of the source is a boolean function whose comment
      quotes the expression. *)

From Stdlib Require Import ZArith Lia List Bool Ascii String Sorted.
From stdpp Require Import base option gmap strings pretty.

Open Scope string_scope.
Open Scope Z_scope.

(* ===================================================================== *)
(** * JavaScript strings                                                  *)
(* ===================================================================== *)

Module JS.

(** Code-unit classes used by the regular expressions of the source. *)
Definition between (lo hi c : ascii) : bool := Ascii.leb lo c && Ascii.leb c hi.

Definition is_lower (c : ascii) : bool := between "a" "z" c.
Definition is_upper (c : ascii) : bool := between "A" "Z" c.
Definition is_digit (c : ascii) : bool := between "0" "9" c.
Definition is_alpha (c : ascii) : bool := is_lower c || is_upper c.

(** White space of [String.prototype.trim] and of [\s], below 256:
    TAB, LF, VT, FF, CR, SPACE and NO-BREAK SPACE. *)
Definition is_space (c : ascii) : bool :=
  between "009" "013" c || Ascii.eqb c " " || Ascii.eqb c "160".

(** Line terminators ([.] does not match them; [^] with the [m] flag
    matches after them), below 256: LF and CR. *)
Definition is_line_terminator (c : ascii) : bool :=
  Ascii.eqb c "010" || Ascii.eqb c "013".

(** [c.toLowerCase()] on one code unit below 256: the ASCII capitals and the
    Latin-1 capitals 0xC0-0xDE (0xD7, the multiplication sign, apart). *)
Definition lower_char (c : ascii) : ascii :=
  if is_upper c || (between "192" "222" c && negb (Ascii.eqb c "215"))
  then ascii_of_N (N_of_ascii c + 32) else c.

Fixpoint toLowerCase (s : string) : string :=
  match s with
  | EmptyString => EmptyString
  | String c s' => String (lower_char c) (toLowerCase s')
  end.

(** [s.startsWith(p)] *)
Definition startsWith (s p : string) : bool := String.prefix p s.

(** The rest of [s] after the prefix [p], when [s] starts with [p]. *)
Fixpoint strip_prefix (p s : string) : option string :=
  match p, s with
  | EmptyString, _ => Some s
  | String a p', String b s' => if Ascii.eqb a b then strip_prefix p' s' else None
  | String _ _, EmptyString => None
  end.

(** [s.includes(p)] *)
Fixpoint includes (s p : string) : bool :=
  String.prefix p s ||
  match s with
  | EmptyString => false
  | String _ s' => includes s' p
  end.

(** [s.endsWith(p)] *)
Fixpoint endsWith (s p : string) : bool :=
  String.eqb s p ||
  match s with
  | EmptyString => false
  | String _ s' => endsWith s' p
  end.

(** [s.slice(0, n)] for [0 <= n] *)
Fixpoint slice0 (s : string) (n : nat) : string :=
  match n, s with
  | S n', String c s' => String c (slice0 s' n')
  | _, _ => EmptyString
  end.

(** [s.split(sep)] for a separator of one code unit; never empty. *)
Fixpoint split (sep : ascii) (s : string) : list string :=
  match s with
  | EmptyString => [EmptyString]
  | String c s' =>
      if Ascii.eqb c sep then EmptyString :: split sep s'
      else match split sep s' with
           | h :: t => String c h :: t
           | [] => [String c EmptyString]
           end
  end.

(** [s.split(sep)[0]]: the part of [s] before the first [sep]. *)
Fixpoint before (sep : ascii) (s : string) : string :=
  match s with
  | EmptyString => EmptyString
  | String c s' => if Ascii.eqb c sep then EmptyString else String c (before sep s')
  end.

(** The part of [s] after the first [sep], when there is one. *)
Fixpoint after (sep : ascii) (s : string) : option string :=
  match s with
  | EmptyString => None
  | String c s' => if Ascii.eqb c sep then Some s' else after sep s'
  end.

(** [s] without its longest prefix, its longest suffix, of code units in [p]. *)
Fixpoint drop_start (p : ascii -> bool) (s : string) : string :=
  match s with
  | EmptyString => EmptyString
  | String c s' => if p c then drop_start p s' else s
  end.

Fixpoint drop_end (p : ascii -> bool) (s : string) : string :=
  match s with
  | EmptyString => EmptyString
  | String c s' =>
      match drop_end p s' with
      | EmptyString => if p c then EmptyString else String c EmptyString
      | t => String c t
      end
  end.

(** [s.trim()] *)
Definition trim (s : string) : string := drop_end is_space (drop_start is_space s).

(** [xs.join(sep)] *)
Fixpoint join (sep : string) (xs : list string) : string :=
  match xs with
  | [] => EmptyString
  | [x] => x
  | x :: rest => x ++ sep ++ join sep rest
  end.

Definition all_chars (p : ascii -> bool) (s : string) : bool :=
  forallb p (list_ascii_of_string s).

(** [/^.+$/]: one code unit at least, and no line terminator. *)
Definition dot_plus (s : string) : bool :=
  negb (String.eqb s EmptyString)
  && all_chars (fun c => negb (is_line_terminator c)) s.

(** [xs.includes(x)] on an array of strings, [set.has(x)] on a [Set] of
    strings written as a literal. *)
Definition has (xs : list string) (x : string) : bool :=
  existsb (String.eqb x) xs.

(** ** Values and completions *)

Inductive value : Type :=
| VUndefined
| VNull
| VBool (b : bool)
| VNumber (n : Z)
| VString (s : string)
| VObject.

(** [!!v] *)
Definition truthy (v : value) : bool :=
  match v with
  | VUndefined | VNull => false
  | VBool b => b
  | VNumber n => negb (n =? 0)
  | VString s => negb (String.eqb s EmptyString)
  | VObject => true
  end.

(** [String(v)], the coercion [RegExp.prototype.test] applies.  A
    [VNumber] is an integer below 1e21, which prints in decimal without
    exponent; [VObject] is an object that prints as a plain object does (an
    array would print its elements). *)
Definition ToString (v : value) : string :=
  match v with
  | VUndefined => "undefined"
  | VNull => "null"
  | VBool true => "true"
  | VBool false => "false"
  | VNumber n => pretty n
  | VString s => s
  | VObject => "[object Object]"
  end.

(** [xs[i]] on an array of strings: [undefined] past the end. *)
Definition item (xs : list string) (i : nat) : value :=
  match nth_error xs i with
  | Some s => VString s
  | None => VUndefined
  end.

Inductive completion (A : Type) : Type :=
| Normal (a : A)
| Throw.
Arguments Normal {A} a.
Arguments Throw {A}.

Definition bind {A B} (c : completion A) (k : A -> completion B) : completion B :=
  match c with
  | Normal a => k a
  | Throw => Throw
  end.

End JS.

Import JS.

#[global] Instance completion_ret : MRet completion := @Normal.
#[global] Instance completion_bind : MBind completion :=
  fun _ _ k c => JS.bind c k.

#[global] Instance value_eq_dec : EqDecision value.
Proof. solve_decision. Defined.

#[global] Instance value_countable : Countable value.
Proof.
  refine (inj_countable'
    (fun v => match v with
              | VUndefined => inl (inl 0%nat)
              | VNull => inl (inl 1%nat)
              | VObject => inl (inl 2%nat)
              | VBool b => inl (inr b)
              | VNumber n => inr (inl n)
              | VString s => inr (inr s)
              end)
    (fun x => match x with
              | inl (inl 0%nat) => VUndefined
              | inl (inl 1%nat) => VNull
              | inl (inl _) => VObject
              | inl (inr b) => VBool b
              | inr (inl n) => VNumber n
              | inr (inr s) => VString s
              end) _).
  intros []; reflexivity.
Defined.

(* ===================================================================== *)
(** * CONFIG                                                              *)
(* ===================================================================== *)

Module CONFIG.

Definition API_RATE_LIMIT : Z := 50.
Definition API_WINDOW : Z := 60000.
Definition MIN_DOWNLOADS_SUSPICIOUS : Z := 100.
Definition MAX_CONCURRENT_SCANS : Z := 5.

Definition CONFIG_FILES : list string :=
  [ "/package.json"; "/package-lock.json"; "/yarn.lock"; "/pnpm-lock.yaml";
    "/npm-shrinkwrap.json"; "/.npmrc"; "/.yarnrc"; "/.yarnrc.yml";
    "/node_modules/";
    "/webpack.config.js"; "/vite.config.js"; "/vite.config.ts";
    "/next.config.js"; "/nuxt.config.js"; "/rollup.config.js";
    "/babel.config.js"; "/tsconfig.json";
    "/.env"; "/.env.local"; "/.env.development"; "/.env.production";
    "/.env.test"; "/docker-compose.yml"; "/Dockerfile" ].

Definition NODE_BUILTINS : list string :=
  [ "assert"; "buffer"; "child_process"; "cluster"; "crypto"; "dgram"; "dns";
    "domain"; "events"; "fs"; "http"; "https"; "net"; "os"; "path"; "punycode";
    "querystring"; "readline"; "repl"; "stream"; "string_decoder"; "timers";
    "tls"; "tty"; "url"; "util"; "v8"; "vm"; "zlib"; "constants"; "module";
    "process"; "console"; "http2"; "perf_hooks"; "trace_events"; "worker_threads";
    "require"; "exports" ].

Definition INTERNAL_ALIAS_PREFIXES : list string := [ "@/"; "~/"; "~~/" ].

Definition INTERNAL_ALIAS_ROOTS : list string :=
  [ "src"; "app"; "apps"; "components"; "component"; "pages"; "layouts"; "views";
    "hooks"; "utils"; "lib"; "libs"; "services"; "service"; "store"; "stores";
    "state"; "modules"; "assets"; "styles"; "css"; "scss"; "sass"; "less";
    "images"; "img"; "fonts"; "locales"; "i18n"; "types"; "constants";
    "config"; "configs"; "public" ].

(** [INTERNAL_MODULE_PATTERNS]: the [pattern] of each entry, in order.  The
    [parent] field is read only by a test whose two outcomes are the same. *)
Definition INTERNAL_MODULE_PATTERNS : list (string -> bool) :=
  [ (* /^prism-[a-z]+$/ *)
    (fun s => match strip_prefix "prism-" s with
              | Some r => negb (String.eqb r EmptyString) && all_chars is_lower r
              | None => false
              end);
    (* /^highlight\.js\/lib\/languages\// *)
    (fun s => startsWith s "highlight.js/lib/languages/");
    (* /^monaco-editor\/esm\// *)
    (fun s => startsWith s "monaco-editor/esm/");
    (* /^codemirror\/mode\// *)
    (fun s => startsWith s "codemirror/mode/");
    (* /^codemirror\/addon\// *)
    (fun s => startsWith s "codemirror/addon/");
    (* /^ace\/mode\// *)
    (fun s => startsWith s "ace/mode/");
    (* /^ace\/theme\// *)
    (fun s => startsWith s "ace/theme/");
    (* /^(dom-module|custom-style|ps-dom-if|ps-dom-repeat)$/ *)
    (fun s => has ["dom-module"; "custom-style"; "ps-dom-if"; "ps-dom-repeat"] s);
    (* /^(iron-|paper-|neon-|app-).+$/ *)
    (fun s => existsb (fun p => match strip_prefix p s with
                                | Some r => dot_plus r
                                | None => false
                                end) ["iron-"; "paper-"; "neon-"; "app-"]);
    (* /^yt-.+$/ *)
    (fun s => match strip_prefix "yt-" s with
              | Some r => dot_plus r
              | None => false
              end);
    (* /^ytd-.+$/ *)
    (fun s => match strip_prefix "ytd-" s with
              | Some r => dot_plus r
              | None => false
              end) ].

End CONFIG.

(* ===================================================================== *)
(** * PackageNameExtractor                                                *)
(* ===================================================================== *)

(** What [extract] reads of a [URL] object. *)
Record URL : Type := { hostname : string; pathname : string }.

Module PackageNameExtractor.

(** [isInternalModule(packageName, detectedPackages)].  Both branches
    under a matching pattern return [true], so [detectedPackages] has no
    influence on the result and is not a parameter here. *)
Definition isInternalModule (packageName : value) : bool :=
  if negb (truthy packageName) then false
  else existsb (fun pattern => pattern (ToString packageName))
         CONFIG.INTERNAL_MODULE_PATTERNS.

(** [value.split('#')[0].split('?')[0]] *)
Definition stripQueryAndHash (value : string) : string :=
  before "?" (before "#" value).

(** [/^[a-z]:[\\/]/i] *)
Definition drive_path (s : string) : bool :=
  match s with
  | String a (String ":" (String b _)) =>
      is_alpha a && (Ascii.eqb b "\" || Ascii.eqb b "/")
  | _ => false
  end.

Definition isAliasPath (importPath : string) : bool :=
  if String.eqb importPath EmptyString then false else
  let normalized := trim importPath in
  let lower := toLowerCase normalized in
  if startsWith normalized "/" && negb (startsWith normalized "//") then true else
  if drive_path normalized || startsWith normalized "\\" then true else
  if existsb (fun prefix => startsWith lower prefix) CONFIG.INTERNAL_ALIAS_PREFIXES
  then true else
  if String.eqb lower "~" || startsWith lower "~/" then true else
  let parts := split "/" normalized in
  if (1 <? length parts)%nat
     && has CONFIG.INTERNAL_ALIAS_ROOTS (toLowerCase (hd EmptyString parts))
  then true else
  false.

(** [[a-z0-9-~]] *)
Definition name_start (c : ascii) : bool :=
  is_lower c || is_digit c || Ascii.eqb c "-" || Ascii.eqb c "~".

(** [[a-z0-9-._~]] *)
Definition name_char (c : ascii) : bool :=
  is_lower c || is_digit c || Ascii.eqb c "-" || Ascii.eqb c "."
  || Ascii.eqb c "_" || Ascii.eqb c "~".

(** [[a-z0-9-~][a-z0-9-._~]*] up to the end of the input *)
Definition plain_name (s : string) : bool :=
  match s with
  | String c r => name_start c && all_chars name_char r
  | EmptyString => false
  end.

(** The canonical grammar
    [/^(@[a-z0-9-~][a-z0-9-._~]*\/)?[a-z0-9-~][a-z0-9-._~]*$/]. *)
Definition valid_name (s : string) : bool :=
  match s with
  | String "@" r =>
      match after "/" r with
      | Some name => plain_name (before "/" r) && plain_name name
      | None => false
      end
  | _ => plain_name s
  end.

(** [normalized.match(/^(@[^/]+)\/(.+)$/)]: the two groups. *)
Definition match_scoped (s : string) : option (string * string) :=
  match s with
  | String "@" r =>
      match before "/" r, after "/" r with
      | String c scope, Some name =>
          if dot_plus name then Some (String "@" (String c scope), name) else None
      | _, _ => None
      end
  | _ => None
  end.

(** [normalizePackageName(pkgName)].  A value that is truthy and not a
    string has no [startsWith] method: the call raises. *)
Definition normalizePackageName (pkgName : value) : completion value :=
  if negb (truthy pkgName) then Normal VNull else
  match pkgName with
  | VString normalized =>
      let stripped :=
        if startsWith normalized "@" then
          match match_scoped normalized with
          | None => None
          | Some (scope, name) => Some (scope ++ "/" ++ before "@" name)
          end
        else if includes normalized "@" then Some (before "@" normalized)
        else Some normalized in
      match stripped with
      | None => Normal VNull
      | Some normalized =>
          if has CONFIG.NODE_BUILTINS normalized then Normal VNull else
          if negb (valid_name normalized) then Normal VNull else
          Normal (VString normalized)
      end
  | _ => Throw
  end.

(** [/^(https?:)?\/\//] *)
Definition web_url (s : string) : bool :=
  startsWith s "//" || startsWith s "http://" || startsWith s "https://".

(** [.replace(/^(https?:\/\/|node:|file:)/, '')] *)
Definition strip_protocol (s : string) : string :=
  match strip_prefix "http://" s, strip_prefix "https://" s,
        strip_prefix "node:" s, strip_prefix "file:" s with
  | Some r, _, _, _ => r
  | _, Some r, _, _ => r
  | _, _, Some r, _ => r
  | _, _, _, Some r => r
  | _, _, _, _ => s
  end.

(** [(\.\.\/)*node_modules\/] at the start of [s]: what follows it. *)
Fixpoint after_node_modules (fuel : nat) (s : string) : option string :=
  match strip_prefix "node_modules/" s with
  | Some r => Some r
  | None =>
      match fuel, strip_prefix "../" s with
      | S fuel', Some r => after_node_modules fuel' r
      | _, _ => None
      end
  end.

(** [.replace(/^(\.\.\/)*node_modules\//, '')] *)
Definition strip_node_modules (s : string) : string :=
  match after_node_modules (String.length s) s with
  | Some r => r
  | None => s
  end.

Section WithURL.

(** [new URL(input, 'https://example.com')] of the host platform: the
    parsed URL, or [Throw] for the [TypeError] of an unparsable input. *)
Variable URL_new : string -> completion URL.

(** The body of the [try] block: [Some v] when it executes [return v],
    [None] when control reaches its end. *)
Definition extract_cdn (cleaned : string) : completion (option value) :=
  url ← URL_new cleaned;
  let hostname := hostname url in
  if includes hostname "unpkg.com" || includes hostname "jsdelivr.net"
     || includes hostname "cdnjs.cloudflare.com"
  then
    let pathParts :=
      List.filter (fun p => negb (String.eqb p EmptyString))
                  (split "/" (pathname url)) in
    let pathParts :=
      if includes hostname "jsdelivr.net"
         && bool_decide (item pathParts 0 = VString "npm")
      then tl pathParts else pathParts in
    if includes hostname "cdnjs.cloudflare.com"
       && bool_decide (item pathParts 0 = VString "ajax")
       && bool_decide (item pathParts 1 = VString "libs")
    then r ← normalizePackageName (item pathParts 2); Normal (Some r)
    else
      match pathParts with
      | [] => Normal (Some VNull)
      | p0 :: rest =>
          let pkgPart :=
            match rest with
            | p1 :: _ => if startsWith p0 "@" then p0 ++ "/" ++ p1 else p0
            | [] => p0
            end in
          r ← normalizePackageName (VString pkgPart); Normal (Some r)
      end
  else if web_url cleaned then Normal (Some VNull)
  else Normal None.

(** [try { body } catch (e) { }]: an exception ends the block and control
    continues after it. *)
Definition try_catch {A} (body : completion (option A)) : option A :=
  match body with
  | Normal r => r
  | Throw => None
  end.

Definition extract (importPath : value) : completion value :=
  match importPath with
  | VString s =>
      if negb (truthy importPath) then Normal VNull else
      let cleaned := trim s in
      if String.eqb cleaned EmptyString then Normal VNull else
      let cleaned := stripQueryAndHash cleaned in
      if isAliasPath cleaned then Normal VNull else
      match try_catch (extract_cdn cleaned) with
      | Some r => Normal r
      | None =>
          let cleaned := strip_node_modules (strip_protocol cleaned) in
          if startsWith cleaned "." then Normal VNull else
          if startsWith cleaned "/" && negb (startsWith cleaned "//")
          then Normal VNull else
          if isAliasPath cleaned then Normal VNull else
          let parts := split "/" cleaned in
          let pkgName :=
            if startsWith cleaned "@" then
              match parts with
              | p0 :: p1 :: _ => VString (p0 ++ "/" ++ p1)
              | _ => VNull
              end
            else item parts 0 in
          normalizePackageName pkgName
      end
  | _ => Normal VNull
  end.

End WithURL.

End PackageNameExtractor.

(* ===================================================================== *)
(** * The URL parser of the platform                                      *)
(* ===================================================================== *)

(** [extract] is stated over any [URL_new].  This module gives one: the
    WHATWG basic URL parser run against the base [https://example.com],
    keeping the host name and the path name.  It follows the standard on
    inputs whose host is written in ASCII without percent escapes and
    without brackets; the canonicalisation of other hosts (IDNA, IPv6
    literals, IPv4 shorthands) and the drive-letter rules of [file:] paths
    are not reproduced: such hosts raise here, a numeric host is kept as it
    is written. *)
Module WHATWG.

Definition c0_or_space (c : ascii) : bool := Ascii.leb c " ".

Definition tab_or_newline (c : ascii) : bool :=
  Ascii.eqb c "009" || Ascii.eqb c "010" || Ascii.eqb c "013".

Fixpoint remove (p : ascii -> bool) (s : string) : string :=
  match s with
  | EmptyString => EmptyString
  | String c s' => if p c then remove p s' else String c (remove p s')
  end.

Definition is_slash (special : bool) (c : ascii) : bool :=
  Ascii.eqb c "/" || (special && Ascii.eqb c "\").

(** The scheme state: letters, digits, [+], [-], [.] up to a colon. *)
Fixpoint scheme_tail (s : string) : option (string * string) :=
  match s with
  | EmptyString => None
  | String c r =>
      if Ascii.eqb c ":" then Some (EmptyString, r)
      else if is_alpha c || is_digit c || Ascii.eqb c "+" || Ascii.eqb c "-"
              || Ascii.eqb c "."
      then match scheme_tail r with
           | Some (a, b) => Some (String (lower_char c) a, b)
           | None => None
           end
      else None
  end.

Definition scheme_of (s : string) : option (string * string) :=
  match s with
  | String c _ => if is_alpha c then scheme_tail s else None
  | EmptyString => None
  end.

Definition hex_digit (n : N) : ascii :=
  if (n <? 10)%N then ascii_of_N (48 + n) else ascii_of_N (55 + n).

Definition percent (n : N) : string :=
  String "%" (String (hex_digit (n / 16)) (String (hex_digit (n mod 16)) EmptyString)).

(** The path percent-encode set, and UTF-8 for the code units above 0x7F. *)
Definition encode_char (c : ascii) : string :=
  let n := N_of_ascii c in
  if (128 <=? n)%N then
    (if (n <? 192)%N then percent 194 ++ percent n
     else percent 195 ++ percent (n - 64))%string
  else if Ascii.leb c " " || Ascii.eqb c "034" || Ascii.eqb c "<" || Ascii.eqb c ">"
          || Ascii.eqb c "`" || Ascii.eqb c "{" || Ascii.eqb c "}" || Ascii.eqb c "127"
  then percent n
  else String c EmptyString.

Fixpoint encode (s : string) : string :=
  match s with
  | EmptyString => EmptyString
  | String c r => (encode_char c ++ encode r)%string
  end.

(** The segments of a path: cut at every slash. *)
Fixpoint segments (special : bool) (s : string) : list string :=
  match s with
  | EmptyString => [EmptyString]
  | String c s' =>
      if is_slash special c then EmptyString :: segments special s'
      else match segments special s' with
           | h :: t => String c h :: t
           | [] => [String c EmptyString]
           end
  end.

Definition single_dot (seg : string) : bool := has ["."; "%2e"] (toLowerCase seg).
Definition double_dot (seg : string) : bool :=
  has [".."; ".%2e"; "%2e."; "%2e%2e"] (toLowerCase seg).

(** The path state; [acc] is the path so far, last segment first. *)
Fixpoint walk (acc segs : list string) : list string :=
  match segs with
  | [] => rev acc
  | [seg] =>
      if double_dot seg then rev (EmptyString :: tl acc)
      else if single_dot seg then rev (EmptyString :: acc)
      else rev (encode seg :: acc)
  | seg :: rest =>
      if double_dot seg then walk (tl acc) rest
      else if single_dot seg then walk acc rest
      else walk (encode seg :: acc) rest
  end.

(** The path name of a hierarchical path; [p] is what follows the host,
    up to the query or the fragment. *)
Definition path_of (special : bool) (p : string) : string :=
  let p := before "#" (before "?" p) in
  match p with
  | EmptyString => if special then "/" else EmptyString
  | String c r =>
      let rel := if is_slash special c then r else p in
      String "/" (join "/" (walk [] (segments special rel)))
  end.

Fixpoint take_until (p : ascii -> bool) (s : string) : string * string :=
  match s with
  | EmptyString => (EmptyString, EmptyString)
  | String c r =>
      if p c then (EmptyString, s)
      else let '(a, b) := take_until p r in (String c a, b)
  end.

(** What follows the last [sep] of [s], when there is one. *)
Fixpoint after_last (sep : ascii) (s : string) : option string :=
  match s with
  | EmptyString => None
  | String c r =>
      match after_last sep r with
      | Some t => Some t
      | None => if Ascii.eqb c sep then Some r else None
      end
  end.

Definition forbidden_host (c : ascii) : bool :=
  Ascii.eqb c "000" || tab_or_newline c || Ascii.eqb c " " || Ascii.eqb c "#"
  || Ascii.eqb c "/" || Ascii.eqb c ":" || Ascii.eqb c "<" || Ascii.eqb c ">"
  || Ascii.eqb c "?" || Ascii.eqb c "@" || Ascii.eqb c "[" || Ascii.eqb c "\"
  || Ascii.eqb c "]" || Ascii.eqb c "^" || Ascii.eqb c "|".

Definition forbidden_domain (c : ascii) : bool :=
  forbidden_host c || Ascii.leb c "031" || Ascii.eqb c "%" || Ascii.eqb c "127".

Definition non_ascii (c : ascii) : bool := Ascii.leb "128" c.

Definition valid_port (port : string) : bool :=
  all_chars is_digit port
  && (N.of_nat (String.length (drop_start (Ascii.eqb "0") port)) <=? 5)%N
  && (fold_left (fun n c => 10 * n + (N_of_ascii c - 48))
                (list_ascii_of_string port) 0 <=? 65535)%N.

(** The host parser on a host written in ASCII. *)
Definition host_parse (special : bool) (host : string) : completion string :=
  if negb (all_chars (fun c => negb (non_ascii c)) host) then Throw else
  if special then
    if String.eqb host EmptyString
       || negb (all_chars (fun c => negb (forbidden_domain c)) host) then Throw
    else Normal (toLowerCase host)
  else
    if negb (all_chars (fun c => negb (forbidden_host c)) host) then Throw
    else Normal host.

(** The authority, host and port states on [s], which follows the slashes. *)
Definition authority (special : bool) (s : string) : completion (string * string) :=
  let '(auth, rest) :=
    take_until (fun c => is_slash special c || Ascii.eqb c "?" || Ascii.eqb c "#") s in
  let hostport := match after_last "@" auth with Some h => h | None => auth end in
  if includes auth "@" && String.eqb hostport EmptyString then Throw else
  let host := before ":" hostport in
  if match after ":" hostport with
     | Some port => String.eqb host EmptyString || negb (valid_port port)
     | None => false
     end then Throw else
  host ← host_parse special host;
  Normal (host, rest).

Definition EXAMPLE_COM : string := "example.com".

(** The relative state against the base, and the states it leads to. *)
Definition relative (r : string) : completion URL :=
  match r with
  | String a (String b r') =>
      if is_slash true a && is_slash true b then
        '(host, rest) ← authority true (drop_start (is_slash true) r');
        Normal {| hostname := host; pathname := path_of true rest |}
      else Normal {| hostname := EXAMPLE_COM; pathname := path_of true r |}
  | _ => Normal {| hostname := EXAMPLE_COM; pathname := path_of true r |}
  end.

Definition windows_drive_letter (s : string) : bool :=
  match s with
  | String a (String b EmptyString) =>
      is_alpha a && (Ascii.eqb b ":" || Ascii.eqb b "|")
  | _ => false
  end.

(** [new URL(input, 'https://example.com')] *)
Definition URL_new (input : string) : completion URL :=
  let input := remove tab_or_newline (drop_end c0_or_space (drop_start c0_or_space input)) in
  match scheme_of input with
  | None => relative input
  | Some (scheme, rest) =>
      if String.eqb scheme "https" then relative rest
      else if has ["http"; "ws"; "wss"; "ftp"] scheme then
        '(host, rest) ← authority true (drop_start (is_slash true) rest);
        Normal {| hostname := host; pathname := path_of true rest |}
      else if String.eqb scheme "file" then
        match rest with
        | String a (String b r) =>
            if is_slash true a && is_slash true b then
              let '(buffer, rest') :=
                take_until (fun c => is_slash true c || Ascii.eqb c "?"
                                     || Ascii.eqb c "#") r in
              if windows_drive_letter buffer
              then Normal {| hostname := EmptyString; pathname := path_of true r |}
              else if String.eqb buffer EmptyString
              then Normal {| hostname := EmptyString; pathname := path_of true rest' |}
              else
                host ← host_parse true buffer;
                Normal {| hostname := if String.eqb host "localhost"
                                      then EmptyString else host;
                          pathname := path_of true rest' |}
            else Normal {| hostname := EmptyString; pathname := path_of true rest |}
        | _ => Normal {| hostname := EmptyString; pathname := path_of true rest |}
        end
      else
        match rest with
        | String "/" (String "/" r) =>
            '(host, rest) ← authority false r;
            Normal {| hostname := host; pathname := path_of false rest |}
        | String "/" _ =>
            Normal {| hostname := EmptyString; pathname := path_of false rest |}
        | _ => Normal {| hostname := EmptyString;
                         pathname := before "#" (before "?" rest) |}
        end
  end.

End WHATWG.

(* ===================================================================== *)
(** * RateLimiter                                                         *)
(* ===================================================================== *)

Module RateLimiter.

Record t : Type := {
  maxRequests : Z;
  timeWindow : Z;
  requests : list Z
}.

(** [new RateLimiter(maxRequests, timeWindow)] *)
Definition new (maxRequests timeWindow : Z) : t :=
  {| maxRequests := maxRequests; timeWindow := timeWindow; requests := [] |}.

(** How one run of the body of [waitForSlot] ends: the slot is taken, or
    the caller suspends for [waitTime] and calls [waitForSlot] again.
    [waitTime] is [None] when the arithmetic on [requests[0]] has no
    number to work with (an empty array). *)
Inductive outcome : Type :=
| Granted
| Retry (waitTime : option Z).

(** [time => now - time < this.timeWindow] *)
Definition fresh (timeWindow now time : Z) : bool := now - time <? timeWindow.

(** The body of [waitForSlot] from its entry to its [await] or to its end.
    No suspension point lies in between, so it runs as one step, at the
    time [now] that [Date.now()] returns. *)
Definition attempt (now : Z) (rl : t) : t * outcome :=
  let requests := List.filter (fresh (timeWindow rl) now) (requests rl) in
  if Z.of_nat (length requests) >=? maxRequests rl then
    let waitTime :=
      match requests with
      | oldestRequest :: _ => Some (timeWindow rl - (now - oldestRequest) + 100)
      | [] => None
      end in
    ({| maxRequests := maxRequests rl; timeWindow := timeWindow rl;
        requests := requests |}, Retry waitTime)
  else
    ({| maxRequests := maxRequests rl; timeWindow := timeWindow rl;
        requests := requests ++ [now] |}, Granted).

(** Any number of callers, interleaved in any way: the limiter sees a
    sequence of attempts, one per element of [times], each at the time its
    caller reads the clock.  The result is the limiter afterwards and the
    times of the admissions granted, in order. *)
Fixpoint run (times : list Z) (rl : t) : t * list Z :=
  match times with
  | [] => (rl, [])
  | now :: later =>
      let '(rl1, o) := attempt now rl in
      let '(rl2, admissions) := run later rl1 in
      (rl2, match o with Granted => now :: admissions | Retry _ => admissions end)
  end.

(** One caller left alone: [waitForSlot] with the clock at [now], timers
    that fire [late n] after they are due on the [n]-th suspension, and
    [fuel] bounding the number of recursive calls.  The result is the
    limiter and the time of the admission. *)
Fixpoint waitForSlot (fuel : nat) (late : nat -> Z) (now : Z) (rl : t)
  : option (t * Z) :=
  match fuel with
  | O => None
  | S fuel' =>
      match attempt now rl with
      | (rl', Granted) => Some (rl', now)
      | (rl', Retry waitTime) =>
          let delay := match waitTime with Some w => Z.max 0 w | None => 0 end in
          waitForSlot fuel' (fun n => late (S n)) (now + delay + Z.max 0 (late O)) rl'
      end
  end.

(** The admissions of [log] in the interval from [t], included, to
    [t + window], excluded. *)
Definition in_window (t window : Z) (log : list Z) : list Z :=
  List.filter (fun a => (t <=? a) && (a <? t + window)) log.

End RateLimiter.

(* ===================================================================== *)
(** * Risk assessment and registry lookup                                 *)
(* ===================================================================== *)

Inductive RiskLevel : Type := LOW | MEDIUM | HIGH | CRITICAL.

(** The tiers in increasing order. *)
Definition tier (l : RiskLevel) : Z :=
  match l with LOW => 0 | MEDIUM => 1 | HIGH => 2 | CRITICAL => 3 end.

(** What the assessment reads of the registry document of a package. *)
Record PackageInfo : Type := {
  info_name : value;
  info_repository : value;
  info_latest : value            (* info['dist-tags']?.latest *)
}.

(** [/[0-9]{3,}/]: three digits in a row somewhere. *)
Fixpoint digit_run (s : string) : bool :=
  match s with
  | String a ((String b (String c _)) as r) =>
      (is_digit a && is_digit b && is_digit c) || digit_run r
  | _ => false
  end.

(** [/[il1][o0]/]: one of [i], [l], [1] followed by one of [o], [0]. *)
Fixpoint lookalike_pair (s : string) : bool :=
  match s with
  | String a ((String b _) as r) =>
      ((Ascii.eqb a "i" || Ascii.eqb a "l" || Ascii.eqb a "1")
       && (Ascii.eqb b "o" || Ascii.eqb b "0")) || lookalike_pair r
  | _ => false
  end.

(** [/[0-9]{3,}|[il1][o0]/.test(name)] *)
Definition suspicious_name (name : value) : bool :=
  digit_run (ToString name) || lookalike_pair (ToString name).

Record Assessment : Type := {
  suspicious : bool;
  riskLevel : RiskLevel;
  riskReasons : list string
}.

Module RiskAssessor.

(** [PackageScanner.assessRisk(info, downloads)] of [content.js]; the
    same statements stand in [handleAnalyzePackage] of [background.js]. *)
Definition assessRisk (info : PackageInfo) (downloads : Z) : Assessment :=
  let reasons : list string := [] in
  let suspicious := false in
  let level := LOW in
  let '(suspicious, level, reasons) :=
    if (downloads <? CONFIG.MIN_DOWNLOADS_SUSPICIOUS)
       && negb (truthy (info_repository info))
    then (true, HIGH, (reasons ++ ["Low downloads + No Repo"])%list)
    else (suspicious, level, reasons) in
  let '(suspicious, level, reasons) :=
    if suspicious_name (info_name info)
    then (true, MEDIUM, (reasons ++ ["Suspicious name pattern"])%list)
    else (suspicious, level, reasons) in
  {| suspicious := suspicious;
     riskLevel := if suspicious then level else LOW;
     riskReasons := reasons |}.

End RiskAssessor.

Module MessageHandler.

(** The outcome of an [await] on the network: the value, or the message
    of the exception. *)
Inductive fetched (A : Type) : Type :=
| Fetched (a : A)
| Failed (message : string).
Arguments Fetched {A} a.
Arguments Failed {A} message.

(** The response of [registry.npmjs.org/<name>]: its status and what
    [res.json()] gives.  [Failed] stands for every exception raised while
    the document is read or first used. *)
Record RegistryResponse : Type := {
  status : Z;
  json : fetched PackageInfo
}.

(** The response of the downloads endpoint and [dlData.downloads] for a
    body that holds a number under that key; [Failed] when the body cannot
    be read.  A body that is read and holds no number there is not
    represented. *)
Record DownloadsResponse : Type := {
  dl_status : Z;
  dl_downloads : fetched Z
}.

(** [response.ok] *)
Definition ok (status : Z) : bool := (200 <=? status) && (status <=? 299).

Record Request : Type := { name : string; sources : list string }.

(** The object [handleAnalyzePackage] resolves to.  A field the object
    does not have is [None]; [isUnregistered] is [false] when absent. *)
Record Result : Type := {
  r_name : string;
  r_error : option string;
  r_version : option value;
  r_weeklyDownloads : option Z;
  r_suspicious : option bool;
  isUnregistered : bool;
  r_riskLevel : option RiskLevel;
  r_riskReasons : option (list string);
  r_sources : list string
}.

Definition error_result (name error : string) (sources : list string) : Result :=
  {| r_name := name; r_error := Some error; r_version := None;
     r_weeklyDownloads := None; r_suspicious := None; isUnregistered := false;
     r_riskLevel := None; r_riskReasons := None; r_sources := sources |}.

Definition handleAnalyzePackage (request : Request)
    (registry : fetched RegistryResponse)
    (downloadsPoint : fetched DownloadsResponse) : Result :=
  let name := name request in
  let sources := sources request in
  match registry with
  | Failed message => error_result name message sources
  | Fetched res =>
      if status res =? 404 then
        {| r_name := name; r_error := None; r_version := None;
           r_weeklyDownloads := None;
           r_suspicious := Some true;
           isUnregistered := true;
           r_riskLevel := Some CRITICAL;
           r_riskReasons :=
             Some ["Package not found on npmjs.org - potential dependency confusion"];
           r_sources := sources |}
      else if status res =? 429 then
        error_result name "Rate Limit Exceeded (429)" sources
      else if negb (ok (status res)) then
        error_result name ("Registry Error (" ++ pretty (status res) ++ ")") sources
      else
        match json res with
        | Failed message => error_result name message sources
        | Fetched info =>
            let downloads :=
              match downloadsPoint with
              | Fetched dlRes =>
                  if ok (dl_status dlRes) then
                    match dl_downloads dlRes with
                    | Fetched n => n
                    | Failed _ => 0
                    end
                  else 0
              | Failed _ => 0
              end in
            let a := RiskAssessor.assessRisk info downloads in
            {| r_name := name; r_error := None;
               r_version := Some (if truthy (info_latest info)
                                  then info_latest info else VString "?");
               r_weeklyDownloads := Some downloads;
               r_suspicious := Some (suspicious a);
               isUnregistered := false;
               r_riskLevel := Some (riskLevel a);
               r_riskReasons := Some (riskReasons a);
               r_sources := sources |}
        end
  end.

End MessageHandler.

(* ===================================================================== *)
(** * PackageScanner                                                      *)
(* ===================================================================== *)

(** A document as [JSON.parse] builds it. *)
#[warnings="-register-all"]
Inductive JSON : Type :=
| JNull
| JBool (b : bool)
| JNumber (n : Z)
| JString (s : string)
| JArray (items : list JSON)
| JObject (fields : list (string * JSON)).

Module Json.

Definition to_value (j : JSON) : value :=
  match j with
  | JNull => VNull
  | JBool b => VBool b
  | JNumber n => VNumber n
  | JString s => VString s
  | JArray _ | JObject _ => VObject
  end.

(** [j[key]] for a [key] that is no index and is not [length]: the last
    field written under that name; [undefined] on a value without it; an
    exception on [null]. *)
Definition get (j : JSON) (key : string) : completion (option JSON) :=
  match j with
  | JNull => Throw
  | JObject fields =>
      Normal (snd <$> List.find (fun f => String.eqb (fst f) key) (rev fields))
  | _ => Normal None
  end.

(** [Object.keys(j)] for [j] other than [null].  A name written twice is
    listed twice here and an index-like name is left in its place, which
    changes nothing for a caller that adds every key to a map. *)
Definition keys (j : JSON) : list string :=
  match j with
  | JObject fields => map fst fields
  | JArray items => map (fun i : nat => pretty i) (seq 0 (length items))
  | JString s => map (fun i : nat => pretty i) (seq 0 (String.length s))
  | _ => []
  end.

End Json.

(** One exposed file, as [checkExposedFiles] reports it. *)
Record ExposedFile : Type := {
  path : string;
  risk : RiskLevel;
  ef_status : Z;
  contentType : option string
}.

(** The response to a probe: status, [content-type] header when there is
    one, and the text of the body. *)
Record Response : Type := {
  res_status : Z;
  res_contentType : option string;
  res_text : string
}.

(** The audited site, as the probe observes it.  [Throw] is a rejected
    [fetch] or a body that cannot be read. *)
Record Site : Type := {
  root : completion string;               (* fetch('/') and its text *)
  HEAD : string -> completion Z;          (* status of the HEAD probe *)
  GET : string -> completion Response;    (* the ranged GET probe *)
  packageJson : completion JSON           (* fetch('/package.json') and res.json() *)
}.

Module Patterns.

(** [/^\s*\{/] *)
Definition open_brace (text : string) : bool :=
  startsWith (drop_start is_space text) "{".

(** The first line of [s]. *)
Fixpoint first_line (s : string) : string :=
  match s with
  | EmptyString => EmptyString
  | String c r => if is_line_terminator c then EmptyString else String c (first_line r)
  end.

(** [/^[A-Z_]+=/] at the start of [s] *)
Fixpoint key_equals_tail (s : string) : bool :=
  match s with
  | String c r =>
      if is_upper c || Ascii.eqb c "_" then
        startsWith r "=" || key_equals_tail r
      else false
  | EmptyString => false
  end.

(** [/^[A-Z_]+=/m]; [bol] tells whether [s] starts a line. *)
Fixpoint key_equals_line (bol : bool) (s : string) : bool :=
  (bol && key_equals_tail s) ||
  match s with
  | String c r => key_equals_line (is_line_terminator c) r
  | EmptyString => false
  end.

(** The properties every object inherits from [Object.prototype]. *)
Definition Object_prototype : list string :=
  [ "constructor"; "toString"; "toLocaleString"; "valueOf"; "hasOwnProperty";
    "isPrototypeOf"; "propertyIsEnumerable"; "__proto__"; "__defineGetter__";
    "__defineSetter__"; "__lookupGetter__"; "__lookupSetter__" ].

(** [CONFIG.CONFIG_PATTERNS], each entry with [pattern.test]. *)
Definition CONFIG_PATTERNS : list (string * (string -> bool)) :=
  [ ("package.json", open_brace);
    ("package-lock.json", open_brace);
    (* /^#.*yarn|registry/i *)
    ("yarn.lock", fun text =>
       let t := toLowerCase text in
       match t with
       | String "#" r => includes (first_line r) "yarn"
       | _ => false
       end || includes t "registry");
    (* /^lockfileVersion/ *)
    ("pnpm-lock.yaml", fun text => startsWith text "lockfileVersion");
    ("npm-shrinkwrap.json", open_brace);
    (* /registry=|disturl=|always-auth=|_auth=/ *)
    (".npmrc", fun text =>
       includes text "registry=" || includes text "disturl="
       || includes text "always-auth=" || includes text "_auth=");
    (* /--install|yarn-path/ *)
    (".yarnrc", fun text => includes text "--install" || includes text "yarn-path");
    (* /nodeLinker:|yarnPath:/ *)
    (".yarnrc.yml", fun text => includes text "nodeLinker:" || includes text "yarnPath:");
    (* /Index of|Parent Directory/i *)
    ("node_modules", fun text =>
       includes (toLowerCase text) "index of"
       || includes (toLowerCase text) "parent directory");
    (* /module\.exports|require\(|import / *)
    ("webpack.config.js", fun text =>
       includes text "module.exports" || includes text "require("
       || includes text "import ");
    (* /export default|defineConfig/ *)
    ("vite.config.js", fun text =>
       includes text "export default" || includes text "defineConfig");
    ("vite.config.ts", fun text =>
       includes text "export default" || includes text "defineConfig");
    (* /module\.exports|nextConfig/ *)
    ("next.config.js", fun text =>
       includes text "module.exports" || includes text "nextConfig");
    (* /export default|defineNuxtConfig/ *)
    ("nuxt.config.js", fun text =>
       includes text "export default" || includes text "defineNuxtConfig");
    (* /export default/ *)
    ("rollup.config.js", fun text => includes text "export default");
    (* /module\.exports/ *)
    ("babel.config.js", fun text => includes text "module.exports");
    ("tsconfig.json", open_brace);
    (* /^[A-Z_]+=/m *)
    (".env", key_equals_line true);
    (".env.local", key_equals_line true);
    (".env.development", key_equals_line true);
    (".env.production", key_equals_line true);
    (".env.test", key_equals_line true);
    (* /^version:|services:/ *)
    ("docker-compose.yml", fun text =>
       startsWith text "version:" || includes text "services:");
    (* /^FROM /i *)
    ("Dockerfile", fun text => startsWith (toLowerCase text) "from ") ].

(** [CONFIG.CONFIG_PATTERNS[filename]] *)
Inductive property : Type :=
| Own (test : string -> bool)     (* a pattern of the table *)
| Inherited                        (* a member of Object.prototype *)
| Absent.                          (* undefined *)

Definition lookup (filename : string) : property :=
  match List.find (fun e => String.eqb (fst e) filename) CONFIG_PATTERNS with
  | Some e => Own (snd e)
  | None => if has Object_prototype filename then Inherited else Absent
  end.

End Patterns.

Module PackageScanner.

(** [this.packages]: a [Map] from package names to [Set]s of sources. *)
Abbreviation PackageRecord := (gmap value (gset string)).

(** [addPackage(packageName, source)] *)
Definition addPackage (packageName : value) (source : string)
    (packages : PackageRecord) : PackageRecord :=
  if negb (truthy packageName) then packages else
  if PackageNameExtractor.isInternalModule packageName then packages else
  let packages :=
    match packages !! packageName with
    | Some _ => packages
    | None => <[packageName := ∅]> packages
    end in
  alter (fun sources => sources ∪ {[source]}) packageName packages.

(** [parsePackageJson()]: every step stands in one [try] whose handler is
    empty. *)
Definition parsePackageJson (site : Site) (packages : PackageRecord) : PackageRecord :=
  match packageJson site with
  | Throw => packages
  | Normal json =>
      match Json.get json "dependencies", Json.get json "devDependencies" with
      | Normal deps, Normal devDeps =>
          let ingest (section : option JSON) (packages : PackageRecord) :=
            match section with
            | Some j =>
                if truthy (Json.to_value j)
                then fold_left (fun pk d => addPackage (VString d) "/package.json" pk)
                               (Json.keys j) packages
                else packages
            | None => packages
            end in
          ingest devDeps (ingest deps packages)
      | _, _ => packages
      end
  end.

(** The risk tier of an exposed path. *)
Definition risk_of (path : string) : RiskLevel :=
  if includes path ".env" || includes path "npmrc" then HIGH
  else if includes path "lock" || String.eqb path "/package.json" then MEDIUM
  else LOW.

(** [path.split('/').pop() || 'node_modules'] *)
Definition filename_of (path : string) : string :=
  let last := List.last (split "/" path) EmptyString in
  if String.eqb last EmptyString then "node_modules" else last.

(** The soft-404 test of [checkFile]: the body repeats the start of the
    home page, or holds the doctype, and a home page was read. *)
Definition soft404 (rootContent text : string) : bool :=
  negb (String.eqb rootContent EmptyString)
  && (String.eqb text (slice0 rootContent (String.length text))
      || includes text "<!DOCTYPE html>").

(** [checkFile(path)] once both probes have answered with [ok]: the entry
    pushed on [exposedFiles], if any. *)
Definition validate (rootContent path : string) (getRes : Response)
  : option ExposedFile :=
  let text := res_text getRes in
  if soft404 rootContent text && negb (endsWith path ".html") then None else
  let accepted :=
    match Patterns.lookup (filename_of path) with
    | Patterns.Own test => test text
    | Patterns.Inherited => false      (* pattern.test is not a function *)
    | Patterns.Absent =>
        let contentType :=
          toLowerCase (default EmptyString (res_contentType getRes)) in
        if includes contentType "text/html" then false else
        if startsWith (trim text) "<!DOCTYPE" || startsWith (trim text) "<html"
        then false else
        let isHtml := includes contentType "text/html"
                      || includes text "<!DOCTYPE html>" in
        let expectedJson := endsWith path ".json" || endsWith path "rc" in
        negb (expectedJson && isHtml)
    end in
  if accepted then
    Some {| path := path; risk := risk_of path;
            ef_status := res_status getRes;
            contentType := res_contentType getRes |}
  else None.

Definition ok (status : Z) : bool := (200 <=? status) && (status <=? 299).

(** [checkFile(path)]: what it pushes and what it does to the record. *)
Definition checkFile (site : Site) (rootContent path : string)
    (packages : PackageRecord) : option ExposedFile * PackageRecord :=
  match HEAD site path with
  | Throw => (None, packages)
  | Normal headStatus =>
      if ok headStatus then
        match GET site path with
        | Throw => (None, packages)
        | Normal getRes =>
            if ok (res_status getRes) then
              match validate rootContent path getRes with
              | Some found =>
                  (Some found,
                   if String.eqb path "/package.json"
                   then parsePackageJson site packages else packages)
              | None => (None, packages)
              end
            else (None, packages)
        end
      else (None, packages)
  end.

(** [checkExposedFiles()].  The checks run side by side, at most
    [CONFIG.MAX_CONCURRENT_SCANS] at a time, and each pushes its entry when
    it completes: [completion_order] lists [CONFIG.CONFIG_FILES] in the
    order the checks complete. *)
Definition checkExposedFiles (site : Site) (completion_order : list string)
    (packages : PackageRecord) : list ExposedFile * PackageRecord :=
  let rootContent := match root site with Normal text => text | Throw => EmptyString end in
  fold_left
    (fun '(exposedFiles, packages) path =>
       match checkFile site rootContent path packages with
       | (Some found, packages) => ((exposedFiles ++ [found])%list, packages)
       | (None, packages) => (exposedFiles, packages)
       end)
    completion_order ([], packages).

Section WithPlatform.

Variable URL_new : string -> completion URL.

(** The first capture groups of the matches of the eight patterns of
    [scanContent] in [content], in the order the two loops meet them. *)
Variable captures : string -> list string.

#[local] Abbreviation extract := (PackageNameExtractor.extract URL_new).

(** The two loops of [scanContent] over the captures still to come. *)
Fixpoint scanCaptures (matches : list string) (source : string)
    (packages : PackageRecord) : completion PackageRecord :=
  match matches with
  | [] => Normal packages
  | m1 :: later =>
      if truthy (VString m1) then
        pkg ← extract (VString m1);
        scanCaptures later source (addPackage pkg source packages)
      else scanCaptures later source packages
  end.

(** [scanContent(content, source)] *)
Definition scanContent (content source : string) (packages : PackageRecord)
  : completion PackageRecord :=
  scanCaptures (captures content) source packages.

(** [scanUrls(urls)] *)
Fixpoint scanUrls (urls : list string) (packages : PackageRecord)
  : completion PackageRecord :=
  match urls with
  | [] => Normal packages
  | url :: later =>
      pkg ← extract (VString url);
      scanUrls later
        (if truthy pkg then addPackage pkg ("CDN/URL: " ++ url) packages
         else packages)
  end.

(** The [forEach] of [scanSourceMap(url)] over [map.sources]. *)
Fixpoint scanSources (sources : list JSON) (url : string)
    (packages : PackageRecord) : completion PackageRecord :=
  match sources with
  | [] => Normal packages
  | s :: later =>
      pkg ← extract (Json.to_value s);
      scanSources later url (addPackage pkg ("Source Map: " ++ url) packages)
  end.

End WithPlatform.

End PackageScanner.

(** ** What the properties need of the URL parser *)

(** The code units of the names of the grammar. *)
Definition ref_char (c : ascii) : bool :=
  PackageNameExtractor.name_char c || Ascii.eqb c "@" || Ascii.eqb c "/".

(** A string of such code units that does not start with a slash has no
    scheme and no authority: the parser resolves it against the base, and
    the URL it builds has the host of the base. *)
Definition resolves_against_base (URL_new : string -> completion URL) : Prop :=
  forall s, all_chars ref_char s = true -> startsWith s "/" = false ->
    exists url, URL_new s = Normal url /\ hostname url = WHATWG.EXAMPLE_COM.

(* ===================================================================== *)
(** * The rest of the scanner: chunks, cache, scan state                  *)
(* ===================================================================== *)

Module Crawl.

(** [chunkSize] of [scanAllDiscoveredFiles] *)
Definition chunkSize : nat := 5.

(** [urls.slice(i, j)] for [i <= j] *)
Definition slice {A} (xs : list A) (i j : nat) : list A := firstn (j - i) (skipn i xs).

(** The chunks of the loop of [scanAllDiscoveredFiles],
    [for (let i = 0; i < urls.length; i += chunkSize)], from index [i] on;
    [fuel] bounds the number of turns. *)
Fixpoint chunksFrom (fuel i : nat) (urls : list string) : list (list string) :=
  match fuel with
  | O => []
  | S fuel' =>
      if (i <? length urls)%nat
      then slice urls i (i + chunkSize) :: chunksFrom fuel' (i + chunkSize) urls
      else []
  end.

(** Each turn moves [i] forward, so [urls.length] turns are enough. *)
Definition chunks (urls : list string) : list (list string) :=
  chunksFrom (length urls) 0 urls.

End Crawl.

Module Analysis.

Import MessageHandler.

Definition CACHE_DURATION : Z := 300000.

(** An entry of [this.cache]. *)
Record CacheEntry : Type := { data : Result; timestamp : Z }.

(** What [analyzePackage] reads and writes of the scanner. *)
Record Scanner : Type := {
  rateLimiter : RateLimiter.t;
  cache : gmap string CacheEntry
}.

(** [{ ...result, sources }] *)
Definition with_sources (result : Result) (sources : list string) : Result :=
  {| r_name := r_name result; r_error := r_error result;
     r_version := r_version result;
     r_weeklyDownloads := r_weeklyDownloads result;
     r_suspicious := r_suspicious result;
     isUnregistered := isUnregistered result;
     r_riskLevel := r_riskLevel result;
     r_riskReasons := r_riskReasons result;
     r_sources := sources |}.

(** [!!result.error] *)
Definition has_error (result : Result) : bool :=
  match r_error result with
  | Some e => negb (String.eqb e EmptyString)
  | None => false
  end.

(** [cacheResult(name, data)] at the time [now] *)
Definition cacheResult (now : Z) (name : string) (data : Result)
    (cache : gmap string CacheEntry) : gmap string CacheEntry :=
  <[name := {| data := data; timestamp := now |}]> cache.

(** [analyzePackage(name, sources)], called at the time [now] by the
    sequential loop of [analyzePackages], the only caller of the limiter.
    [sendMessage] is the answer of the background worker, [Failed] when the
    promise rejects or the answer cannot be read; [latency] is the time it
    takes; [fuel] and [late] are those of [RateLimiter.waitForSlot]. *)
Definition analyzePackage (fuel : nat) (late : nat -> Z)
    (sendMessage : string -> list string -> fetched Result) (latency : Z)
    (now : Z) (name : string) (sources : list string) (scanner : Scanner)
  : option (Result * Scanner) :=
  let lookup_registry :=
    match RateLimiter.waitForSlot fuel late now (rateLimiter scanner) with
    | None => None
    | Some (rl, grantedAt) =>
        match sendMessage name sources with
        | Fetched result =>
            if has_error result then
              Some (error_result name (default EmptyString (r_error result)) sources,
                    {| rateLimiter := rl; cache := cache scanner |})
            else
              Some (result,
                    {| rateLimiter := rl;
                       cache := cacheResult (grantedAt + Z.max 0 latency) name result
                                  (cache scanner) |})
        | Failed message =>
            Some (error_result name message sources,
                  {| rateLimiter := rl; cache := cache scanner |})
        end
    end in
  match cache scanner !! name with
  | Some cached =>
      if now - timestamp cached <? CACHE_DURATION
      then Some (with_sources (data cached) sources, scanner)
      else lookup_registry
  | None => lookup_registry
  end.

End Analysis.

Module AutoScan.

(** [scanState] of [content.js], without the [url] it never changes. *)
Record ScanState : Type := {
  scanning : bool;
  complete : bool;
  packages : list MessageHandler.Result;
  exposedFiles : list ExposedFile;
  error : option string;
  enabled : bool
}.

Definition initial : ScanState :=
  {| scanning := false; complete := false; packages := []; exposedFiles := [];
     error := None; enabled := true |}.

(** How the [try] block of [runAutoScan] ends. *)
Inductive Outcome : Type :=
| Completed (packageResults : list MessageHandler.Result) (exposed : list ExposedFile)
| CompletedThenRaised (packageResults : list MessageHandler.Result)
    (exposed : list ExposedFile) (message : string)
| Raised (message : string).

(** What happens to [scanState], one step at a time; no step holds an
    [await].
    - [Enter extensionEnabled]: [runAutoScan] from the answer of the storage
      to the start of the [try] block.
    - [Leave outcome]: the end of the [try] block or its handler; it
      belongs to the call that set [scanning], so it occurs only while
      [scanning] holds.  [CompletedThenRaised] is the case where the state
      is updated and the report that follows raises.
    - [Toggle isEnabled]: the [toggleExtension] message.  The
      [runAutoScan()] it may call has changed nothing when the listener
      returns: its [Enter] step comes later. *)
Inductive Event : Type :=
| Enter (extensionEnabled : option bool)
| Leave (outcome : Outcome)
| Toggle (isEnabled : bool).

Definition step (st : ScanState) (e : Event) : ScanState :=
  match e with
  | Enter extensionEnabled =>
      (* storage.extensionEnabled !== false *)
      let isEnabled := negb (bool_decide (extensionEnabled = Some false)) in
      let st := {| scanning := scanning st; complete := complete st;
                   packages := packages st; exposedFiles := exposedFiles st;
                   error := error st; enabled := isEnabled |} in
      if negb isEnabled then st
      else if scanning st || complete st then st
      else {| scanning := true; complete := complete st;
              packages := packages st; exposedFiles := exposedFiles st;
              error := error st; enabled := enabled st |}
  | Leave outcome =>
      if negb (scanning st) then st else
      match outcome with
      | Completed packageResults exposed =>
          {| scanning := false; complete := true;
             packages := packageResults; exposedFiles := exposed;
             error := error st; enabled := enabled st |}
      | CompletedThenRaised packageResults exposed message =>
          {| scanning := false; complete := true;
             packages := packageResults; exposedFiles := exposed;
             error := Some message; enabled := enabled st |}
      | Raised message =>
          {| scanning := false; complete := complete st;
             packages := packages st; exposedFiles := exposedFiles st;
             error := Some message; enabled := enabled st |}
      end
  | Toggle isEnabled =>
      if isEnabled then
        {| scanning := scanning st; complete := complete st;
           packages := packages st; exposedFiles := exposedFiles st;
           error := error st; enabled := true |}
      else
        {| scanning := scanning st; complete := false;
           packages := []; exposedFiles := [];
           error := error st; enabled := false |}
  end.

Definition run (events : list Event) (st : ScanState) : ScanState :=
  fold_left step events st.

(** Does [Toggle isEnabled] on [st] call [runAutoScan()]? *)
Definition toggle_starts (st : ScanState) (isEnabled : bool) : bool :=
  isEnabled && negb (complete st) && negb (scanning st).

End AutoScan.

(* ===================================================================== *)
(** * The background worker                                               *)
(* ===================================================================== *)

Module Background.

(** A value of [tabResults]: [{ ...result, timestamp }]. *)
Record TabResult : Type := {
  suspiciousPackages : list MessageHandler.Result;
  tr_exposedFiles : list ExposedFile;
  tr_timestamp : Z
}.

(** [BackgroundState]; a tab id is a number. *)
Record State : Type := {
  tabResults : gmap Z TabResult;
  scanTimestamps : gmap Z Z;
  notificationIds : gmap Z string
}.

(** [new BackgroundState()] *)
Definition empty : State :=
  {| tabResults := ∅; scanTimestamps := ∅; notificationIds := ∅ |}.

Definition setTabResult (now : Z) (tabId : Z)
    (suspicious : list MessageHandler.Result) (exposed : list ExposedFile)
    (st : State) : State :=
  {| tabResults := <[tabId := {| suspiciousPackages := suspicious;
                                tr_exposedFiles := exposed;
                                tr_timestamp := now |}]> (tabResults st);
     scanTimestamps := scanTimestamps st;
     notificationIds := notificationIds st |}.

Definition getTabResult (tabId : Z) (st : State) : option TabResult :=
  tabResults st !! tabId.

Definition removeTab (tabId : Z) (st : State) : State :=
  {| tabResults := delete tabId (tabResults st);
     scanTimestamps := delete tabId (scanTimestamps st);
     notificationIds := delete tabId (notificationIds st) |}.

(** [canScan(tabId)] at the time [now]; a time stamp of 0 is falsy. *)
Definition canScan (now : Z) (tabId : Z) (st : State) : bool :=
  match scanTimestamps st !! tabId with
  | None => true
  | Some lastScan => if lastScan =? 0 then true else now - lastScan >? 5000
  end.

Definition recordScan (now : Z) (tabId : Z) (st : State) : State :=
  {| tabResults := tabResults st;
     scanTimestamps := <[tabId := now]> (scanTimestamps st);
     notificationIds := notificationIds st |}.

Definition maxAge : Z := 10 * 60 * 1000.

(** [cleanup()] at the time [now].  The loop visits the entries of
    [tabResults]; [removeTab] touches the visited key only, so the order
    of the visits has no effect. *)
Definition cleanup (now : Z) (st : State) : State :=
  map_fold (fun tabId data st =>
              if now - tr_timestamp data >? maxAge then removeTab tabId st else st)
           st (tabResults st).

(** [BadgeManager.getRiskColor(count)] *)
Definition getRiskColor (count : Z) : string :=
  if count >=? 5 then "#d32f2f"
  else if count >=? 3 then "#f57c00"
  else if count >=? 1 then "#fbc02d"
  else "#388e3c".

(** What [updateBadge(tabId, riskCount)] asks of [chrome.action]: the
    badge text and, if it sets one, the background colour. *)
Definition updateBadge (riskCount : Z) : string * option string :=
  if riskCount >? 0 then
    (if riskCount >? 99 then "99+" else pretty riskCount, Some (getRiskColor riskCount))
  else (EmptyString, None).

(** The [notifyRisks] request: a field may be missing. *)
Record NotifyRequest : Type := {
  nr_suspiciousPackages : option (list MessageHandler.Result);
  nr_exposedFiles : option (list ExposedFile)
}.

(** The answer of [handleNotifyRisks]. *)
Inductive NotifyAnswer : Type :=
| NoTabId                       (* { success: false, error: 'No tab ID' } *)
| Stored (totalRisks : Z).      (* { success: true, totalRisks } *)

(** [handleNotifyRisks(request, sender)] at the time [now]; [senderTab]
    is [sender.tab?.id].  The result is the answer, the badge requested
    and the state.  [NotificationManager.create] returns at its first
    statement. *)
Definition handleNotifyRisks (now : Z) (request : NotifyRequest)
    (senderTab : option Z) (st : State)
  : NotifyAnswer * option (string * option string) * State :=
  match senderTab with
  | None => (NoTabId, None, st)
  | Some tabId =>
      if tabId =? 0 then (NoTabId, None, st) else
      let suspicious := default [] (nr_suspiciousPackages request) in
      let exposed := default [] (nr_exposedFiles request) in
      let totalRisks := Z.of_nat (length suspicious) + Z.of_nat (length exposed) in
      (Stored totalRisks, Some (updateBadge totalRisks),
       setTabResult now tabId suspicious exposed st)
  end.

(** The answer of [handleGetResults]: the stored value, or the literal
    [{ packages: [], exposedFiles: [] }]. *)
Inductive GetAnswer : Type :=
| Found (result : TabResult)
| NothingStored.

Definition handleGetResults (tabId : Z) (st : State) : GetAnswer :=
  match getTabResult tabId st with
  | Some result => Found result
  | None => NothingStored
  end.

End Background.

(* ===================================================================== *)
(** * The popup                                                           *)
(* ===================================================================== *)

Module Popup.

Import MessageHandler.

(** [!!p.error] *)
Definition has_error (p : Result) : bool :=
  match r_error p with
  | Some e => negb (String.eqb e EmptyString)
  | None => false
  end.

(** The three filters of [renderResults]. *)
Definition criticalPackages (packages : list Result) : list Result :=
  List.filter (fun p => isUnregistered p) packages.

Definition safePackages (packages : list Result) : list Result :=
  List.filter (fun p => negb (isUnregistered p) && negb (has_error p)) packages.

Definition errorPackages (packages : list Result) : list Result :=
  List.filter (fun p => has_error p) packages.

(** [getBadge(pkg)]: the label of the badge. *)
Definition getBadge (pkg : Result) : string :=
  if isUnregistered pkg then "UNREGISTERED"
  else if has_error pkg then "ERROR"
  else "OK".

(** [calculateStats(results)]: [totalPackages] and [criticalRisks]. *)
Definition calculateStats (packages : list Result) (exposedFiles : list ExposedFile)
  : nat * nat :=
  (length packages,
   (length (List.filter (fun p => isUnregistered p) packages) + length exposedFiles)%nat).

End Popup.

(** ** What more the properties need of the URL parser *)

(** An input that starts with a code unit that is no letter, no slash, no
    backslash, no space and no control has no scheme and no authority. *)
Definition relative_reference (s : string) : bool :=
  match s with
  | String c _ =>
      negb (is_alpha c) && negb (WHATWG.is_slash true c)
      && negb (WHATWG.c0_or_space c)
  | EmptyString => true
  end.

(** When the parser accepts such an input, the URL has the host of the
    base. *)
Definition keeps_base_host (URL_new : string -> completion URL) : Prop :=
  forall s url, relative_reference s = true -> URL_new s = Normal url ->
    hostname url = WHATWG.EXAMPLE_COM.

Import PackageNameExtractor.
Import PackageScanner.

(** ** Predicates and sample sites of the statements *)

(** A result of [normalizePackageName] on what [extract] passes to it
    ([undefined], [null] or a string): [null], or a string of the grammar
    that is no built-in. *)
Definition clean_result (c : completion value) : Prop :=
  c = Normal VNull
  \/ exists r, c = Normal (VString r)
               /\ valid_name r = true /\ has CONFIG.NODE_BUILTINS r = false.

(** Every key of the record is a string of the grammar that is no
    internal sub-module. *)
Definition canonical_keys (packages : gmap value (gset string)) : Prop :=
  forall k, is_Some (packages !! k) ->
    exists s, k = VString s /\ valid_name s = true
              /\ isInternalModule (VString s) = false.

(** A site whose [/package.json] lists the dependency [JSONStream]. *)
Definition site_with_JSONStream : Site :=
  {| root := Throw;
     HEAD := fun _ => Throw;
     GET := fun _ => Throw;
     packageJson :=
       Normal (JObject [("name", JString "shop");
                        ("dependencies", JObject [("JSONStream", JString "^1.3.5")])]) |}.

(** A single-page site that answers every path with its shell. *)
Definition spa_shell : string :=
  "<!DOCTYPE html><html><head><title>registry=ours</title></head></html>".

Definition spa_site : Site :=
  {| root := Normal spa_shell;
     HEAD := fun _ => Normal 200;
     GET := fun _ => Normal {| res_status := 200;
                               res_contentType := Some "text/html";
                               res_text := spa_shell |};
     packageJson := Throw |}.

(** The same site when the request for its home page yields no text. *)
Definition spa_site_no_baseline : Site :=
  {| root := Normal EmptyString;
     HEAD := HEAD spa_site;
     GET := GET spa_site;
     packageJson := Throw |}.

(** The record [after] holds whatever the record [before] holds. *)
Definition record_le (before after : gmap value (gset string)) : Prop :=
  forall k sources, before !! k = Some sources ->
    exists sources', after !! k = Some sources' /\ sources ⊆ sources'.

(** Every key of the record is truthy and is no internal sub-module. *)
Definition recordable_keys (packages : gmap value (gset string)) : Prop :=
  forall k, is_Some (packages !! k) ->
    truthy k = true /\ isInternalModule k = false.

(* ===================================================================== *)
(** * Properties                                                          *)
(* ===================================================================== *)

(** ** The extractor on the inputs of [test_extraction.js] and on CDN URLs *)

Example extract_examples :
  map (fun s => extract WHATWG.URL_new (VString s))
      [ "react"; "react@18.2.0"; "@scope/pkg"; "@scope/pkg@1.2.3"; "fs";
        "./local"; "lodash/fp";
        "https://unpkg.com/react@18.2.0/index.js";
        "https://cdn.jsdelivr.net/npm/@vue/runtime-dom@3/dist/runtime-dom.js";
        "https://cdnjs.cloudflare.com/ajax/libs/jquery/3.6.0/jquery.min.js";
        "https://connect.facebook.net/en_US/sdk.js";
        "../../node_modules/left-pad/index.js"; "@/components/Button" ]
  = [ Normal (VString "react"); Normal (VString "react");
      Normal (VString "@scope/pkg"); Normal (VString "@scope/pkg"); Normal VNull;
      Normal VNull; Normal (VString "lodash");
      Normal (VString "react");
      Normal (VString "@vue/runtime-dom");
      Normal (VString "jquery");
      Normal VNull;
      Normal (VString "left-pad"); Normal VNull ].
Proof. vm_compute. reflexivity. Qed.

Example RateLimiter_third_caller_waits :
  snd (RateLimiter.attempt 20 (fst (RateLimiter.run [0; 10] (RateLimiter.new 2 1000))))
  = RateLimiter.Retry (Some 1080).
Proof. reflexivity. Qed.

(** ** The extractor never raises *)

Lemma normalizePackageName_string (s : string) :
  normalizePackageName (VString s) = Normal VNull
  \/ exists r, normalizePackageName (VString s) = Normal (VString r)
               /\ valid_name r = true /\ has CONFIG.NODE_BUILTINS r = false.
Proof.
  unfold normalizePackageName.
  destruct (negb (truthy (VString s))); [now left|].
  destruct (startsWith s "@").
  - destruct (match_scoped s) as [[scope name]|]; [|now left].
    destruct (has CONFIG.NODE_BUILTINS _) eqn:Hb; [now left|].
    destruct (valid_name _) eqn:Hv; [|now left].
    right. eexists. repeat split; eauto.
  - set (n := if includes s "@" then before "@" s else s).
    replace (if includes s "@" then Some (before "@" s) else Some s)
      with (Some n) by (subst n; now destruct (includes s "@")).
    destruct (has CONFIG.NODE_BUILTINS n) eqn:Hb; [now left|].
    destruct (valid_name n) eqn:Hv; [|now left].
    right. eexists. repeat split; eauto.
Qed.

Lemma normalizePackageName_item (xs : list string) (i : nat) :
  clean_result (normalizePackageName (item xs i)).
Proof.
  unfold item. destruct (nth_error xs i).
  - apply normalizePackageName_string.
  - now left.
Qed.

Lemma extract_cdn_clean URL_new (cleaned : string) :
  match try_catch (extract_cdn URL_new cleaned) with
  | Some r => clean_result (Normal r)
  | None => True
  end.
Proof.
  unfold extract_cdn.
  destruct (URL_new cleaned) as [url|]; simpl; [|exact I].
  destruct (_ || _ || _).
  - match goal with |- context [List.filter ?f ?l] => generalize (List.filter f l) end.
    intros parts0.
    match goal with |- context [if ?c then tl parts0 else parts0] =>
      generalize (if c then tl parts0 else parts0) end.
    intros pathParts.
    destruct (_ && _ && _).
    + destruct (normalizePackageName_item pathParts 2) as [H|(r & H & Hv & Hb)];
        rewrite H; simpl; [now left | right; eauto].
    + destruct pathParts as [|p0 rest]; simpl; [now left|].
      match goal with |- context [normalizePackageName (VString ?x)] =>
        destruct (normalizePackageName_string x) as [H|(r & H & Hv & Hb)] end;
        rewrite H; simpl; [now left | right; eauto].
  - destruct (web_url cleaned); simpl; [now left | exact I].
Qed.

Lemma extract_clean URL_new (v : value) : clean_result (extract URL_new v).
Proof.
  destruct v; try (now left).
  unfold extract.
  destruct (negb (truthy (VString s))); [now left|].
  destruct (String.eqb (trim s) EmptyString); [now left|].
  destruct (isAliasPath (stripQueryAndHash (trim s))); [now left|].
  pose proof (extract_cdn_clean URL_new (stripQueryAndHash (trim s))) as Hcdn.
  destruct (try_catch _) as [r|]; [exact Hcdn|].
  destruct (startsWith _ "."); [now left|].
  destruct (startsWith _ "/" && _); [now left|].
  destruct (isAliasPath _); [now left|].
  destruct (startsWith _ "@").
  - destruct (split "/" _) as [|p0 [|p1 ?]]; try (now left).
    apply normalizePackageName_string.
  - apply normalizePackageName_item.
Qed.

(** C9.  [extract] is total: on every value, a string or not, and with a
    [URL] constructor that may raise on any input, it returns [null] or a
    string and never raises. *)
Theorem extract_total :
  forall (URL_new : string -> completion URL) (importPath : value),
    exists r, extract URL_new importPath = Normal r
              /\ (r = VNull \/ exists s, r = VString s).
Proof.
  intros URL_new v.
  destruct (extract_clean URL_new v) as [H|(r & H & _)]; rewrite H; eauto.
Qed.

(** ** C1: the alias roots *)

(** C1, as the code has it.  The first segment of ["libs/my-lib@2.0.0"]
    is one of the internal alias roots, so the input is an alias path and
    [extract] returns [null], whatever the [URL] constructor does. *)
Theorem extract_libs_alias_null :
  isAliasPath "libs/my-lib@2.0.0" = true
  /\ forall URL_new, extract URL_new (VString "libs/my-lib@2.0.0") = Normal VNull.
Proof. split; [reflexivity | intros; reflexivity]. Qed.

(** C1, as stated, fails: the result is not ["libs"]. *)
Lemma extract_libs_not_libs :
  extract WHATWG.URL_new (VString "libs/my-lib@2.0.0") <> Normal (VString "libs").
Proof. vm_compute. discriminate. Qed.

(** ** C2 and C4: risk assessment and the registry lookup *)

(** With no trigger the level is [LOW] and there is no reason. *)
Lemma assessRisk_no_trigger (info : PackageInfo) (downloads : Z) :
  (downloads <? CONFIG.MIN_DOWNLOADS_SUSPICIOUS) && negb (truthy (info_repository info)) = false ->
  suspicious_name (info_name info) = false ->
  RiskAssessor.assessRisk info downloads
  = {| suspicious := false; riskLevel := LOW; riskReasons := [] |}.
Proof. intros H1 H2. unfold RiskAssessor.assessRisk. now rewrite H1, H2. Qed.

(** A suspicious name sets the level to [MEDIUM], whatever it was. *)
Lemma assessRisk_name_medium (info : PackageInfo) (downloads : Z) :
  suspicious_name (info_name info) = true ->
  riskLevel (RiskAssessor.assessRisk info downloads) = MEDIUM.
Proof.
  intros H. unfold RiskAssessor.assessRisk. rewrite H.
  now destruct (_ && _).
Qed.

(** C2.  A package named ["l0dash"] with 5 weekly downloads and no
    repository triggers both conditions: the finding carries both reasons,
    and its level is [MEDIUM], below the [HIGH] the first condition set.
    The lookup of [background.js] gives the same finding. *)
Theorem assessRisk_both_triggers_medium :
  let info := {| info_name := VString "l0dash"; info_repository := VUndefined;
                 info_latest := VString "1.0.0" |} in
  RiskAssessor.assessRisk info 5
  = {| suspicious := true; riskLevel := MEDIUM;
       riskReasons := ["Low downloads + No Repo"; "Suspicious name pattern"] |}
  /\ MessageHandler.r_riskLevel
       (MessageHandler.handleAnalyzePackage
          {| MessageHandler.name := "l0dash"; MessageHandler.sources := ["Inline Script"] |}
          (MessageHandler.Fetched
             {| MessageHandler.status := 200; MessageHandler.json := MessageHandler.Fetched info |})
          (MessageHandler.Fetched
             {| MessageHandler.dl_status := 200;
                MessageHandler.dl_downloads := MessageHandler.Fetched 5 |}))
     = Some MEDIUM
  /\ tier MEDIUM < tier HIGH.
Proof. repeat split. Qed.

(** C4.  A registry response with status 404 yields a finding marked
    unregistered, of level [CRITICAL], with the dependency-confusion
    reason, for the name and the sources of the request. *)
Theorem handleAnalyzePackage_404_critical :
  forall (request : MessageHandler.Request) (res : MessageHandler.RegistryResponse)
         (downloadsPoint : MessageHandler.fetched MessageHandler.DownloadsResponse),
    MessageHandler.status res = 404 ->
    let finding :=
      MessageHandler.handleAnalyzePackage request (MessageHandler.Fetched res) downloadsPoint in
    MessageHandler.isUnregistered finding = true
    /\ MessageHandler.r_riskLevel finding = Some CRITICAL
    /\ MessageHandler.r_riskReasons finding
       = Some ["Package not found on npmjs.org - potential dependency confusion"]
    /\ MessageHandler.r_suspicious finding = Some true
    /\ MessageHandler.r_error finding = None
    /\ MessageHandler.r_name finding = MessageHandler.name request
    /\ MessageHandler.r_sources finding = MessageHandler.sources request.
Proof.
  intros request res dl H. simpl.
  unfold MessageHandler.handleAnalyzePackage. rewrite H. simpl. repeat split.
Qed.

Lemma handleAnalyzePackage_404_critical_witness :
  let finding :=
    MessageHandler.handleAnalyzePackage
      {| MessageHandler.name := "internal-tool-x"; MessageHandler.sources := ["Inline Script"] |}
      (MessageHandler.Fetched
         {| MessageHandler.status := 404;
            MessageHandler.json := MessageHandler.Failed "Unexpected token" |})
      (MessageHandler.Failed "Failed to fetch") in
  MessageHandler.isUnregistered finding = true
  /\ MessageHandler.r_riskLevel finding = Some CRITICAL.
Proof.
  pose proof (handleAnalyzePackage_404_critical
    {| MessageHandler.name := "internal-tool-x"; MessageHandler.sources := ["Inline Script"] |}
    {| MessageHandler.status := 404;
       MessageHandler.json := MessageHandler.Failed "Unexpected token" |}
    (MessageHandler.Failed "Failed to fetch") eq_refl) as H.
  simpl in H. destruct H as (H1 & H2 & _). split; [exact H1 | exact H2].
Defined.

(** ** C10 and C7: the package record *)

Lemma addPackage_falsy (v : value) (source : string) (packages : gmap value (gset string)) :
  truthy v = false -> addPackage v source packages = packages.
Proof. intros H. unfold addPackage. now rewrite H. Qed.

(** [addPackage] changes the entry of its own key at most. *)
Lemma addPackage_other (v k : value) (source : string) (packages : gmap value (gset string)) :
  k <> v -> addPackage v source packages !! k = packages !! k.
Proof.
  intros Hne. unfold addPackage.
  destruct (negb (truthy v)); [reflexivity|].
  destruct (isInternalModule v); [reflexivity|].
  rewrite lookup_alter_ne by congruence.
  destruct (packages !! v); [reflexivity|].
  now rewrite lookup_insert_ne by congruence.
Qed.

Lemma addPackage_null_entry (v : value) (source : string) (packages : gmap value (gset string)) :
  addPackage v source packages !! VNull = packages !! VNull.
Proof.
  destruct (decide (v = VNull)) as [->|Hne].
  - now rewrite addPackage_falsy.
  - apply addPackage_other. congruence.
Qed.

Lemma scanCaptures_null_entry URL_new (matches : list string) (source : string) :
  forall packages : gmap value (gset string),
    exists packages', scanCaptures URL_new matches source packages = Normal packages'
                      /\ packages' !! VNull = packages !! VNull.
Proof.
  induction matches as [|m1 later IH]; intros packages; cbn [scanCaptures].
  - eauto.
  - destruct (truthy (VString m1)).
    + assert (Hpkg : exists pkg, extract URL_new (VString m1) = Normal pkg).
      { destruct (extract_clean URL_new (VString m1)) as [H|(r & H & _)]; eauto. }
      destruct Hpkg as (pkg & Hpkg).
      rewrite Hpkg. cbn [mbind completion_bind JS.bind].
      destruct (IH (addPackage pkg source packages)) as (p' & Hrun & Hp').
      exists p'. split; [exact Hrun|]. now rewrite Hp', addPackage_null_entry.
    + apply IH.
Qed.

(** C10.  [addPackage] with [null], [undefined] or the empty string as
    name returns the record it was given; and [scanContent], which passes
    every result of [extract] on to [addPackage], completes and leaves the
    entry under the key [null] as it found it: none if there was none. *)
Theorem addPackage_falsy_name_unchanged :
  forall (source : string) (packages : gmap value (gset string)),
    addPackage VNull source packages = packages
    /\ addPackage VUndefined source packages = packages
    /\ addPackage (VString EmptyString) source packages = packages
    /\ forall URL_new captures content,
         exists packages',
           scanContent URL_new captures content source packages = Normal packages'
           /\ packages' !! VNull = packages !! VNull.
Proof.
  intros source packages. repeat split.
  intros URL_new captures content. apply scanCaptures_null_entry.
Qed.

Lemma addPackage_not_internal (v k : value) (source : string)
    (packages : gmap value (gset string)) :
  is_Some (addPackage v source packages !! k) ->
  is_Some (packages !! k) \/ (k = v /\ isInternalModule v = false).
Proof.
  destruct (decide (k = v)) as [->|Hne].
  - unfold addPackage.
    destruct (negb (truthy v)); [now left|].
    destruct (isInternalModule v); [now left | now right].
  - rewrite addPackage_other by assumption. now left.
Qed.

Lemma addPackage_canonical (v : value) (source : string)
    (packages : gmap value (gset string)) :
  clean_result (Normal v) ->
  canonical_keys packages -> canonical_keys (addPackage v source packages).
Proof.
  intros Hv Hpk k Hk.
  destruct (addPackage_not_internal _ _ _ _ Hk) as [Hold|[-> Hint]]; [now apply Hpk|].
  destruct Hv as [Hv|(r & Hv & Hvalid & _)]; injection Hv as ->.
  - unfold addPackage in Hk. simpl in Hk. now apply Hpk.
  - eauto.
Qed.

(** The recording paths that go through [extract] keep the keys
    canonical. *)
Lemma scanCaptures_canonical URL_new (matches : list string) (source : string) :
  forall packages packages',
    canonical_keys packages ->
    scanCaptures URL_new matches source packages = Normal packages' ->
    canonical_keys packages'.
Proof.
  induction matches as [|m1 later IH]; intros packages packages' Hpk; cbn [scanCaptures].
  - now intros [= <-].
  - destruct (truthy (VString m1)); [|now apply IH].
    pose proof (extract_clean URL_new (VString m1)) as Hc.
    destruct (extract URL_new (VString m1)) as [pkg|] eqn:He;
      cbn [mbind completion_bind JS.bind]; [|discriminate].
    apply IH. now apply addPackage_canonical.
Qed.

Lemma scanUrls_canonical URL_new (urls : list string) :
  forall packages packages',
    canonical_keys packages ->
    scanUrls URL_new urls packages = Normal packages' ->
    canonical_keys packages'.
Proof.
  induction urls as [|url later IH]; intros packages packages' Hpk; cbn [scanUrls].
  - now intros [= <-].
  - pose proof (extract_clean URL_new (VString url)) as Hc.
    destruct (extract URL_new (VString url)) as [pkg|] eqn:He;
      cbn [mbind completion_bind JS.bind]; [|discriminate].
    apply IH. destruct (truthy pkg); [now apply addPackage_canonical | assumption].
Qed.

Lemma scanSources_canonical URL_new (sources : list JSON) (url : string) :
  forall packages packages',
    canonical_keys packages ->
    scanSources URL_new sources url packages = Normal packages' ->
    canonical_keys packages'.
Proof.
  induction sources as [|s later IH]; intros packages packages' Hpk; cbn [scanSources].
  - now intros [= <-].
  - pose proof (extract_clean URL_new (Json.to_value s)) as Hc.
    destruct (extract URL_new (Json.to_value s)) as [pkg|] eqn:He;
      cbn [mbind completion_bind JS.bind]; [|discriminate].
    apply IH. now apply addPackage_canonical.
Qed.

(** C7.  [parsePackageJson] records the keys of [dependencies] as they
    are written: from an empty record it records ["JSONStream"], which the
    grammar rejects, where [scanContent], [scanUrls] and [scanSourceMap]
    record results of [extract] only. *)
Theorem parsePackageJson_records_raw_key :
  parsePackageJson site_with_JSONStream ∅ !! VString "JSONStream"
    = Some {["/package.json"]}
  /\ valid_name "JSONStream" = false
  /\ ~ canonical_keys (parsePackageJson site_with_JSONStream ∅).
Proof.
  assert (H : parsePackageJson site_with_JSONStream ∅ !! VString "JSONStream"
              = Some {["/package.json"]}).
  { unfold parsePackageJson, site_with_JSONStream. cbn.
    unfold addPackage. cbn.
    rewrite lookup_empty, lookup_alter_eq, lookup_insert_eq. cbn.
    now rewrite (left_id_L ∅ (∪)). }
  split; [exact H|]. split; [reflexivity|].
  intros Hc. destruct (Hc (VString "JSONStream")) as (s & [= <-] & Hv & _).
  - rewrite H. eauto.
  - discriminate Hv.
Qed.

(** ** C3: the soft-404 filter *)

Lemma slice0_prefix (text rootContent : string) :
  String.prefix text rootContent = true ->
  slice0 rootContent (String.length text) = text.
Proof.
  revert rootContent. induction text as [|c text IH]; intros [|d r]; simpl;
    try reflexivity; try discriminate.
  destruct (Ascii.ascii_dec c d) as [->|]; [|discriminate].
  intros H. now rewrite IH.
Qed.

Lemma soft404_holds (rootContent text : string) :
  rootContent <> EmptyString ->
  String.prefix text rootContent = true \/ includes text "<!DOCTYPE html>" = true ->
  soft404 rootContent text = true.
Proof.
  intros Hroot H. unfold soft404.
  destruct (String.eqb_spec rootContent EmptyString) as [|_]; [contradiction|].
  destruct H as [H|H].
  - now rewrite (slice0_prefix _ _ H), String.eqb_refl.
  - rewrite H. now rewrite orb_true_r.
Qed.

Lemma validate_path (rootContent p : string) (getRes : Response) (found : ExposedFile) :
  validate rootContent p getRes = Some found -> path found = p.
Proof.
  unfold validate.
  destruct (_ && _); [discriminate|].
  destruct (match Patterns.lookup _ with Patterns.Own _ => _ | _ => _ end);
    [|discriminate].
  now intros [= <-].
Qed.

Lemma checkFile_found (site : Site) (rootContent p : string)
    (packages packages' : gmap value (gset string)) (found : ExposedFile) :
  checkFile site rootContent p packages = (Some found, packages') ->
  exists getRes, GET site p = Normal getRes
                 /\ validate rootContent p getRes = Some found.
Proof.
  unfold checkFile.
  destruct (HEAD site p) as [headStatus|]; [|discriminate].
  destruct (PackageScanner.ok headStatus); [|discriminate].
  destruct (GET site p) as [getRes|]; [|discriminate].
  destruct (PackageScanner.ok (res_status getRes)); [|discriminate].
  destruct (validate rootContent p getRes) as [f|] eqn:Hv; [|discriminate].
  intros [= <- _]. eauto.
Qed.

(** What the loop of [checkExposedFiles] adds to [exposedFiles]. *)
Lemma checkExposedFiles_paths (site : Site) (rootContent : string)
    (P : string -> Prop) (completion_order : list string) :
  (forall p packages packages' found,
      checkFile site rootContent p packages = (Some found, packages') -> P (path found)) ->
  forall exposedFiles packages,
    Forall (fun f => P (path f)) exposedFiles ->
    Forall (fun f => P (path f))
      (fst (fold_left
              (fun '(exposedFiles, packages) p =>
                 match checkFile site rootContent p packages with
                 | (Some found, packages) => ((exposedFiles ++ [found])%list, packages)
                 | (None, packages) => (exposedFiles, packages)
                 end)
              completion_order (exposedFiles, packages))).
Proof.
  intros Hstep.
  induction completion_order as [|p later IH]; intros exposedFiles packages Hacc; simpl.
  - exact Hacc.
  - destruct (checkFile site rootContent p packages) as [[found|] packages'] eqn:Hc.
    + apply IH. apply Forall_app. split; [exact Hacc|].
      constructor; [|constructor]. eapply Hstep, Hc.
    + now apply IH.
Qed.

(** C3, as the code has it.  When the home page was read and is not
    empty, a probed path that does not end in [.html] and whose body is a
    prefix of the home page (the whole of it included) or holds
    [<!DOCTYPE html>] is in no entry of [exposedFiles], in whatever order
    the checks complete. *)
Theorem soft404_never_exposed :
  forall (site : Site) (completion_order : list string)
         (packages : gmap value (gset string)) (rootContent p : string),
    root site = Normal rootContent ->
    rootContent <> EmptyString ->
    (forall getRes, GET site p = Normal getRes ->
       String.prefix (res_text getRes) rootContent = true
       \/ includes (res_text getRes) "<!DOCTYPE html>" = true) ->
    endsWith p ".html" = false ->
    ~ In p (map path (fst (checkExposedFiles site completion_order packages))).
Proof.
  intros site order packages rootContent p Hroot Hne Hbody Hhtml Hin.
  apply in_map_iff in Hin as (f & Hf & Hin).
  assert (HF : Forall (fun f => path f <> p)
                 (fst (checkExposedFiles site order packages))).
  { unfold checkExposedFiles. rewrite Hroot.
    apply (checkExposedFiles_paths site rootContent (fun q => q <> p)); [|constructor].
    intros q pk pk' found Hc.
    destruct (checkFile_found _ _ _ _ _ _ Hc) as (getRes & Hget & Hv).
    rewrite (validate_path _ _ _ _ Hv). intros ->.
    unfold validate in Hv.
    rewrite (soft404_holds _ _ Hne (Hbody _ Hget)), Hhtml in Hv. discriminate. }
  exact (proj1 (List.Forall_forall _ _) HF f Hin Hf).
Qed.

Lemma soft404_never_exposed_witness :
  ~ In "/.npmrc"
       (map path (fst (checkExposedFiles spa_site CONFIG.CONFIG_FILES ∅))).
Proof.
  apply (soft404_never_exposed spa_site CONFIG.CONFIG_FILES ∅ spa_shell "/.npmrc").
  - reflexivity.
  - discriminate.
  - intros getRes [= <-]. left. reflexivity.
  - reflexivity.
Defined.

(** C3, as stated, fails: with an empty baseline the body that holds the
    doctype is reported for [/.npmrc]. *)
Lemma soft404_empty_baseline_exposed :
  (forall getRes, GET spa_site_no_baseline "/.npmrc" = Normal getRes ->
     includes (res_text getRes) "<!DOCTYPE html>" = true)
  /\ endsWith "/.npmrc" ".html" = false
  /\ In "/.npmrc"
        (map path (fst (checkExposedFiles spa_site_no_baseline CONFIG.CONFIG_FILES ∅))).
Proof.
  split; [intros getRes [= <-]; reflexivity|].
  split; [reflexivity|].
  vm_compute. tauto.
Qed.

(** ** C6: the rate limiter *)

(** Comparisons computed as booleans, turned into propositions for [lia]. *)
Ltac bool_to_Z :=
  repeat match goal with
  | H : (_ && _) = true |- _ => apply andb_true_iff in H; destruct H
  | H : (_ <? _) = true |- _ => apply Z.ltb_lt in H
  | H : (_ <? _) = false |- _ => apply Z.ltb_ge in H
  | H : (_ <=? _) = true |- _ => apply Z.leb_le in H
  | H : (_ <=? _) = false |- _ => apply Z.leb_gt in H
  | H : (_ >=? _) = _ |- _ => rewrite Z.geb_leb in H
  | |- (_ <? _) = true => apply Z.ltb_lt
  | |- (_ <? _) = false => apply Z.ltb_ge
  | |- (_ <=? _) = true => apply Z.leb_le
  | |- (_ <=? _) = false => apply Z.leb_gt
  end.

Module RateLimiterFacts.

Import RateLimiter.

Section Window.

Variables maxRequests timeWindow : Z.

#[local] Abbreviation fresh := (RateLimiter.fresh timeWindow).

Lemma attempt_params (now : Z) (rl : t) :
  RateLimiter.maxRequests (fst (attempt now rl)) = RateLimiter.maxRequests rl
  /\ RateLimiter.timeWindow (fst (attempt now rl)) = RateLimiter.timeWindow rl.
Proof. unfold attempt. now destruct (_ >=? _). Qed.

Lemma filter_length_le {A} (f : A -> bool) (l : list A) :
  (length (List.filter f l) <= length l)%nat.
Proof. induction l as [|a l IH]; simpl; [lia|]. destruct (f a); simpl; lia. Qed.

Lemma filter_length_impl {A} (f g : A -> bool) (l : list A) :
  (forall a, f a = true -> g a = true) ->
  (length (List.filter f l) <= length (List.filter g l))%nat.
Proof.
  intros Himp. induction l as [|a l IH]; simpl; [lia|].
  destruct (f a) eqn:Hf.
  - rewrite (Himp a Hf). simpl. lia.
  - destruct (g a); simpl; lia.
Qed.

Lemma fresh_later (T now : Z) (l : list Z) :
  T <= now -> List.filter (fresh now) (List.filter (fresh T) l) = List.filter (fresh now) l.
Proof.
  intros Hle. unfold fresh. induction l as [|a l IH]; simpl; [reflexivity|].
  destruct (T - a <? timeWindow) eqn:H1; destruct (now - a <? timeWindow) eqn:H2; simpl;
    rewrite ?H2, ?IH; try reflexivity.
  bool_to_Z. lia.
Qed.

(** The limiter never holds more time stamps than it may grant. *)
Lemma attempt_length (now : Z) (rl : t) :
  RateLimiter.maxRequests rl = maxRequests ->
  Z.of_nat (length (requests rl)) <= maxRequests ->
  Z.of_nat (length (requests (fst (attempt now rl)))) <= maxRequests.
Proof.
  intros Hmax Hlen. unfold attempt.
  pose proof (filter_length_le (RateLimiter.fresh (RateLimiter.timeWindow rl) now)
                (requests rl)) as Hf.
  destruct (_ >=? _) eqn:Hfull; simpl.
  - lia.
  - rewrite length_app. simpl. bool_to_Z. lia.
Qed.

Lemma run_length (times : list Z) :
  forall rl,
    RateLimiter.maxRequests rl = maxRequests ->
    Z.of_nat (length (requests rl)) <= maxRequests ->
    RateLimiter.maxRequests (fst (run times rl)) = maxRequests
    /\ RateLimiter.timeWindow (fst (run times rl)) = RateLimiter.timeWindow rl
    /\ Z.of_nat (length (requests (fst (run times rl)))) <= maxRequests.
Proof.
  induction times as [|now later IH]; intros rl Hmax Hlen; simpl; [auto|].
  pose proof (attempt_params now rl) as [Hm Hw].
  pose proof (attempt_length now rl Hmax Hlen) as Hl.
  destruct (attempt now rl) as [rl1 o]. simpl in *.
  specialize (IH rl1). destruct (run later rl1) as [rl2 adm]. simpl in *.
  rewrite <- Hw. apply IH; congruence.
Qed.

(** The window bound, from any state that holds the admissions of the
    past that are still fresh. *)
Lemma run_window (times : list Z) :
  forall (rl : t) (T : Z) (past : list Z),
    RateLimiter.maxRequests rl = maxRequests ->
    RateLimiter.timeWindow rl = timeWindow ->
    0 < timeWindow ->
    requests rl = List.filter (fresh T) past ->
    StronglySorted Z.le (T :: times) ->
    (forall t, Z.of_nat (length (in_window t timeWindow past)) <= maxRequests) ->
    forall t,
      Z.of_nat (length (in_window t timeWindow (past ++ snd (run times rl)))) <= maxRequests.
Proof.
  induction times as [|now later IH]; intros rl T past Hmax Hwin Hpos Hreq Hsorted Hpast t.
  - simpl. rewrite app_nil_r. apply Hpast.
  - simpl.
    assert (HT : T <= now).
    { inversion Hsorted as [|? ? _ Hall]; subst. now inversion Hall. }
    assert (Hsorted' : StronglySorted Z.le (now :: later)).
    { now inversion Hsorted. }
    pose proof (IH (fst (attempt now rl)) now) as IH'.
    unfold attempt in *. rewrite Hmax, Hwin in *.
    fold (fresh now) in *. rewrite Hreq, (fresh_later T now past HT) in *.
    destruct (_ >=? _) eqn:Hfull; simpl in IH'.
    + specialize (IH' past eq_refl eq_refl Hpos eq_refl Hsorted' Hpast t).
      destruct (run later _) as [rl2 adm]. exact IH'.
    + assert (Hpast' : forall t, Z.of_nat (length (in_window t timeWindow (past ++ [now])))
                                 <= maxRequests).
      { intros t'. unfold in_window. rewrite List.filter_app, length_app. simpl.
        destruct ((t' <=? now) && (now <? t' + timeWindow)) eqn:Hin; simpl.
        - pose proof (filter_length_impl
                        (fun a => (t' <=? a) && (a <? t' + timeWindow)) (fresh now) past) as Hle.
          assert (Himp : forall a, (t' <=? a) && (a <? t' + timeWindow) = true
                                   -> fresh now a = true).
          { intros a Ha. unfold fresh. bool_to_Z. lia. }
          specialize (Hle Himp). bool_to_Z. lia.
        - specialize (Hpast t'). unfold in_window in Hpast. lia. }
      assert (Hreq' : (List.filter (fresh now) past ++ [now]
                       = List.filter (fresh now) (past ++ [now]))%list).
      { rewrite List.filter_app. cbn [List.filter].
        replace (fresh now now) with true; [reflexivity|].
        unfold fresh. symmetry. bool_to_Z. lia. }
      specialize (IH' (past ++ [now])%list eq_refl eq_refl Hpos Hreq' Hsorted' Hpast' t).
      destruct (run later _) as [rl2 adm]. simpl in *.
      now rewrite <- app_assoc in IH'.
Qed.

(** A caller left alone gets its slot after one suspension at most. *)
Lemma waitForSlot_grants (late : nat -> Z) (now : Z) (rl : t) :
  RateLimiter.maxRequests rl = maxRequests ->
  0 < maxRequests ->
  Z.of_nat (length (requests rl)) <= maxRequests ->
  exists rl' grantedAt,
    waitForSlot 2 late now rl = Some (rl', grantedAt)
    /\ now <= grantedAt
    /\ In grantedAt (requests rl').
Proof.
  intros Hmax Hpos Hlen. cbn [waitForSlot].
  unfold attempt at 1. rewrite Hmax.
  set (W := RateLimiter.timeWindow rl).
  set (kept := List.filter (RateLimiter.fresh W now) (requests rl)).
  pose proof (filter_length_le (RateLimiter.fresh W now) (requests rl)) as Hkept.
  fold kept in Hkept.
  destruct (_ >=? _) eqn:Hfull.
  - destruct kept as [|oldest rest] eqn:Hk; [simpl in Hfull; bool_to_Z; lia|].
    set (now' := now + Z.max 0 (W - (now - oldest) + 100) + Z.max 0 (late 0%nat)).
    unfold attempt. cbn [requests RateLimiter.maxRequests RateLimiter.timeWindow].
    fold W.
    assert (Hfresh : oldest + W > now).
    { assert (Hin : In oldest kept) by (rewrite Hk; now left).
      apply filter_In in Hin as [_ Hin]. unfold RateLimiter.fresh in Hin.
      bool_to_Z. lia. }
    assert (Hgone : RateLimiter.fresh W now' oldest = false)
      by (unfold RateLimiter.fresh; subst now'; bool_to_Z; lia).
    cbn [List.filter]. rewrite Hgone.
    pose proof (filter_length_le (RateLimiter.fresh W now') rest) as Hrest.
    simpl in Hfull, Hkept.
    destruct (Z.of_nat (length (List.filter (RateLimiter.fresh W now') rest))
              >=? maxRequests) eqn:Hfull'; [bool_to_Z; lia|].
    do 2 eexists. split; [reflexivity|]. split; [subst now'; lia|].
    cbn [requests]. apply in_or_app. right. now left.
  - do 2 eexists. split; [reflexivity|]. split; [lia|].
    cbn [requests]. apply in_or_app. right. now left.
Qed.

End Window.

End RateLimiterFacts.

Module SlotFacts.
Import RateLimiter.
Import RateLimiterFacts.

(** The attempts of [a], then those of [b]. *)
Lemma run_app (a b : list Z) :
  forall rl,
    run (a ++ b)%list rl
    = (fst (run b (fst (run a rl))), (snd (run a rl) ++ snd (run b (fst (run a rl))))%list).
Proof.
  induction a as [|now later IH]; intros rl.
  - cbn. now destruct (run b rl).
  - cbn [app run]. destruct (attempt now rl) as [rl1 o].
    rewrite IH. destruct (run later rl1) as [rl2 adm]. cbn [fst snd].
    now destruct o.
Qed.

(** The time stamps the limiter holds and the admissions it granted have
    the same fresh part, at any time from the last attempt on. *)
Lemma run_fresh (W : Z) (times : list Z) :
  forall (rl : t) (T : Z) (past : list Z),
    timeWindow rl = W ->
    StronglySorted Z.le (T :: times) ->
    (forall n, T <= n ->
       List.filter (RateLimiter.fresh W n) (requests rl)
       = List.filter (RateLimiter.fresh W n) past) ->
    forall n, Forall (fun x => x <= n) (T :: times) ->
      List.filter (RateLimiter.fresh W n) (requests (fst (run times rl)))
      = List.filter (RateLimiter.fresh W n) (past ++ snd (run times rl))%list.
Proof.
  induction times as [|now later IH]; intros rl T past HW Hsorted Hinv n Hn.
  - cbn. rewrite app_nil_r. apply Hinv. now inversion Hn.
  - assert (HT : T <= now).
    { inversion Hsorted as [|? ? _ Hall]; subst. now inversion Hall. }
    assert (Hsorted' : StronglySorted Z.le (now :: later)) by now inversion Hsorted.
    assert (Hn' : Forall (fun x => x <= n) (now :: later)) by now inversion Hn.
    cbn [run].
    pose proof (IH (fst (attempt now rl)) now) as IH'.
    pose proof (attempt_params now rl) as [_ Hw].
    unfold attempt in *. rewrite HW in *.
    destruct (_ >=? _); cbn [fst snd requests] in *.
    + specialize (IH' past Hw Hsorted').
      destruct (run later _) as [rl2 adm]. cbn [fst snd] in *.
      apply IH'; [|exact Hn'].
      intros m Hm. rewrite (fresh_later W now m _ Hm). apply Hinv. lia.
    + specialize (IH' (past ++ [now])%list Hw Hsorted').
      destruct (run later _) as [rl2 adm]. cbn [fst snd] in *.
      rewrite <- app_assoc in IH'. apply IH'; [|exact Hn'].
      intros m Hm. rewrite !List.filter_app, (fresh_later W now m _ Hm).
      f_equal. apply Hinv. lia.
Qed.


(** The window bound for the admissions of a new limiter. *)
Lemma run_new_window (M W : Z) (times : list Z) :
  0 < M ->
  Sorted Z.le times ->
  forall t,
    Z.of_nat (length (in_window t W (snd (run times (RateLimiter.new M W))))) <= M.
Proof.
  intros Hpos Hsorted t.
  destruct (Z_lt_le_dec 0 W) as [HW|HW].
  - destruct times as [|now later].
    + simpl. lia.
    + apply (run_window M W (now :: later) (RateLimiter.new M W) now []);
        try reflexivity; auto.
      * apply Sorted_StronglySorted in Hsorted; [|intros x y z; lia].
        constructor; [exact Hsorted|].
        constructor; [lia|]. now inversion Hsorted.
      * intros t'. simpl. lia.
  - unfold in_window.
    replace (List.filter _ (snd (run times (RateLimiter.new M W)))) with (@nil Z);
      [simpl; lia|].
    symmetry.
    induction (snd (run times (RateLimiter.new M W))) as [|a l IH]; simpl; [reflexivity|].
    replace ((t <=? a) && (a <? t + W)) with false; [exact IH|].
    symmetry. apply andb_false_iff.
    destruct (Z_lt_le_dec a t); [left | right]; bool_to_Z; lia.
Qed.

(** The fresh part of what a limiter that started empty holds is the
    fresh part of its admissions. *)
Lemma run_new_fresh (M W : Z) (times : list Z) (n : Z) :
  Sorted Z.le (times ++ [n]) ->
  List.filter (RateLimiter.fresh W n) (requests (fst (run times (RateLimiter.new M W))))
  = List.filter (RateLimiter.fresh W n) (snd (run times (RateLimiter.new M W))).
Proof.
  intros Hsorted.
  apply Sorted_StronglySorted in Hsorted; [|intros x y z; lia].
  destruct times as [|now later]; [reflexivity|].
  assert (Hall : Forall (fun x => x <= n) (now :: later)).
  { clear -Hsorted. revert Hsorted. generalize (now :: later). intros l.
    induction l as [|a l IH]; intros Hs; [constructor|].
    cbn [app] in Hs. inversion Hs as [|? ? Hs' Ha]; subst.
    constructor; [|now apply IH].
    apply (proj1 (List.Forall_forall _ _) Ha). apply in_or_app. right. now left. }
  assert (Hs : StronglySorted Z.le (now :: later)).
  { clear -Hsorted. revert Hsorted. generalize (now :: later). intros l.
    induction l as [|a l IH]; intros Hs; [constructor|].
    cbn [app] in Hs. inversion Hs as [|? ? Hs' Ha]; subst.
    constructor; [now apply IH|].
    apply List.Forall_forall. intros x Hx.
    apply (proj1 (List.Forall_forall _ _) Ha). apply in_or_app. now left. }
  apply (run_fresh W (now :: later) (RateLimiter.new M W) now []);
    [reflexivity | | reflexivity | ].
  - constructor; [exact Hs|]. constructor; [lia|]. now inversion Hs.
  - constructor; [|exact Hall]. now inversion Hall.
Qed.

(** How [waitForSlot] ends for a caller left alone, with fuel for two
    attempts or more: at once when fewer than [maxRequests] time stamps are
    fresh, and otherwise at its second attempt, when the oldest fresh time
    stamp has left the window. *)
Lemma waitForSlot_two_attempts (fuel : nat) (late : nat -> Z) (now : Z) (rl : t) :
  0 < maxRequests rl ->
  Z.of_nat (length (requests rl)) <= maxRequests rl ->
  let recent := List.filter (RateLimiter.fresh (timeWindow rl) now) (requests rl) in
  (exists rl1,
     Z.of_nat (length recent) < maxRequests rl
     /\ attempt now rl = (rl1, Granted)
     /\ waitForSlot (S (S fuel)) late now rl = Some (rl1, now))
  \/ (exists oldest rest rl1 rl2 grantedAt,
        recent = oldest :: rest
        /\ maxRequests rl <= Z.of_nat (length recent)
        /\ now - oldest < timeWindow rl
        /\ grantedAt = oldest + timeWindow rl + 100 + Z.max 0 (late O)
        /\ attempt now rl = (rl1, Retry (Some (timeWindow rl - (now - oldest) + 100)))
        /\ attempt grantedAt rl1 = (rl2, Granted)
        /\ waitForSlot (S (S fuel)) late now rl = Some (rl2, grantedAt)).
Proof.
  intros Hpos Hlen. cbv zeta.
  set (W := timeWindow rl). set (M := maxRequests rl) in *.
  set (kept := List.filter (RateLimiter.fresh W now) (requests rl)).
  pose proof (filter_length_le (RateLimiter.fresh W now) (requests rl)) as Hkept.
  fold kept in Hkept.
  cbn [waitForSlot].
  destruct (attempt now rl) as [rl1 o] eqn:Ha.
  unfold attempt in Ha. fold W M kept in Ha.
  destruct (Z.of_nat (length kept) >=? M) eqn:Hfull; injection Ha as <- <-.
  - right. destruct kept as [|oldest rest] eqn:Hk; [simpl in Hfull; bool_to_Z; lia|].
    assert (Hfresh : now - oldest < W).
    { assert (Hin : In oldest kept) by (rewrite Hk; now left).
      apply filter_In in Hin as [_ Hin]. unfold RateLimiter.fresh in Hin.
      now bool_to_Z. }
    replace (now + Z.max 0 (W - (now - oldest) + 100) + Z.max 0 (late 0%nat))
      with (oldest + W + 100 + Z.max 0 (late O)) by lia.
    set (now' := oldest + W + 100 + Z.max 0 (late O)).
    match goal with |- context [attempt now' ?r] =>
      destruct (attempt now' r) as [rl2 o2] eqn:Ha2 end.
    pose proof Ha2 as Ha2'.
    unfold attempt in Ha2. cbn [requests maxRequests timeWindow] in Ha2.
    assert (Hgone : RateLimiter.fresh W now' oldest = false)
      by (unfold RateLimiter.fresh; subst now'; bool_to_Z; lia).
    cbn [List.filter] in Ha2. rewrite Hgone in Ha2.
    pose proof (filter_length_le (RateLimiter.fresh W now') rest) as Hrest.
    cbn [length] in Hfull, Hkept.
    destruct (Z.of_nat (length (List.filter (RateLimiter.fresh W now') rest)) >=? M)
      eqn:Hfull'; [bool_to_Z; lia|].
    injection Ha2 as <- <-.
    exists oldest, rest. eexists. eexists. exists now'.
    refine (conj eq_refl (conj _ (conj Hfresh (conj eq_refl (conj eq_refl _))))).
    + cbn [length]. bool_to_Z. lia.
    + split; [|reflexivity]. exact Ha2'.
  - left. eexists. refine (conj _ (conj eq_refl eq_refl)). bool_to_Z. lia.
Qed.

(** The clock may move on after the last attempt. *)
Lemma sorted_snoc (l : list Z) (a b : Z) :
  Sorted Z.le (l ++ [a]) -> a <= b -> Sorted Z.le (l ++ [a; b]).
Proof.
  intros Hs Hab. induction l as [|x l IH]; cbn [app] in *.
  - repeat constructor. exact Hab.
  - inversion Hs as [|? ? Hs' Hx]; subst. constructor; [now apply IH|].
    destruct l as [|y l]; cbn [app] in *; inversion Hx; subst; now constructor.
Qed.

(** A granted attempt records its time. *)
Lemma attempt_granted (now : Z) (rl rl1 : t) :
  attempt now rl = (rl1, Granted) -> In now (requests rl1).
Proof.
  unfold attempt. destruct (_ >=? _); [discriminate|].
  intros [= <-]. cbn [requests]. apply in_or_app. right. now left.
Qed.

End SlotFacts.

(** C6.  Whatever the number of callers and the order of their attempts,
    as long as the clock does not run backwards: an interval that starts at
    any time [t] and ends before [t + timeWindow] holds at most
    [maxRequests] admissions.  And an excess caller is delayed, never
    rejected: a caller that arrives afterwards and is left alone, with a
    window whose delays [setTimeout] can hold, gets its slot: at once when
    fewer than [maxRequests] admissions are still in the window, and
    otherwise 100 ms, and the lateness of the timer, after the oldest of
    them has left the window, which is more than [timeWindow] minus the
    time elapsed since that admission; with its admission added, the bound
    on every interval still holds. *)
Theorem rate_limiter_window_bound :
  forall (maxRequests timeWindow : Z) (times : list Z),
    0 < maxRequests ->
    Sorted Z.le times ->
    let rl := fst (RateLimiter.run times (RateLimiter.new maxRequests timeWindow)) in
    let admissions := snd (RateLimiter.run times (RateLimiter.new maxRequests timeWindow)) in
    (forall t,
        Z.of_nat (length (RateLimiter.in_window t timeWindow admissions)) <= maxRequests)
    /\ (forall (fuel : nat) (late : nat -> Z) (now : Z),
          Sorted Z.le (times ++ [now]) ->
          timeWindow + 100 < 2147483648 ->
          let recent := List.filter (RateLimiter.fresh timeWindow now) admissions in
          exists rl' grantedAt,
            RateLimiter.waitForSlot (S (S fuel)) late now rl = Some (rl', grantedAt)
            /\ now <= grantedAt
            /\ In grantedAt (RateLimiter.requests rl')
            /\ (forall t,
                  Z.of_nat (length (RateLimiter.in_window t timeWindow
                                      (admissions ++ [grantedAt]))) <= maxRequests)
            /\ (Z.of_nat (length recent) < maxRequests -> grantedAt = now)
            /\ (maxRequests <= Z.of_nat (length recent) ->
                exists oldest rest,
                  recent = oldest :: rest
                  /\ now - oldest < timeWindow
                  /\ timeWindow - (now - oldest) + 100 <= grantedAt - now
                  /\ grantedAt = oldest + timeWindow + 100 + Z.max 0 (late O))).
Proof.
  intros maxRequests timeWindow times Hpos Hsorted rl admissions. split.
  - intros t. now apply SlotFacts.run_new_window.
  - intros fuel late now Hnow _ recent.
    destruct (RateLimiterFacts.run_length maxRequests times
                (RateLimiter.new maxRequests timeWindow)) as (Hm & Hw & Hl);
      [reflexivity | simpl; lia |].
    fold rl in Hm, Hw, Hl. cbn [RateLimiter.timeWindow RateLimiter.new] in Hw.
    assert (Hrecent : List.filter (RateLimiter.fresh (RateLimiter.timeWindow rl) now)
                        (RateLimiter.requests rl) = recent).
    { rewrite Hw. now apply SlotFacts.run_new_fresh. }
    destruct (SlotFacts.waitForSlot_two_attempts fuel late now rl) as
      [(rl1 & Hfew & Ha & Hwait)
      | (oldest & rest & rl1 & rl2 & grantedAt & Hr & Hfull & Hfresh & Hg & Ha1 & Ha2 & Hwait)];
      [rewrite Hm; exact Hpos | rewrite Hm; exact Hl | |].
    + rewrite Hrecent, Hm in Hfew.
      exists rl1, now. refine (conj Hwait (conj _ (conj _ (conj _ (conj _ _))))).
      * lia.
      * exact (SlotFacts.attempt_granted _ _ _ Ha).
      * intros t.
        pose proof (SlotFacts.run_new_window maxRequests timeWindow (times ++ [now])
                      Hpos Hnow t) as Hb.
        rewrite SlotFacts.run_app in Hb. cbn [snd fst RateLimiter.run] in Hb.
        fold rl admissions in Hb. rewrite Ha in Hb. exact Hb.
      * reflexivity.
      * lia.
    + rewrite Hrecent in Hr. rewrite Hrecent, Hm in Hfull. rewrite Hw in Hfresh, Hg.
      exists rl2, grantedAt. refine (conj Hwait (conj _ (conj _ (conj _ (conj _ _))))).
      * lia.
      * exact (SlotFacts.attempt_granted _ _ _ Ha2).
      * intros t.
        assert (Hs2 : Sorted Z.le (times ++ [now; grantedAt]))
          by (apply SlotFacts.sorted_snoc; [exact Hnow | lia]).
        pose proof (SlotFacts.run_new_window maxRequests timeWindow (times ++ [now; grantedAt])
                      Hpos Hs2 t) as Hb.
        rewrite SlotFacts.run_app in Hb. cbn [snd fst RateLimiter.run] in Hb.
        fold rl admissions in Hb. rewrite Ha1, Ha2 in Hb. exact Hb.
      * lia.
      * intros _. exists oldest, rest. repeat split; try assumption. lia.
Qed.

Lemma rate_limiter_window_bound_witness :
  snd (RateLimiter.run [0; 10; 20; 1010; 1015] (RateLimiter.new 2 1000))
  = [0; 10; 1010; 1015]
  /\ exists rl' grantedAt,
       RateLimiter.waitForSlot 2 (fun _ => 0) 1020
         (fst (RateLimiter.run [0; 10; 20; 1010; 1015] (RateLimiter.new 2 1000)))
       = Some (rl', grantedAt)
       /\ 2110 <= grantedAt
       /\ forall t,
            Z.of_nat (length (RateLimiter.in_window t 1000
                                ([0; 10; 1010; 1015] ++ [grantedAt]))) <= 2.
Proof.
  split; [reflexivity|].
  assert (Hsorted : Sorted Z.le [0; 10; 20; 1010; 1015]).
  { repeat (constructor; try (intros H; discriminate H)). }
  assert (Hnow : Sorted Z.le ([0; 10; 20; 1010; 1015] ++ [1020])).
  { repeat (constructor; try (intros H; discriminate H)). }
  destruct (proj2 (rate_limiter_window_bound 2 1000 [0; 10; 20; 1010; 1015]
                     eq_refl Hsorted) O (fun _ => 0) 1020 Hnow eq_refl)
    as (rl' & grantedAt & Hwait & _ & _ & Hbound & _ & Hdelay).
  exists rl', grantedAt. split; [exact Hwait|]. split; [|exact Hbound].
  destruct Hdelay as (oldest & rest & Hr & _ & _ & ->); [vm_compute; discriminate|].
  injection Hr as <- _. vm_compute. discriminate.
Defined.

(** ** C5 and C8: clean names *)

Module NameFacts.


Ltac by_cases c := destruct c as [[] [] [] [] [] [] [] []]; vm_compute; intuition congruence.

Lemma name_start_char c : name_start c = true -> name_char c = true.
Proof. by_cases c. Qed.

Lemma name_char_ref c : name_char c = true -> ref_char c = true.
Proof. by_cases c. Qed.

Lemma name_start_not c : name_start c = true -> c <> "."%char /\ c <> "@"%char.
Proof. by_cases c. Qed.

Lemma name_char_not c :
  name_char c = true -> c <> "/"%char /\ c <> "@"%char.
Proof. by_cases c. Qed.

Lemma ref_char_plain c :
  ref_char c = true ->
  is_space c = false /\ is_line_terminator c = false /\ lower_char c = c
  /\ c <> "#"%char /\ c <> "?"%char /\ c <> ":"%char /\ c <> "\"%char
  /\ WHATWG.c0_or_space c = false /\ WHATWG.tab_or_newline c = false.
Proof. by_cases c. Qed.

(** *** Strings whose code units all satisfy a predicate *)

Lemma all_chars_cons P c r : all_chars P (String c r) = P c && all_chars P r.
Proof. reflexivity. Qed.

Lemma append_cons c a b : String c a ++ b = String c (a ++ b).
Proof. reflexivity. Qed.

Lemma all_chars_app P a b :
  all_chars P (a ++ b) = all_chars P a && all_chars P b.
Proof.
  induction a as [|c a IH]; [reflexivity|].
  rewrite append_cons, !all_chars_cons, IH. now rewrite andb_assoc.
Qed.

Lemma all_chars_impl (P Q : ascii -> bool) s :
  (forall c, P c = true -> Q c = true) ->
  all_chars P s = true -> all_chars Q s = true.
Proof.
  intros Himp. induction s as [|c s IH]; [reflexivity|].
  rewrite !all_chars_cons, !andb_true_iff. intros [Hc Hs]. auto.
Qed.

Lemma prefix_chars P p s :
  String.prefix p s = true -> all_chars P s = true -> all_chars P p = true.
Proof.
  revert s. induction p as [|a p IH]; intros [|b s]; cbn [String.prefix]; try easy.
  destruct (Ascii.ascii_dec a b) as [->|]; [|discriminate].
  rewrite !all_chars_cons, !andb_true_iff. intros Hp [Hb Hs]. eauto.
Qed.

Lemma includes_chars P p s :
  includes s p = true -> all_chars P s = true -> all_chars P p = true.
Proof.
  induction s as [|c s IH]; cbn [includes].
  - rewrite orb_false_r. intros H _. destruct p; [reflexivity | discriminate].
  - rewrite orb_true_iff, all_chars_cons, andb_true_iff. intros [H|H] [Hc Hs].
    + apply (prefix_chars P p (String c s)); [exact H|].
      now rewrite all_chars_cons, Hc, Hs.
    + auto.
Qed.

Lemma strip_prefix_chars P p s r :
  strip_prefix p s = Some r -> all_chars P s = true -> all_chars P p = true.
Proof.
  revert s. induction p as [|a p IH]; intros [|b s]; cbn [strip_prefix]; try easy.
  destruct (Ascii.eqb_spec a b) as [->|]; [|discriminate].
  rewrite !all_chars_cons, !andb_true_iff. intros Hp [Hb Hs]. eauto.
Qed.

Lemma drop_start_id p s :
  all_chars (fun c => negb (p c)) s = true -> drop_start p s = s.
Proof.
  destruct s as [|c s]; [reflexivity|].
  rewrite all_chars_cons, andb_true_iff, negb_true_iff. intros [Hc _].
  simpl. now rewrite Hc.
Qed.

Lemma drop_end_id p s :
  all_chars (fun c => negb (p c)) s = true -> drop_end p s = s.
Proof.
  induction s as [|c s IH]; [reflexivity|].
  rewrite all_chars_cons, andb_true_iff, negb_true_iff. intros [Hc Hs].
  simpl. rewrite (IH Hs), Hc. now destruct s.
Qed.

Lemma before_id sep s :
  all_chars (fun c => negb (Ascii.eqb c sep)) s = true -> before sep s = s.
Proof.
  induction s as [|c s IH]; [reflexivity|].
  rewrite all_chars_cons, andb_true_iff, negb_true_iff. intros [Hc Hs].
  simpl. now rewrite Hc, IH.
Qed.

Lemma after_none sep s :
  all_chars (fun c => negb (Ascii.eqb c sep)) s = true -> after sep s = None.
Proof.
  induction s as [|c s IH]; [reflexivity|].
  rewrite all_chars_cons, andb_true_iff, negb_true_iff. intros [Hc Hs].
  simpl. now rewrite Hc, IH.
Qed.

Lemma split_id sep s :
  all_chars (fun c => negb (Ascii.eqb c sep)) s = true -> split sep s = [s].
Proof.
  induction s as [|c s IH]; [reflexivity|].
  rewrite all_chars_cons, andb_true_iff, negb_true_iff. intros [Hc Hs].
  simpl. now rewrite Hc, IH.
Qed.

Lemma toLowerCase_id s :
  all_chars (fun c => Ascii.eqb (lower_char c) c) s = true -> toLowerCase s = s.
Proof.
  induction s as [|c s IH]; [reflexivity|].
  rewrite all_chars_cons, andb_true_iff. intros [Hc Hs].
  simpl. apply Ascii.eqb_eq in Hc. now rewrite Hc, IH.
Qed.

Lemma before_app sep a b :
  all_chars (fun c => negb (Ascii.eqb c sep)) a = true ->
  before sep (a ++ String sep b) = a.
Proof.
  induction a as [|c a IH].
  - intros _. change (EmptyString ++ String sep b) with (String sep b).
    simpl. now rewrite Ascii.eqb_refl.
  - rewrite all_chars_cons, andb_true_iff, negb_true_iff. intros [Hc Ha].
    rewrite append_cons. simpl. now rewrite Hc, IH.
Qed.

Lemma after_app sep a b :
  all_chars (fun c => negb (Ascii.eqb c sep)) a = true ->
  after sep (a ++ String sep b) = Some b.
Proof.
  induction a as [|c a IH].
  - intros _. change (EmptyString ++ String sep b) with (String sep b).
    simpl. now rewrite Ascii.eqb_refl.
  - rewrite all_chars_cons, andb_true_iff, negb_true_iff. intros [Hc Ha].
    rewrite append_cons. simpl. now rewrite Hc, IH.
Qed.

Lemma split_app sep a b :
  all_chars (fun c => negb (Ascii.eqb c sep)) a = true ->
  split sep (a ++ String sep b) = a :: split sep b.
Proof.
  induction a as [|c a IH].
  - intros _. change (EmptyString ++ String sep b) with (String sep b).
    simpl. now rewrite Ascii.eqb_refl.
  - rewrite all_chars_cons, andb_true_iff, negb_true_iff. intros [Hc Ha].
    rewrite append_cons. simpl. now rewrite Hc, IH.
Qed.

Lemma after_before sep s name :
  after sep s = Some name -> s = before sep s ++ String sep name.
Proof.
  induction s as [|c s IH]; simpl; [discriminate|].
  destruct (Ascii.eqb_spec c sep) as [->|_].
  - now intros [= ->].
  - intros H. rewrite append_cons. now rewrite <- IH.
Qed.


Lemma prefix_outside P p s :
  all_chars P s = true -> all_chars P p = false -> String.prefix p s = false.
Proof.
  intros Hs Hp. destruct (String.prefix p s) eqn:E; [|reflexivity].
  now rewrite (prefix_chars P p s E Hs) in Hp.
Qed.

Lemma includes_outside P p s :
  all_chars P s = true -> all_chars P p = false -> includes s p = false.
Proof.
  intros Hs Hp. destruct (includes s p) eqn:E; [|reflexivity].
  now rewrite (includes_chars P p s E Hs) in Hp.
Qed.

Lemma strip_prefix_outside P p s :
  all_chars P s = true -> all_chars P p = false -> strip_prefix p s = None.
Proof.
  intros Hs Hp. destruct (strip_prefix p s) eqn:E; [|reflexivity].
  now rewrite (strip_prefix_chars P p s _ E Hs) in Hp.
Qed.

Lemma startsWith_other c a p r :
  c <> a -> startsWith (String c r) (String a p) = false.
Proof.
  intros Hne. unfold startsWith. simpl.
  destruct (Ascii.ascii_dec a c); [congruence | reflexivity].
Qed.

Lemma prefix_same a p s :
  String.prefix (String a p) (String a s) = String.prefix p s.
Proof. simpl. destruct (Ascii.ascii_dec a a); [reflexivity | congruence]. Qed.

Lemma startsWith_first a s : startsWith (String a s) (String a EmptyString) = true.
Proof. unfold startsWith. rewrite prefix_same. now destruct s. Qed.

Lemma strip_prefix_other c a p r :
  c <> a -> strip_prefix (String a p) (String c r) = None.
Proof.
  intros Hne. simpl. destruct (Ascii.eqb_spec a c); [congruence | reflexivity].
Qed.

Lemma drive_path_outside P s :
  all_chars P s = true -> P ":"%char = false -> drive_path s = false.
Proof.
  intros Hs Hp. destruct s as [|a [|b s]]; try reflexivity.
  destruct (Ascii.eqb_spec b ":") as [->|Hne].
  - rewrite !all_chars_cons in Hs. apply andb_true_iff in Hs as [_ Hs].
    apply andb_true_iff in Hs as [Hb _]. congruence.
  - unfold drive_path.
    destruct b as [[] [] [] [] [] [] [] []]; try reflexivity. now elim Hne.
Qed.

Lemma after_node_modules_none fuel s :
  strip_prefix "node_modules/" s = None -> strip_prefix "../" s = None ->
  after_node_modules fuel s = None.
Proof.
  intros H1 H2. destruct fuel; cbn [after_node_modules]; now rewrite H1, ?H2.
Qed.

(** *** The shape of the names of the grammar *)

Lemma plain_name_inv s :
  plain_name s = true ->
  exists c r, s = String c r /\ name_start c = true /\ all_chars name_char r = true.
Proof.
  destruct s as [|c r]; [discriminate|].
  cbn [plain_name]. rewrite andb_true_iff. intros [Hc Hr]. eauto.
Qed.

Lemma plain_name_chars s : plain_name s = true -> all_chars name_char s = true.
Proof.
  intros H. destruct (plain_name_inv s H) as (c & r & -> & Hc & Hr).
  now rewrite all_chars_cons, (name_start_char c Hc), Hr.
Qed.

Lemma valid_name_unscoped c r :
  c <> "@"%char -> valid_name (String c r) = plain_name (String c r).
Proof.
  intros Hne. destruct c as [[] [] [] [] [] [] [] []]; try reflexivity. now elim Hne.
Qed.

Lemma valid_name_inv n :
  valid_name n = true ->
  plain_name n = true
  \/ exists scope name, n = String "@" (scope ++ String "/" name)
                        /\ plain_name scope = true /\ plain_name name = true.
Proof.
  destruct n as [|c r]; [discriminate|].
  destruct (Ascii.ascii_dec c "@") as [->|Hne].
  - intros H. right. cbn in H.
    destruct (after "/" r) as [name|] eqn:Ha; [|discriminate].
    apply andb_true_iff in H as [Hs Hn].
    exists (before "/" r), name. split; [|now split].
    f_equal. now apply after_before.
  - rewrite (valid_name_unscoped c r Hne). now left.
Qed.

Lemma no_slash s : all_chars name_char s = true ->
  all_chars (fun c => negb (Ascii.eqb c "/")) s = true.
Proof.
  apply all_chars_impl. intros c Hc. apply negb_true_iff, Ascii.eqb_neq.
  now destruct (name_char_not c Hc).
Qed.

Lemma no_at s : all_chars name_char s = true ->
  all_chars (fun c => negb (Ascii.eqb c "@")) s = true.
Proof.
  apply all_chars_impl. intros c Hc. apply negb_true_iff, Ascii.eqb_neq.
  now destruct (name_char_not c Hc).
Qed.

Lemma valid_name_ref n : valid_name n = true -> all_chars ref_char n = true.
Proof.
  intros H. destruct (valid_name_inv n H) as [Hp|(scope & name & -> & Hs & Hn)].
  - eapply all_chars_impl; [apply name_char_ref | now apply plain_name_chars].
  - rewrite all_chars_cons, all_chars_app, all_chars_cons.
    rewrite (all_chars_impl _ _ _ name_char_ref (plain_name_chars _ Hs)).
    now rewrite (all_chars_impl _ _ _ name_char_ref (plain_name_chars _ Hn)).
Qed.

(** *** [extract] on a string that needs no cleaning *)

Lemma trim_ref n : all_chars ref_char n = true -> trim n = n.
Proof.
  intros H. unfold trim.
  assert (Hs : all_chars (fun c => negb (is_space c)) n = true).
  { revert H. apply all_chars_impl. intros c Hc.
    now destruct (ref_char_plain c Hc) as (-> & _). }
  now rewrite (drop_start_id _ _ Hs), (drop_end_id _ _ Hs).
Qed.

Lemma stripQueryAndHash_ref n :
  all_chars ref_char n = true -> stripQueryAndHash n = n.
Proof.
  intros H. unfold stripQueryAndHash.
  rewrite (before_id "#" n), (before_id "?" n); [reflexivity| |];
    revert H; apply all_chars_impl; intros c Hc;
    apply negb_true_iff, Ascii.eqb_neq; now destruct (ref_char_plain c Hc) as (_ & _ & _ & ? & ? & _).
Qed.

Lemma toLowerCase_ref n : all_chars ref_char n = true -> toLowerCase n = n.
Proof.
  intros H. apply toLowerCase_id. revert H. apply all_chars_impl. intros c Hc.
  apply Ascii.eqb_eq. now destruct (ref_char_plain c Hc) as (_ & _ & ? & _).
Qed.


Lemma colon_outside : ref_char ":" = false.
Proof. reflexivity. Qed.

(** A plain name other than ["~"] is no alias path. *)
Lemma isAliasPath_plain n :
  plain_name n = true -> n <> "~" -> isAliasPath n = false.
Proof.
  intros Hp Htilde.
  pose proof (plain_name_chars n Hp) as Hall.
  pose proof (all_chars_impl _ _ _ name_char_ref Hall) as Href.
  destruct (plain_name_inv n Hp) as (c & r & -> & Hc & Hr).
  unfold isAliasPath.
  rewrite (trim_ref _ Href), (toLowerCase_ref _ Href).
  change (String.eqb (String c r) EmptyString) with false. cbv iota.
  unfold startsWith.
  rewrite (prefix_outside name_char "/" _ Hall eq_refl).
  rewrite (drive_path_outside ref_char _ Href eq_refl).
  rewrite (prefix_outside ref_char "\\" _ Href eq_refl).
  cbn [existsb CONFIG.INTERNAL_ALIAS_PREFIXES andb orb].
  rewrite (prefix_outside name_char "@/" _ Hall eq_refl).
  rewrite (prefix_outside name_char "~/" _ Hall eq_refl).
  rewrite (prefix_outside name_char "~~/" _ Hall eq_refl).
  rewrite (proj2 (String.eqb_neq _ _) Htilde).
  rewrite (split_id "/" _ (no_slash _ Hall)).
  reflexivity.
Qed.

Lemma split_scoped scope name :
  plain_name scope = true -> plain_name name = true ->
  split "/" (String "@" (scope ++ String "/" name)) = [String "@" scope; name].
Proof.
  intros Hs Hn. rewrite <- append_cons.
  rewrite (split_app "/" (String "@" scope) name)
    by (rewrite all_chars_cons; simpl; auto using no_slash, plain_name_chars).
  now rewrite (split_id "/" name) by auto using no_slash, plain_name_chars.
Qed.

(** A scoped name is no alias path. *)
Lemma isAliasPath_scoped scope name :
  plain_name scope = true -> plain_name name = true ->
  isAliasPath (String "@" (scope ++ String "/" name)) = false.
Proof.
  intros Hs Hn.
  assert (Href : all_chars ref_char (String "@" (scope ++ String "/" name)) = true).
  { apply valid_name_ref. cbn.
    rewrite (after_app "/" scope name), (before_app "/" scope name), Hs, Hn;
      auto using no_slash, plain_name_chars. }
  unfold isAliasPath.
  rewrite (trim_ref _ Href), (toLowerCase_ref _ Href).
  rewrite (drive_path_outside ref_char _ Href eq_refl).
  rewrite (split_scoped scope name Hs Hn).
  set (n := String "@" (scope ++ String "/" name)).
  assert (E0 : String.eqb n EmptyString = false) by reflexivity.
  assert (E1 : startsWith n "/" = false) by reflexivity.
  assert (E2 : startsWith n "\\" = false) by reflexivity.
  assert (E3 : existsb (fun prefix => startsWith n prefix)
                 CONFIG.INTERNAL_ALIAS_PREFIXES = false).
  { assert (E : startsWith n "@/" = false).
    { subst n. destruct (plain_name_inv scope Hs) as (c & r & -> & Hc & Hr).
      rewrite append_cons. unfold startsWith. rewrite prefix_same.
      apply (startsWith_other c "/" EmptyString).
      now destruct (name_char_not c (name_start_char c Hc)). }
    cbn [existsb CONFIG.INTERNAL_ALIAS_PREFIXES]. rewrite E. reflexivity. }
  assert (E4 : String.eqb n "~" = false) by reflexivity.
  assert (E5 : startsWith n "~/" = false) by reflexivity.
  rewrite E0, E1, E2, E3, E4, E5. reflexivity.
Qed.


Lemma dot_plus_plain name : plain_name name = true -> dot_plus name = true.
Proof.
  intros Hn. unfold dot_plus.
  destruct (plain_name_inv name Hn) as (c & r & -> & Hc & Hr).
  change (String.eqb (String c r) EmptyString) with false. cbn [negb andb].
  apply (all_chars_impl ref_char).
  - intros a Ha. now destruct (ref_char_plain a Ha) as (_ & -> & _).
  - eapply all_chars_impl; [apply name_char_ref | now apply plain_name_chars].
Qed.

Lemma normalize_plain n :
  plain_name n = true -> has CONFIG.NODE_BUILTINS n = false ->
  normalizePackageName (VString n) = Normal (VString n).
Proof.
  intros Hp Hb.
  pose proof (plain_name_chars n Hp) as Hall.
  destruct (plain_name_inv n Hp) as (c & r & -> & Hc & Hr).
  assert (Hat : c <> "@"%char) by now destruct (name_start_not c Hc).
  unfold normalizePackageName.
  change (truthy (VString (String c r))) with true. cbn [negb].
  rewrite (startsWith_other c "@" EmptyString r Hat).
  rewrite (includes_outside name_char "@" _ Hall eq_refl).
  now rewrite Hb, (valid_name_unscoped c r Hat), Hp.
Qed.

Lemma normalize_scoped scope name :
  plain_name scope = true -> plain_name name = true ->
  has CONFIG.NODE_BUILTINS (String "@" (scope ++ String "/" name)) = false ->
  normalizePackageName (VString (String "@" (scope ++ String "/" name)))
  = Normal (VString (String "@" (scope ++ String "/" name))).
Proof.
  intros Hs Hn Hb.
  pose proof (no_slash _ (plain_name_chars _ Hs)) as Hslash.
  unfold normalizePackageName.
  change (truthy (VString (String "@" (scope ++ String "/" name)))) with true.
  cbn [negb].
  rewrite startsWith_first.
  assert (Hm : match_scoped (String "@" (scope ++ String "/" name))
               = Some (String "@" scope, name)).
  { cbn [match_scoped].
    rewrite (before_app "/" scope name Hslash), (after_app "/" scope name Hslash).
    destruct (plain_name_inv scope Hs) as (c & r & -> & _).
    now rewrite (dot_plus_plain name Hn). }
  rewrite Hm, (before_id "@" name) by (apply no_at, plain_name_chars, Hn).
  change (String "@" scope ++ "/" ++ name) with (String "@" (scope ++ String "/" name)).
  rewrite Hb. cbn [valid_name].
  now rewrite (before_app "/" scope name Hslash), (after_app "/" scope name Hslash), Hs, Hn.
Qed.

Section Identity.

Variable URL_new : string -> completion URL.
Hypothesis relative : resolves_against_base URL_new.

Lemma extract_cdn_relative n :
  all_chars ref_char n = true -> startsWith n "/" = false ->
  try_catch (extract_cdn URL_new n) = None.
Proof.
  intros Href Hslash.
  destruct (relative n Href Hslash) as (url & Hurl & Hhost).
  unfold extract_cdn. rewrite Hurl. cbn [mbind completion_bind JS.bind].
  rewrite Hhost.
  change (includes "example.com" "unpkg.com") with false.
  change (includes "example.com" "jsdelivr.net") with false.
  change (includes "example.com" "cdnjs.cloudflare.com") with false.
  cbn [orb].
  assert (Hweb : web_url n = false).
  { unfold web_url.
    assert (H2 : startsWith n "//" = false).
    { destruct n as [|c r]; [reflexivity|].
      destruct (Ascii.ascii_dec c "/") as [->|Hc].
      - now rewrite startsWith_first in Hslash.
      - now apply startsWith_other. }
    rewrite H2. unfold startsWith.
    rewrite (prefix_outside ref_char "http://" n Href eq_refl).
    now rewrite (prefix_outside ref_char "https://" n Href eq_refl). }
  now rewrite Hweb.
Qed.

Lemma strip_protocol_ref n : all_chars ref_char n = true -> strip_protocol n = n.
Proof.
  intros Href. unfold strip_protocol.
  rewrite (strip_prefix_outside ref_char "http://" n Href eq_refl).
  rewrite (strip_prefix_outside ref_char "https://" n Href eq_refl).
  rewrite (strip_prefix_outside ref_char "node:" n Href eq_refl).
  now rewrite (strip_prefix_outside ref_char "file:" n Href eq_refl).
Qed.

(** [extract] on a name that passes every cleaning step unchanged. *)
Lemma extract_no_cleaning n :
  all_chars ref_char n = true ->
  n <> EmptyString ->
  startsWith n "/" = false ->
  startsWith n "." = false ->
  isAliasPath n = false ->
  strip_node_modules n = n ->
  extract URL_new (VString n)
  = normalizePackageName
      (if startsWith n "@" then
         match split "/" n with
         | p0 :: p1 :: _ => VString (p0 ++ "/" ++ p1)
         | _ => VNull
         end
       else item (split "/" n) 0).
Proof.
  intros Href Hne Hslash Hdot Halias Hnm.
  unfold extract. cbn [truthy].
  rewrite (proj2 (String.eqb_neq _ _) Hne). cbn [negb].
  rewrite (trim_ref n Href), (proj2 (String.eqb_neq _ _) Hne).
  rewrite (stripQueryAndHash_ref n Href), Halias.
  rewrite (extract_cdn_relative n Href Hslash).
  rewrite (strip_protocol_ref n Href), Hnm, Hdot, Hslash, Halias.
  reflexivity.
Qed.

Lemma extract_valid_name n :
  valid_name n = true ->
  has CONFIG.NODE_BUILTINS n = false ->
  n <> "~" ->
  extract URL_new (VString n) = Normal (VString n).
Proof.
  intros Hv Hb Htilde.
  pose proof (valid_name_ref n Hv) as Href.
  destruct (valid_name_inv n Hv) as [Hp|(scope & name & -> & Hs & Hn)].
  - pose proof (plain_name_chars n Hp) as Hall.
    destruct (plain_name_inv n Hp) as (c & r & Heq & Hc & Hr).
    destruct (name_start_not c Hc) as [Hdot Hat].
    assert (Hslash : c <> "/"%char)
      by now destruct (name_char_not c (name_start_char c Hc)).
    rewrite extract_no_cleaning; auto.
    + subst n. rewrite (startsWith_other c "@" EmptyString r Hat).
      rewrite (split_id "/" _ (no_slash _ Hall)).
      now apply normalize_plain.
    + subst n. discriminate.
    + subst n. now apply startsWith_other.
    + subst n. now apply startsWith_other.
    + now apply isAliasPath_plain.
    + unfold strip_node_modules. rewrite after_node_modules_none; auto.
      * apply (strip_prefix_outside name_char); auto.
      * apply (strip_prefix_outside name_char); auto.
  - rewrite extract_no_cleaning; auto.
    + rewrite startsWith_first, (split_scoped scope name Hs Hn).
      now apply normalize_scoped.
    + now apply isAliasPath_scoped.
Qed.

End Identity.

End NameFacts.

(** ** The reference parser resolves names against the base *)

Lemma remove_id p s :
  all_chars (fun c => negb (p c)) s = true -> WHATWG.remove p s = s.
Proof.
  induction s as [|c s IH]; [reflexivity|].
  rewrite NameFacts.all_chars_cons, andb_true_iff, negb_true_iff. intros [Hc Hs].
  simpl. now rewrite Hc, IH.
Qed.

Lemma scheme_tail_none s :
  all_chars (fun c => negb (Ascii.eqb c ":")) s = true -> WHATWG.scheme_tail s = None.
Proof.
  induction s as [|c s IH]; [reflexivity|].
  rewrite NameFacts.all_chars_cons, andb_true_iff, negb_true_iff. intros [Hc Hs].
  simpl. rewrite Hc, (IH Hs). now destruct (_ || _).
Qed.

Lemma WHATWG_resolves_against_base : resolves_against_base WHATWG.URL_new.
Proof.
  intros s Href Hslash.
  assert (Hc0 : all_chars (fun c => negb (WHATWG.c0_or_space c)) s = true).
  { revert Href. apply NameFacts.all_chars_impl. intros c Hc.
    now destruct (NameFacts.ref_char_plain c Hc) as (_ & _ & _ & _ & _ & _ & _ & -> & _). }
  assert (Htab : all_chars (fun c => negb (WHATWG.tab_or_newline c)) s = true).
  { revert Href. apply NameFacts.all_chars_impl. intros c Hc.
    now destruct (NameFacts.ref_char_plain c Hc) as (_ & _ & _ & _ & _ & _ & _ & _ & ->). }
  assert (Hcolon : all_chars (fun c => negb (Ascii.eqb c ":")) s = true).
  { revert Href. apply NameFacts.all_chars_impl. intros c Hc.
    apply negb_true_iff, Ascii.eqb_neq.
    now destruct (NameFacts.ref_char_plain c Hc) as (_ & _ & _ & _ & _ & ? & _). }
  unfold WHATWG.URL_new.
  rewrite (NameFacts.drop_start_id _ _ Hc0), (NameFacts.drop_end_id _ _ Hc0),
    (remove_id _ _ Htab).
  assert (Hscheme : WHATWG.scheme_of s = None).
  { unfold WHATWG.scheme_of. destruct s as [|c r]; [reflexivity|].
    rewrite (scheme_tail_none _ Hcolon). now destruct (is_alpha c). }
  rewrite Hscheme. unfold WHATWG.relative.
  destruct s as [|a [|b r]]; try (eexists; split; reflexivity).
  assert (Ha : WHATWG.is_slash true a = false).
  { unfold WHATWG.is_slash.
    rewrite NameFacts.all_chars_cons in Href. apply andb_true_iff in Href as [Ha _].
    destruct (NameFacts.ref_char_plain a Ha) as (_ & _ & _ & _ & _ & _ & Hback & _).
    destruct (Ascii.eqb_spec a "/") as [->|_].
    - now rewrite NameFacts.startsWith_first in Hslash.
    - now destruct (Ascii.eqb_spec a "\"). }
  rewrite Ha. eexists; split; reflexivity.
Qed.

(** ** C5: identity on clean names *)

(** C5, as the code has it.  With a [URL] constructor that resolves a
    relative reference against its base, [extract] returns every name of
    the grammar that is neither a built-in module nor ["~"] as it is. *)
Theorem extract_identity_on_clean_names :
  forall (URL_new : string -> completion URL) (n : string),
    resolves_against_base URL_new ->
    valid_name n = true ->
    has CONFIG.NODE_BUILTINS n = false ->
    n <> "~" ->
    extract URL_new (VString n) = Normal (VString n).
Proof.
  intros URL_new n Hrel Hv Hb Htilde. now apply NameFacts.extract_valid_name.
Qed.

Lemma extract_identity_on_clean_names_witness :
  extract WHATWG.URL_new (VString "@scope/pkg") = Normal (VString "@scope/pkg").
Proof.
  apply (extract_identity_on_clean_names WHATWG.URL_new "@scope/pkg").
  - exact WHATWG_resolves_against_base.
  - reflexivity.
  - reflexivity.
  - discriminate.
Defined.

(** C5, as stated, fails: ["fs"] and ["~"] are names of the grammar, and
    [extract] returns [null] for both. *)
Lemma extract_not_identity_on_fs_and_tilde :
  valid_name "fs" = true
  /\ extract WHATWG.URL_new (VString "fs") = Normal VNull
  /\ valid_name "~" = true
  /\ extract WHATWG.URL_new (VString "~") = Normal VNull.
Proof. repeat split; vm_compute; reflexivity. Qed.

(** ** C8: idempotence *)

(** C8, as the code has it.  With a [URL] constructor that resolves a
    relative reference against its base: when [extract] returns a string
    other than ["~"], [extract] returns that string for it again. *)
Theorem extract_idempotent_except_tilde :
  forall (URL_new : string -> completion URL) (s r : string),
    resolves_against_base URL_new ->
    extract URL_new (VString s) = Normal (VString r) ->
    r <> "~" ->
    extract URL_new (VString r) = Normal (VString r).
Proof.
  intros URL_new s r Hrel He Htilde.
  destruct (extract_clean URL_new (VString s)) as [H|(r' & H & Hv & Hb)];
    rewrite H in He; [discriminate|].
  injection He as ->. now apply NameFacts.extract_valid_name.
Qed.

Lemma extract_idempotent_except_tilde_witness :
  extract WHATWG.URL_new (VString "lodash/fp") = Normal (VString "lodash")
  /\ extract WHATWG.URL_new (VString "lodash") = Normal (VString "lodash").
Proof.
  assert (H : extract WHATWG.URL_new (VString "lodash/fp") = Normal (VString "lodash"))
    by (vm_compute; reflexivity).
  split; [exact H|].
  apply (extract_idempotent_except_tilde WHATWG.URL_new "lodash/fp" "lodash").
  - exact WHATWG_resolves_against_base.
  - exact H.
  - discriminate.
Defined.

(** C8, as stated, fails: the version is stripped from ["~@1.0"], and the
    ["~"] that remains is an alias path. *)
Lemma extract_not_idempotent_on_tilde :
  extract WHATWG.URL_new (VString "~@1.0") = Normal (VString "~")
  /\ extract WHATWG.URL_new (VString "~") = Normal VNull.
Proof. split; vm_compute; reflexivity. Qed.

(* ===================================================================== *)
(** * More properties of the extractor                                    *)
(* ===================================================================== *)

Module ExtractorFacts.

Import NameFacts.

Lemma drop_end_cons_keep p c r :
  p c = false -> drop_end p (String c r) = String c (drop_end p r).
Proof. intros Hc. simpl. rewrite Hc. now destruct (drop_end p r). Qed.

Lemma drop_end_app_keep p a b :
  all_chars (fun c => negb (p c)) a = true ->
  drop_end p (a ++ b) = a ++ drop_end p b.
Proof.
  induction a as [|c a IH]; [reflexivity|].
  rewrite all_chars_cons, andb_true_iff, negb_true_iff. intros [Hc Ha].
  rewrite !append_cons, drop_end_cons_keep by assumption. now rewrite IH.
Qed.

Lemma before_app_keep sep a b :
  all_chars (fun c => negb (Ascii.eqb c sep)) a = true ->
  before sep (a ++ b) = a ++ before sep b.
Proof.
  induction a as [|c a IH]; [reflexivity|].
  rewrite all_chars_cons, andb_true_iff, negb_true_iff. intros [Hc Ha].
  rewrite !append_cons. simpl. now rewrite Hc, IH.
Qed.

Lemma before_cons_keep sep c x :
  Ascii.eqb c sep = false -> before sep (String c x) = String c (before sep x).
Proof. intros H. cbn [before]. now rewrite H. Qed.

Lemma hd_split sep s : hd EmptyString (split sep s) = before sep s.
Proof.
  induction s as [|c s IH]; [reflexivity|].
  simpl. destruct (Ascii.eqb c sep); [reflexivity|].
  destruct (split sep s) as [|h t]; simpl in *; now rewrite <- IH.
Qed.

Lemma split_nonempty sep s : split sep s <> [].
Proof.
  destruct s as [|c s]; simpl; [discriminate|].
  destruct (Ascii.eqb c sep); [discriminate|].
  destruct (split sep s); discriminate.
Qed.

Lemma item_split_0 sep s : item (split sep s) 0 = VString (before sep s).
Proof.
  rewrite <- hd_split. unfold item.
  pose proof (split_nonempty sep s). now destruct (split sep s).
Qed.

Lemma before_chars P sep s :
  all_chars P s = true -> all_chars P (before sep s) = true.
Proof.
  induction s as [|c s IH]; [reflexivity|].
  rewrite all_chars_cons, andb_true_iff. intros [Hc Hs]. simpl.
  destruct (Ascii.eqb c sep); [reflexivity|].
  now rewrite all_chars_cons, Hc, IH.
Qed.

Lemma before_no_sep sep s :
  all_chars (fun c => negb (Ascii.eqb c sep)) (before sep s) = true.
Proof.
  induction s as [|c s IH]; [reflexivity|]. simpl.
  destruct (Ascii.eqb c sep) eqn:Hc; [reflexivity|].
  now rewrite all_chars_cons, Hc, IH.
Qed.

Lemma before_prefix sep s : String.prefix (before sep s) s = true.
Proof.
  induction s as [|c s IH]; [reflexivity|]. simpl.
  destruct (Ascii.eqb c sep); [reflexivity|].
  simpl. now destruct (Ascii.ascii_dec c c).
Qed.

(** A prefix that holds a separator fixes what stands before the first
    separator. *)
Lemma prefix_before sep p s q :
  String.prefix p s = true -> after sep p = Some q -> before sep s = before sep p.
Proof.
  revert s. induction p as [|a p IH]; intros [|b s]; simpl; try discriminate.
  destruct (Ascii.ascii_dec a b) as [<-|]; [|discriminate].
  intros Hp. destruct (Ascii.eqb a sep); [reflexivity|].
  intros Hq. now rewrite (IH s Hp Hq).
Qed.

Lemma strip_prefix_prefix p s r :
  strip_prefix p s = Some r -> String.prefix p s = true.
Proof.
  revert s. induction p as [|a p IH]; intros [|b s]; simpl; try easy.
  destruct (Ascii.eqb_spec a b) as [<-|]; [|discriminate].
  destruct (Ascii.ascii_dec a a); [apply IH | congruence].
Qed.

Lemma has_chars P xs x :
  has xs x = true -> forallb (all_chars P) xs = true -> all_chars P x = true.
Proof.
  unfold has. induction xs as [|y xs IH]; simpl; [discriminate|].
  rewrite orb_true_iff, andb_true_iff. intros [H|H] [Hy Hxs]; [|auto].
  apply String.eqb_eq in H. now subst.
Qed.

Lemma roots_are_names x :
  has CONFIG.INTERNAL_ALIAS_ROOTS x = true -> all_chars name_char x = true.
Proof. intros H. now apply (has_chars name_char _ _ H). Qed.

Lemma at_not_name a b : all_chars name_char (a ++ String "@" b) = false.
Proof.
  rewrite all_chars_app, all_chars_cons. cbn [name_char].
  change (name_char "@") with false. now rewrite andb_false_r.
Qed.

Lemma includes_app_sep a c b : includes (a ++ String c b) (String c EmptyString) = true.
Proof.
  induction a as [|d a IH].
  - change (EmptyString ++ String c b) with (String c b). cbn [includes].
    change (String.prefix (String c EmptyString) (String c b))
      with (startsWith (String c b) (String c EmptyString)).
    now rewrite startsWith_first.
  - rewrite append_cons. cbn [includes]. rewrite IH. apply orb_true_r.
Qed.

(** When the last test of [isAliasPath] holds, [isAliasPath] holds. *)
Lemma isAliasPath_by_root x :
  x <> EmptyString ->
  (1 <? length (split "/" (trim x)))%nat
  && has CONFIG.INTERNAL_ALIAS_ROOTS (toLowerCase (hd EmptyString (split "/" (trim x)))) = true ->
  isAliasPath x = true.
Proof.
  intros Hx Hroot. unfold isAliasPath.
  rewrite (proj2 (String.eqb_neq _ _) Hx), Hroot.
  repeat match goal with |- (if ?c then true else _) = true => destruct c; [reflexivity|] end.
  reflexivity.
Qed.

(** When its first test on the shape holds, [isAliasPath] holds. *)
Lemma isAliasPath_by_slash x :
  x <> EmptyString ->
  startsWith (trim x) "/" && negb (startsWith (trim x) "//") = true ->
  isAliasPath x = true.
Proof.
  intros Hx Hs. unfold isAliasPath.
  now rewrite (proj2 (String.eqb_neq _ _) Hx), Hs.
Qed.


Lemma name_not_space s :
  all_chars name_char s = true -> all_chars (fun c => negb (is_space c)) s = true.
Proof.
  apply all_chars_impl. intros c Hc.
  now destruct (ref_char_plain c (name_char_ref c Hc)) as (-> & _).
Qed.

Lemma name_not sep s :
  ref_char sep = false ->
  all_chars name_char s = true ->
  all_chars (fun c => negb (Ascii.eqb c sep)) s = true.
Proof.
  intros Hsep. apply all_chars_impl. intros a Ha.
  apply negb_true_iff, Ascii.eqb_neq. intros ->.
  now rewrite (name_char_ref sep Ha) in Hsep.
Qed.

(** What [extract] makes of [a ++ "/" ++ t] before it tests for an alias,
    when [a] is made of code units of names: [a ++ "/" ++ t'] for some
    [t']. *)
Lemma cleaned_keeps_head a t :
  all_chars name_char a = true ->
  exists t', stripQueryAndHash (trim (a ++ String "/" t)) = a ++ String "/" t'
             /\ trim (a ++ String "/" t') = a ++ String "/" (drop_end is_space t').
Proof.
  intros Ha.
  assert (Hsp : all_chars (fun c => negb (is_space c)) (a ++ "/") = true).
  { now rewrite all_chars_app, (name_not_space a Ha). }
  assert (Hstart : forall x, drop_start is_space (a ++ String "/" x) = a ++ String "/" x).
  { intros x. destruct a as [|c a]; [reflexivity|].
    rewrite append_cons. simpl.
    rewrite all_chars_cons in Ha. apply andb_true_iff in Ha as [Hc _].
    now destruct (ref_char_plain c (name_char_ref c Hc)) as (-> & _). }
  assert (Hend : forall x, drop_end is_space (a ++ String "/" x)
                           = a ++ String "/" (drop_end is_space x)).
  { intros x. change (a ++ String "/" x) with (a ++ ("/" ++ x)).
    rewrite (drop_end_app_keep is_space a ("/" ++ x) (name_not_space a Ha)).
    change ("/" ++ x) with (String "/" x).
    now rewrite drop_end_cons_keep. }
  assert (Hbefore : forall sep x, ref_char sep = false ->
            before sep (a ++ String "/" x) = a ++ String "/" (before sep x)).
  { intros sep x Hsep. rewrite (before_app_keep sep a) by (now apply (name_not sep)).
    cbn [before]. destruct (Ascii.eqb_spec "/" sep) as [<-|_]; [discriminate Hsep | reflexivity]. }
  exists (before "?" (before "#" (drop_end is_space t))). split.
  - unfold trim, stripQueryAndHash.
    now rewrite Hstart, Hend, (Hbefore "#"%char), (Hbefore "?"%char).
  - unfold trim. now rewrite Hstart, Hend.
Qed.

End ExtractorFacts.

(** X7.  An import whose first segment is one of the internal alias roots
    and is followed by a slash is rejected, whatever follows and whatever
    the [URL] constructor does. *)
Theorem extract_rejects_alias_roots :
  forall (URL_new : string -> completion URL) (root t : string),
    has CONFIG.INTERNAL_ALIAS_ROOTS root = true ->
    extract URL_new (VString (root ++ "/" ++ t)) = Normal VNull.
Proof.
  intros URL_new root t Hroot.
  pose proof (ExtractorFacts.roots_are_names root Hroot) as Hname.
  change (root ++ "/" ++ t) with (root ++ String "/" t).
  destruct (ExtractorFacts.cleaned_keeps_head root t Hname) as (t' & Hclean & Htrim).
  assert (Hne : forall x, root ++ String "/" x <> EmptyString).
  { intros x. destruct root; discriminate. }
  unfold extract. cbn [truthy].
  rewrite (proj2 (String.eqb_neq _ _) (Hne t)). cbn [negb].
  destruct (String.eqb (trim (root ++ String "/" t)) EmptyString); [reflexivity|].
  rewrite Hclean, ExtractorFacts.isAliasPath_by_root; [reflexivity | apply Hne |].
  rewrite Htrim, ExtractorFacts.hd_split.
  rewrite (NameFacts.before_app "/" root) by (now apply NameFacts.no_slash).
  rewrite (NameFacts.split_app "/" root) by (now apply NameFacts.no_slash).
  rewrite (NameFacts.toLowerCase_ref root), Hroot, andb_true_r.
  - pose proof (ExtractorFacts.split_nonempty "/" (drop_end is_space t')) as Hs.
    now destruct (split "/" (drop_end is_space t')).
  - revert Hname. apply NameFacts.all_chars_impl, NameFacts.name_char_ref.
Qed.

Lemma extract_rejects_alias_roots_witness :
  extract WHATWG.URL_new (VString ("components" ++ "/" ++ "Button.vue?inline"))
  = Normal VNull.
Proof.
  apply (extract_rejects_alias_roots WHATWG.URL_new "components" "Button.vue?inline").
  reflexivity.
Defined.

Module ShapeFacts.

Import NameFacts ExtractorFacts.

Lemma first_not_slash c r : startsWith (String c r) "/" = false -> c <> "/"%char.
Proof. intros H ->. now rewrite startsWith_first in H. Qed.

(** [drop_end] and [before] return a prefix: the first code unit stays. *)
Lemma drop_end_head p r :
  startsWith r "/" = false -> startsWith (drop_end p r) "/" = false.
Proof.
  destruct r as [|c r]; [reflexivity|]. intros H.
  pose proof (first_not_slash c r H) as Hc. cbn [drop_end].
  destruct (drop_end p r); [destruct (p c)|];
    try reflexivity; now apply startsWith_other.
Qed.

Lemma before_head sep r :
  startsWith r "/" = false -> startsWith (before sep r) "/" = false.
Proof.
  destruct r as [|c r]; [reflexivity|]. intros H.
  pose proof (first_not_slash c r H) as Hc. cbn [before].
  destruct (Ascii.eqb c sep); [reflexivity | now apply startsWith_other].
Qed.

Lemma bare_slash_test r :
  startsWith r "/" = false ->
  startsWith (String "/" r) "/" && negb (startsWith (String "/" r) "//") = true.
Proof.
  intros H. rewrite startsWith_first. unfold startsWith in *.
  rewrite prefix_same. now rewrite H.
Qed.

End ShapeFacts.

(** X5.  A path that starts with one slash, and not with two, is rejected,
    whatever the [URL] constructor does. *)
Theorem extract_rejects_site_absolute :
  forall (URL_new : string -> completion URL) (r : string),
    startsWith r "/" = false ->
    extract URL_new (VString (String "/" r)) = Normal VNull.
Proof.
  intros URL_new r Hr.
  assert (Htrim : forall x, trim (String "/" x) = String "/" (drop_end is_space x)).
  { intros x. unfold trim. cbn [drop_start]. change (is_space "/") with false.
    cbv iota. now rewrite ExtractorFacts.drop_end_cons_keep. }
  unfold extract. cbn [truthy String.eqb negb].
  rewrite Htrim. cbn [String.eqb].
  set (r1 := drop_end is_space r).
  assert (H1 : startsWith r1 "/" = false) by now apply ShapeFacts.drop_end_head.
  unfold stripQueryAndHash.
  rewrite !ExtractorFacts.before_cons_keep by reflexivity.
  set (r2 := before "?" (before "#" r1)).
  assert (H2 : startsWith r2 "/" = false) by now apply ShapeFacts.before_head, ShapeFacts.before_head.
  rewrite ExtractorFacts.isAliasPath_by_slash; [reflexivity | discriminate |].
  rewrite Htrim. apply ShapeFacts.bare_slash_test. now apply ShapeFacts.drop_end_head.
Qed.

Lemma extract_rejects_site_absolute_witness :
  extract WHATWG.URL_new (VString "/static/js/app.js") = Normal VNull.
Proof.
  apply (extract_rejects_site_absolute WHATWG.URL_new "static/js/app.js").
  reflexivity.
Defined.

(** X6.  A relative import that starts with [./] is rejected, given a
    [URL] constructor that keeps the host of its base for an input without
    scheme and authority. *)
Theorem extract_rejects_dot_slash :
  forall (URL_new : string -> completion URL) (r : string),
    keeps_base_host URL_new ->
    extract URL_new (VString (String "." (String "/" r))) = Normal VNull.
Proof.
  intros URL_new r Hbase.
  assert (Htrim : trim (String "." (String "/" r))
                  = String "." (String "/" (drop_end is_space r))).
  { unfold trim. cbn [drop_start]. change (is_space ".") with false. cbv iota.
    now rewrite !ExtractorFacts.drop_end_cons_keep. }
  unfold extract. cbn [truthy String.eqb negb].
  rewrite Htrim. cbn [String.eqb].
  unfold stripQueryAndHash.
  rewrite !ExtractorFacts.before_cons_keep by reflexivity.
  set (cleaned := String "." (String "/" (before "?" (before "#" (drop_end is_space r))))).
  destruct (isAliasPath cleaned); [reflexivity|].
  assert (Hcdn : try_catch (extract_cdn URL_new cleaned) = None).
  { unfold extract_cdn.
    destruct (URL_new cleaned) as [url|] eqn:Hurl; [|reflexivity].
    cbn [mbind completion_bind JS.bind].
    rewrite (Hbase cleaned url eq_refl Hurl). reflexivity. }
  rewrite Hcdn. reflexivity.
Qed.

Lemma WHATWG_keeps_base_host : keeps_base_host WHATWG.URL_new.
Proof.
  intros s url Hrel Hurl.
  destruct s as [|c r].
  - now injection Hurl as <-.
  - cbn [relative_reference] in Hrel.
    apply andb_true_iff in Hrel as [Hrel Hc0]. apply andb_true_iff in Hrel as [Halpha Hslash].
    apply negb_true_iff in Hc0, Halpha, Hslash.
    assert (Htab : WHATWG.tab_or_newline c = false).
    { clear -Hc0. destruct c as [[] [] [] [] [] [] [] []]; vm_compute in *; congruence. }
    unfold WHATWG.URL_new in Hurl.
    cbn [drop_start] in Hurl. rewrite Hc0 in Hurl.
    rewrite ExtractorFacts.drop_end_cons_keep in Hurl by assumption.
    cbn [WHATWG.remove] in Hurl. rewrite Htab in Hurl.
    cbn [WHATWG.scheme_of] in Hurl. rewrite Halpha in Hurl.
    unfold WHATWG.relative in Hurl.
    destruct (WHATWG.remove _ _) as [|b r'] in Hurl.
    + now injection Hurl as <-.
    + rewrite Hslash in Hurl. now injection Hurl as <-.
Qed.

Lemma extract_rejects_dot_slash_witness :
  extract WHATWG.URL_new (VString "./local") = Normal VNull.
Proof.
  apply (extract_rejects_dot_slash WHATWG.URL_new "local").
  exact WHATWG_keeps_base_host.
Defined.

(** X8.  [stripQueryAndHash] returns a prefix of its input that holds
    neither [#] nor [?]; applied again it changes nothing. *)
Theorem stripQueryAndHash_strips :
  forall value : string,
    String.prefix (stripQueryAndHash value) value = true
    /\ includes (stripQueryAndHash value) "#" = false
    /\ includes (stripQueryAndHash value) "?" = false
    /\ stripQueryAndHash (stripQueryAndHash value) = stripQueryAndHash value.
Proof.
  intros value. unfold stripQueryAndHash.
  set (h := before "#" value).
  assert (Hh : all_chars (fun c => negb (Ascii.eqb c "#")) h = true)
    by apply ExtractorFacts.before_no_sep.
  assert (Hq : all_chars (fun c => negb (Ascii.eqb c "?")) (before "?" h) = true)
    by apply ExtractorFacts.before_no_sep.
  assert (Hhq : all_chars (fun c => negb (Ascii.eqb c "#")) (before "?" h) = true)
    by now apply ExtractorFacts.before_chars.
  repeat split.
  - assert (Htrans : forall a b c, String.prefix a b = true -> String.prefix b c = true ->
                                   String.prefix a c = true).
    { induction a as [|x a IH]; intros [|y b] [|z c]; simpl; try easy.
      destruct (Ascii.ascii_dec x y) as [->|]; [|discriminate].
      destruct (Ascii.ascii_dec y z) as [->|]; [|discriminate]. apply IH. }
    apply (Htrans _ h); apply ExtractorFacts.before_prefix.
  - now apply (NameFacts.includes_outside _ _ _ Hhq).
  - now apply (NameFacts.includes_outside _ _ _ Hq).
  - rewrite (NameFacts.before_id "#" _ Hhq). now rewrite (NameFacts.before_id "?" _ Hq).
Qed.

(** X1.  Whatever the [URL] constructor does, a string that [extract]
    returns is a name of the canonical grammar, is no built-in module and
    holds no [@] after its first code unit: no version is left on it. *)
Theorem extract_results_canonical :
  forall (URL_new : string -> completion URL) (importPath : value) (r : string),
    extract URL_new importPath = Normal (VString r) ->
    valid_name r = true
    /\ has CONFIG.NODE_BUILTINS r = false
    /\ includes (match r with String _ rest => rest | EmptyString => EmptyString end) "@"
       = false.
Proof.
  intros URL_new v r He.
  destruct (extract_clean URL_new v) as [H|(r' & H & Hv & Hb)];
    rewrite H in He; [discriminate|].
  injection He as ->. split; [exact Hv|]. split; [exact Hb|].
  destruct (NameFacts.valid_name_inv r Hv) as [Hp|(scope & name & -> & Hs & Hn)].
  - destruct (NameFacts.plain_name_inv r Hp) as (c & rest & -> & _ & Hrest).
    now apply (NameFacts.includes_outside name_char).
  - apply (NameFacts.includes_outside (fun c => negb (Ascii.eqb c "@"))); [|reflexivity].
    rewrite NameFacts.all_chars_app, NameFacts.all_chars_cons.
    rewrite (NameFacts.no_at _ (NameFacts.plain_name_chars _ Hs)).
    now rewrite (NameFacts.no_at _ (NameFacts.plain_name_chars _ Hn)).
Qed.

Lemma extract_results_canonical_witness :
  valid_name "react" = true /\ has CONFIG.NODE_BUILTINS "react" = false.
Proof.
  destruct (extract_results_canonical WHATWG.URL_new
              (VString "https://unpkg.com/react@18.2.0/index.js") "react")
    as (H1 & H2 & _).
  - vm_compute. reflexivity.
  - split; [exact H1 | exact H2].
Defined.

(** X2.  [normalizePackageName] is idempotent: a string it returns is
    returned unchanged when it is normalized again. *)
Theorem normalizePackageName_idempotent :
  forall (pkgName : value) (r : string),
    normalizePackageName pkgName = Normal (VString r) ->
    normalizePackageName (VString r) = Normal (VString r).
Proof.
  intros v r H.
  assert (Hr : valid_name r = true /\ has CONFIG.NODE_BUILTINS r = false).
  { destruct v as [| |[]|n|s|]; try discriminate H.
    - unfold normalizePackageName in H. cbn [truthy] in H.
      destruct (negb (negb (n =? 0))); discriminate H.
    - destruct (normalizePackageName_string s) as [H'|(r' & H' & Hv & Hb)];
        rewrite H' in H; [discriminate|]. now injection H as <-. }
  destruct Hr as [Hv Hb].
  destruct (NameFacts.valid_name_inv r Hv) as [Hp|(scope & name & -> & Hs & Hn)].
  - now apply NameFacts.normalize_plain.
  - now apply NameFacts.normalize_scoped.
Qed.

Lemma normalizePackageName_idempotent_witness :
  normalizePackageName (VString "@scope/pkg") = Normal (VString "@scope/pkg").
Proof.
  apply (normalizePackageName_idempotent (VString "@scope/pkg@1.2.3") "@scope/pkg").
  vm_compute. reflexivity.
Defined.

Module TailFacts.

Import NameFacts ExtractorFacts.

Lemma ref_tail n d t :
  all_chars ref_char n = true -> ref_char d = true -> all_chars ref_char t = true ->
  all_chars ref_char (n ++ String d t) = true.
Proof. intros Hn Hd Ht. now rewrite all_chars_app, all_chars_cons, Hn, Hd, Ht. Qed.

Lemma dot_plus_ref x :
  x <> EmptyString -> all_chars ref_char x = true -> dot_plus x = true.
Proof.
  intros Hx Href. unfold dot_plus.
  rewrite (proj2 (String.eqb_neq _ _) Hx). cbn [negb andb].
  revert Href. apply all_chars_impl. intros a Ha.
  now destruct (ref_char_plain a Ha) as (_ & -> & _).
Qed.

Lemma prefix_slash_false p q s :
  after "/" p = Some q ->
  all_chars name_char (before "/" p) = true ->
  all_chars name_char (before "/" s) = false ->
  String.prefix p s = false.
Proof.
  intros Hq Hp Hs. destruct (String.prefix p s) eqn:E; [|reflexivity].
  rewrite (prefix_before "/" p s q E Hq) in Hs. congruence.
Qed.

(** What stands before the first slash of a name followed by a version. *)
Lemma before_versioned n t :
  all_chars name_char n = true ->
  before "/" (n ++ String "@" t) = n ++ String "@" (before "/" t).
Proof.
  intros Hn. rewrite (before_app_keep "/" n) by now apply no_slash.
  now rewrite before_cons_keep.
Qed.


(** A plain name followed by a version is no alias path. *)
Lemma isAliasPath_versioned n t :
  plain_name n = true -> all_chars ref_char t = true ->
  isAliasPath (n ++ String "@" t) = false.
Proof.
  intros Hp Ht.
  pose proof (plain_name_chars n Hp) as Hall.
  pose proof (all_chars_impl _ _ _ name_char_ref Hall) as Hrefn.
  pose proof (ref_tail n "@" t Hrefn eq_refl Ht) as Href.
  assert (Hbefore : all_chars name_char (before "/" (n ++ String "@" t)) = false).
  { rewrite (before_versioned n t Hall). apply at_not_name. }
  destruct (plain_name_inv n Hp) as (c & r & -> & Hc & Hr).
  destruct (name_start_not c Hc) as [_ Hat].
  assert (Hslash : c <> "/"%char)
    by now destruct (name_char_not c (name_start_char c Hc)).
  set (s := String c r ++ String "@" t) in *.
  assert (Hs : s = String c (r ++ String "@" t)) by reflexivity.
  unfold isAliasPath.
  rewrite (trim_ref _ Href), (toLowerCase_ref _ Href).
  assert (E0 : String.eqb s EmptyString = false) by reflexivity.
  assert (E1 : startsWith s "/" = false) by (rewrite Hs; now apply startsWith_other).
  assert (E2 : startsWith s "\\" = false)
    by (unfold startsWith; now apply (prefix_outside ref_char)).
  assert (E3 : existsb (fun prefix => startsWith s prefix)
                 CONFIG.INTERNAL_ALIAS_PREFIXES = false).
  { assert (E : startsWith s "@/" = false) by (rewrite Hs; now apply startsWith_other).
    cbn [existsb CONFIG.INTERNAL_ALIAS_PREFIXES]. rewrite E.
    unfold startsWith.
    rewrite (prefix_slash_false "~/" EmptyString s eq_refl eq_refl Hbefore).
    now rewrite (prefix_slash_false "~~/" EmptyString s eq_refl eq_refl Hbefore). }
  assert (E4 : String.eqb s "~" = false).
  { apply String.eqb_neq. intros E. rewrite E in Hbefore. discriminate Hbefore. }
  assert (E5 : startsWith s "~/" = false)
    by (unfold startsWith; now apply (prefix_slash_false "~/" EmptyString s)).
  assert (E6 : has CONFIG.INTERNAL_ALIAS_ROOTS
                 (toLowerCase (hd EmptyString (split "/" s))) = false).
  { rewrite hd_split, toLowerCase_ref by (now apply before_chars).
    destruct (has _ _) eqn:E; [|reflexivity].
    now rewrite (roots_are_names _ E) in Hbefore. }
  rewrite E0, E1, (drive_path_outside ref_char _ Href eq_refl), E2, E3, E4, E5, E6.
  now rewrite andb_false_r.
Qed.

(** A scoped name followed by anything of names is no alias path. *)
Lemma isAliasPath_scoped_tail scope rest :
  plain_name scope = true -> all_chars ref_char rest = true ->
  isAliasPath (String "@" (scope ++ String "/" rest)) = false.
Proof.
  intros Hs Hrest.
  pose proof (all_chars_impl _ _ _ name_char_ref (plain_name_chars _ Hs)) as Hrefs.
  assert (Href : all_chars ref_char (String "@" (scope ++ String "/" rest)) = true).
  { rewrite all_chars_cons. now rewrite (ref_tail scope "/" rest Hrefs eq_refl Hrest). }
  unfold isAliasPath.
  rewrite (trim_ref _ Href), (toLowerCase_ref _ Href).
  rewrite (drive_path_outside ref_char _ Href eq_refl).
  set (s := String "@" (scope ++ String "/" rest)) in *.
  assert (E0 : String.eqb s EmptyString = false) by reflexivity.
  assert (E1 : startsWith s "/" = false) by reflexivity.
  assert (E2 : startsWith s "\\" = false) by reflexivity.
  assert (E3 : existsb (fun prefix => startsWith s prefix)
                 CONFIG.INTERNAL_ALIAS_PREFIXES = false).
  { assert (E : startsWith s "@/" = false).
    { subst s. destruct (plain_name_inv scope Hs) as (c & r & -> & Hc & Hr).
      rewrite append_cons. unfold startsWith. rewrite prefix_same.
      apply (startsWith_other c "/" EmptyString).
      now destruct (name_char_not c (name_start_char c Hc)). }
    cbn [existsb CONFIG.INTERNAL_ALIAS_PREFIXES]. rewrite E. reflexivity. }
  assert (E4 : String.eqb s "~" = false) by reflexivity.
  assert (E5 : startsWith s "~/" = false) by reflexivity.
  assert (E6 : has CONFIG.INTERNAL_ALIAS_ROOTS
                 (toLowerCase (hd EmptyString (split "/" s))) = false).
  { rewrite hd_split. reflexivity. }
  rewrite E0, E1, E2, E3, E4, E5, E6. now rewrite andb_false_r.
Qed.

Section Tails.

Variable URL_new : string -> completion URL.
Hypothesis relative : resolves_against_base URL_new.

Lemma extract_plain_tail n d t :
  plain_name n = true ->
  has CONFIG.NODE_BUILTINS n = false ->
  d = "@"%char \/ (d = "/"%char /\ n <> "node_modules") ->
  all_chars ref_char t = true ->
  isAliasPath (n ++ String d t) = false ->
  extract URL_new (VString (n ++ String d t)) = Normal (VString n).
Proof.
  intros Hp Hb Hd Ht Halias.
  pose proof (plain_name_chars n Hp) as Hall.
  pose proof (all_chars_impl _ _ _ name_char_ref Hall) as Hrefn.
  assert (Hrefd : ref_char d = true) by (destruct Hd as [->|[-> _]]; reflexivity).
  pose proof (ref_tail n d t Hrefn Hrefd Ht) as Href.
  assert (Hbefore : before "/" (n ++ String d t) = n /\ n <> "node_modules"
                    \/ before "/" (n ++ String d t) = n ++ String "@" (before "/" t)).
  { destruct Hd as [->|[-> Hnm]].
    - right. now apply before_versioned.
    - left. split; [apply before_app; now apply no_slash | exact Hnm]. }
  destruct (plain_name_inv n Hp) as (c & r & Hn & Hc & Hr).
  destruct (name_start_not c Hc) as [Hdot Hat].
  assert (Hslash : c <> "/"%char)
    by now destruct (name_char_not c (name_start_char c Hc)).
  assert (Hs : n ++ String d t = String c (r ++ String d t)) by now subst n.
  rewrite (extract_no_cleaning URL_new relative _ Href).
  - assert (Hat' : startsWith (n ++ String d t) "@" = false)
      by (rewrite Hs; now apply startsWith_other).
    rewrite Hat', item_split_0.
    destruct Hbefore as [(-> & _)| ->]; [now apply normalize_plain|].
    unfold normalizePackageName.
    assert (Hne : truthy (VString (n ++ String "@" (before "/" t))) = true)
      by (subst n; reflexivity).
    rewrite Hne. cbn [negb].
    assert (H1 : startsWith (n ++ String "@" (before "/" t)) "@" = false)
      by (subst n; now apply startsWith_other).
    rewrite H1, includes_app_sep, (before_app "@" n) by now apply no_at.
    rewrite Hb. subst n. now rewrite (valid_name_unscoped c r Hat), Hp.
  - rewrite Hs. discriminate.
  - rewrite Hs. now apply startsWith_other.
  - rewrite Hs. now apply startsWith_other.
  - exact Halias.
  - unfold strip_node_modules. rewrite after_node_modules_none; [reflexivity| |].
    + destruct (strip_prefix "node_modules/" _) eqn:E; [|reflexivity].
      pose proof (prefix_before "/" _ _ EmptyString (strip_prefix_prefix _ _ _ E) eq_refl) as Hb'.
      change (before "/" "node_modules/") with "node_modules" in Hb'.
      destruct Hbefore as [(Hb1 & Hnm)|Hb1]; rewrite Hb1 in Hb'.
      * contradiction.
      * pose proof (at_not_name n (before "/" t)) as Hx. rewrite Hb' in Hx. discriminate Hx.
    + rewrite Hs. now apply strip_prefix_other.
Qed.

Lemma extract_scoped_tail scope name d t :
  plain_name scope = true -> plain_name name = true ->
  has CONFIG.NODE_BUILTINS (String "@" (scope ++ String "/" name)) = false ->
  d = "@"%char \/ d = "/"%char ->
  all_chars ref_char t = true ->
  extract URL_new (VString (String "@" (scope ++ String "/" (name ++ String d t))))
  = Normal (VString (String "@" (scope ++ String "/" name))).
Proof.
  intros Hs Hn Hb Hd Ht.
  pose proof (plain_name_chars _ Hn) as Halln.
  pose proof (all_chars_impl _ _ _ name_char_ref Halln) as Hrefn.
  assert (Hrefd : ref_char d = true) by (destruct Hd as [->| ->]; reflexivity).
  pose proof (ref_tail name d t Hrefn Hrefd Ht) as Hrest.
  pose proof (all_chars_impl _ _ _ name_char_ref (plain_name_chars _ Hs)) as Hrefs.
  pose proof (no_slash _ (plain_name_chars _ Hs)) as Hslash.
  assert (Hp1 : before "@" (before "/" (name ++ String d t)) = name
                /\ before "/" (name ++ String d t) <> EmptyString).
  { destruct (plain_name_inv name Hn) as (c & r & Hname & _).
    destruct Hd as [->| ->].
    - rewrite (before_versioned name t Halln).
      rewrite (before_app "@" name) by now apply no_at.
      split; [reflexivity | subst name; discriminate].
    - rewrite (before_app "/" name) by now apply no_slash.
      rewrite (before_id "@" name) by now apply no_at.
      split; [reflexivity | subst name; discriminate]. }
  set (rest := name ++ String d t) in *.
  assert (Hp1ref : all_chars ref_char (before "/" rest) = true) by now apply before_chars.
  assert (Href : all_chars ref_char (String "@" (scope ++ String "/" rest)) = true).
  { rewrite all_chars_cons. now rewrite (ref_tail scope "/" rest Hrefs eq_refl Hrest). }
  destruct Hp1 as (Hname & Hp1ne).
  rewrite (extract_no_cleaning URL_new relative _ Href); try reflexivity.
  - rewrite startsWith_first.
    rewrite <- append_cons, (split_app "/" (String "@" scope) rest)
      by (rewrite all_chars_cons; now rewrite Hslash).
    pose proof (hd_split "/" rest) as Hhd.
    destruct (split "/" rest) as [|p1 tl] eqn:Hsplit;
      [now apply split_nonempty in Hsplit|].
    cbn [hd] in Hhd. rewrite <- Hhd in Hname, Hp1ne, Hp1ref. clear Hhd.
    change (String "@" scope ++ "/" ++ p1) with (String "@" (scope ++ String "/" p1)).
    unfold normalizePackageName.
    change (truthy (VString (String "@" (scope ++ String "/" p1)))) with true.
    cbn [negb]. rewrite startsWith_first.
    assert (Hm : match_scoped (String "@" (scope ++ String "/" p1))
                 = Some (String "@" scope, p1)).
    { cbn [match_scoped].
      rewrite (before_app "/" scope p1 Hslash), (after_app "/" scope p1 Hslash).
      destruct (plain_name_inv scope Hs) as (c & r & -> & _).
      now rewrite (dot_plus_ref p1 Hp1ne Hp1ref). }
    rewrite Hm, Hname.
    change (String "@" scope ++ "/" ++ name) with (String "@" (scope ++ String "/" name)).
    rewrite Hb. cbn [valid_name].
    now rewrite (before_app "/" scope name Hslash), (after_app "/" scope name Hslash), Hs, Hn.
  - discriminate.
  - now apply isAliasPath_scoped_tail.
Qed.

End Tails.

End TailFacts.

Lemma append_middle a c b x : (a ++ String c b) ++ x = a ++ String c (b ++ x).
Proof.
  induction a as [|d a IH]; [reflexivity|].
  now rewrite !NameFacts.append_cons, IH.
Qed.

(** X3.  A version after a name is stripped: for a name [n] of the grammar
    that is no built-in module, and a tail [t] written with the code units
    of names, [@] and [/], [extract] returns [n] for [n@t], given a [URL]
    constructor that resolves a relative reference against its base. *)
Theorem extract_strips_version :
  forall (URL_new : string -> completion URL) (n t : string),
    resolves_against_base URL_new ->
    valid_name n = true ->
    has CONFIG.NODE_BUILTINS n = false ->
    all_chars ref_char t = true ->
    extract URL_new (VString (n ++ "@" ++ t)) = Normal (VString n).
Proof.
  intros URL_new n t Hrel Hv Hb Ht.
  change (n ++ "@" ++ t) with (n ++ String "@" t).
  destruct (NameFacts.valid_name_inv n Hv) as [Hp|(scope & name & -> & Hs & Hn)].
  - apply TailFacts.extract_plain_tail; auto.
    now apply TailFacts.isAliasPath_versioned.
  - rewrite NameFacts.append_cons, append_middle.
    apply TailFacts.extract_scoped_tail; auto.
Qed.

Lemma extract_strips_version_witness :
  extract WHATWG.URL_new (VString ("@scope/pkg" ++ "@" ++ "1.2.3/dist/index.js"))
  = Normal (VString "@scope/pkg").
Proof.
  apply (extract_strips_version WHATWG.URL_new "@scope/pkg" "1.2.3/dist/index.js").
  - exact WHATWG_resolves_against_base.
  - reflexivity.
  - reflexivity.
  - reflexivity.
Defined.

(** X4.  A sub-path after a name is discarded: for a name [n] of the
    grammar that is no built-in module and is not ["node_modules"], and a
    sub-path [t] written with the code units of names, [@] and [/], when
    [n/t] is no alias path [extract] returns [n] for it, given a [URL]
    constructor that resolves a relative reference against its base. *)
Theorem extract_discards_subpath :
  forall (URL_new : string -> completion URL) (n t : string),
    resolves_against_base URL_new ->
    valid_name n = true ->
    has CONFIG.NODE_BUILTINS n = false ->
    n <> "node_modules" ->
    all_chars ref_char t = true ->
    isAliasPath (n ++ "/" ++ t) = false ->
    extract URL_new (VString (n ++ "/" ++ t)) = Normal (VString n).
Proof.
  intros URL_new n t Hrel Hv Hb Hnm Ht Halias.
  change (n ++ "/" ++ t) with (n ++ String "/" t) in *.
  destruct (NameFacts.valid_name_inv n Hv) as [Hp|(scope & name & -> & Hs & Hn)].
  - apply TailFacts.extract_plain_tail; auto.
  - rewrite NameFacts.append_cons, append_middle.
    apply TailFacts.extract_scoped_tail; auto.
Qed.

Lemma extract_discards_subpath_witness :
  extract WHATWG.URL_new (VString ("lodash" ++ "/" ++ "fp/map")) = Normal (VString "lodash").
Proof.
  apply (extract_discards_subpath WHATWG.URL_new "lodash" "fp/map").
  - exact WHATWG_resolves_against_base.
  - reflexivity.
  - reflexivity.
  - discriminate.
  - reflexivity.
  - reflexivity.
Defined.

(** The package behind a [node_modules] path: the prefix is dropped by the
    cleaning, so the name is what follows it. *)
Example extract_node_modules_prefix :
  extract WHATWG.URL_new (VString "node_modules/left-pad/index.js")
  = Normal (VString "left-pad").
Proof. vm_compute. reflexivity. Qed.

(* ===================================================================== *)
(** * More properties of the rate limiter                                 *)
(* ===================================================================== *)

Module LimiterFacts.

Import RateLimiter.

Lemma kept_length (window now : Z) (l : list Z) :
  (length (List.filter (fresh window now) l) <= length l)%nat.
Proof. apply RateLimiterFacts.filter_length_le. Qed.

(** Below the limit every attempt is granted. *)
Lemma run_below_limit (times : list Z) :
  forall rl,
    Z.of_nat (length (requests rl) + length times) <= maxRequests rl ->
    snd (run times rl) = times.
Proof.
  induction times as [|now later IH]; intros rl Hlen; [reflexivity|].
  cbn [run]. unfold attempt.
  pose proof (kept_length (timeWindow rl) now (requests rl)) as Hk.
  cbn [length] in Hlen.
  destruct (_ >=? _) eqn:Hfull; [bool_to_Z; lia|].
  match goal with |- context [run later ?r] =>
    specialize (IH r); destruct (run later r) as [rl2 adm] end.
  cbn [snd] in *. f_equal. apply IH.
  cbn [requests maxRequests]. rewrite length_app. cbn [length]. lia.
Qed.

(** What the limiter holds comes from what it held and what it granted. *)
Lemma run_requests (times : list Z) :
  forall rl x,
    In x (requests (fst (run times rl))) ->
    In x (requests rl) \/ In x (snd (run times rl)).
Proof.
  induction times as [|now later IH]; intros rl x Hx; [now left|].
  cbn [run] in *. unfold attempt in *.
  destruct (_ >=? _).
  - match goal with H : context [run later ?r] |- _ =>
      specialize (IH r x); destruct (run later r) as [rl2 adm] end.
    cbn [fst snd] in *. destruct (IH Hx) as [H|H]; [|now right].
    cbn [requests] in H. apply filter_In in H. now left.
  - match goal with H : context [run later ?r] |- _ =>
      specialize (IH r x); destruct (run later r) as [rl2 adm] end.
    cbn [fst snd] in *. destruct (IH Hx) as [H|H]; [|right; now right].
    cbn [requests] in H. apply in_app_or in H as [H|[->|[]]].
    + apply filter_In in H. now left.
    + right. now left.
Qed.

End LimiterFacts.

(** X9.  While the limiter has granted fewer than [maxRequests] slots,
    nobody waits: from a new limiter, a sequence of at most [maxRequests]
    attempts is granted in full, at whatever times they come. *)
Theorem rate_limiter_grants_below_limit :
  forall (maxRequests timeWindow : Z) (times : list Z),
    Z.of_nat (length times) <= maxRequests ->
    snd (RateLimiter.run times (RateLimiter.new maxRequests timeWindow)) = times.
Proof.
  intros maxRequests timeWindow times Hlen.
  apply LimiterFacts.run_below_limit. exact Hlen.
Qed.

Lemma rate_limiter_grants_below_limit_witness :
  snd (RateLimiter.run [5; 5; 7] (RateLimiter.new 3 1000)) = [5; 5; 7].
Proof.
  apply (rate_limiter_grants_below_limit 3 1000 [5; 5; 7]).
  vm_compute. discriminate.
Defined.

(** X10.  A caller that has to wait is told to wait for more than 100 ms,
    until 100 ms after the oldest time stamp the limiter holds has left the
    window; nothing is recorded for it. *)
Theorem rate_limiter_delay :
  forall (now : Z) (rl rl' : RateLimiter.t) (waitTime : option Z),
    0 < RateLimiter.maxRequests rl ->
    RateLimiter.attempt now rl = (rl', RateLimiter.Retry waitTime) ->
    exists oldest rest w,
      RateLimiter.requests rl' = oldest :: rest
      /\ In oldest (RateLimiter.requests rl)
      /\ waitTime = Some w
      /\ 100 < w
      /\ now + w = oldest + RateLimiter.timeWindow rl + 100
      /\ RateLimiter.requests rl'
         = List.filter (RateLimiter.fresh (RateLimiter.timeWindow rl) now)
             (RateLimiter.requests rl).
Proof.
  intros now rl rl' waitTime Hpos H. unfold RateLimiter.attempt in H.
  destruct (_ >=? _) eqn:Hfull; [|discriminate].
  injection H as <- <-. cbn [RateLimiter.requests].
  destruct (List.filter _ _) as [|oldest rest] eqn:Hk;
    [cbn [length] in Hfull; bool_to_Z; lia|].
  assert (Hin : In oldest (List.filter
                  (RateLimiter.fresh (RateLimiter.timeWindow rl) now)
                  (RateLimiter.requests rl))) by (rewrite Hk; now left).
  apply filter_In in Hin as [Hin Hfresh]. unfold RateLimiter.fresh in Hfresh.
  exists oldest, rest, (RateLimiter.timeWindow rl - (now - oldest) + 100).
  repeat split; auto; bool_to_Z; lia.
Qed.

Lemma rate_limiter_delay_witness :
  exists oldest rest w,
    RateLimiter.requests
      (fst (RateLimiter.attempt 20 (fst (RateLimiter.run [0; 10] (RateLimiter.new 2 1000)))))
    = oldest :: rest
    /\ 100 < w /\ 20 + w = oldest + 1000 + 100.
Proof.
  destruct (rate_limiter_delay 20
              (fst (RateLimiter.run [0; 10] (RateLimiter.new 2 1000)))
              (fst (RateLimiter.attempt 20 (fst (RateLimiter.run [0; 10] (RateLimiter.new 2 1000)))))
              (Some 1080) eq_refl eq_refl)
    as (oldest & rest & w & H1 & _ & _ & H4 & H5 & _).
  exists oldest, rest, w. repeat split; assumption.
Defined.

(** X11.  The limiter never holds more than [maxRequests] time stamps, and
    each one it holds is the time of an admission it granted. *)
Theorem rate_limiter_bounded_memory :
  forall (maxRequests timeWindow : Z) (times : list Z),
    0 <= maxRequests ->
    let rl := fst (RateLimiter.run times (RateLimiter.new maxRequests timeWindow)) in
    let admissions := snd (RateLimiter.run times (RateLimiter.new maxRequests timeWindow)) in
    Z.of_nat (length (RateLimiter.requests rl)) <= maxRequests
    /\ forall x, In x (RateLimiter.requests rl) -> In x admissions.
Proof.
  intros maxRequests timeWindow times Hpos rl admissions. split.
  - destruct (RateLimiterFacts.run_length maxRequests times
                (RateLimiter.new maxRequests timeWindow)) as (_ & _ & Hl);
      [reflexivity | simpl; lia | exact Hl].
  - intros x Hx.
    destruct (LimiterFacts.run_requests times _ x Hx) as [[]|H]. exact H.
Qed.

Lemma rate_limiter_bounded_memory_witness :
  Z.of_nat (length (RateLimiter.requests
             (fst (RateLimiter.run [0; 10; 20; 1010; 1015] (RateLimiter.new 2 1000))))) <= 2.
Proof.
  apply (rate_limiter_bounded_memory 2 1000 [0; 10; 20; 1010; 1015]).
  vm_compute. discriminate.
Defined.

(* ===================================================================== *)
(** * More properties of the package record                              *)
(* ===================================================================== *)

Module RecordFacts.

(** The entry of the name that [addPackage] records. *)
Lemma addPackage_self (v : value) (source : string) (packages : gmap value (gset string)) :
  truthy v = true -> isInternalModule v = false ->
  addPackage v source packages !! v
  = Some (default ∅ (packages !! v) ∪ {[source]}).
Proof.
  intros Ht Hi. unfold addPackage. rewrite Ht, Hi. cbn [negb].
  rewrite lookup_alter_eq.
  destruct (packages !! v) as [S|] eqn:E.
  - now rewrite E.
  - now rewrite lookup_insert_eq.
Qed.

Lemma addPackage_skip (v : value) (source : string) (packages : gmap value (gset string)) :
  truthy v = false \/ isInternalModule v = true ->
  addPackage v source packages = packages.
Proof.
  intros [H|H]; unfold addPackage; rewrite H; [reflexivity|].
  now destruct (negb (truthy v)).
Qed.

Lemma recorded_dec (v : value) :
  (truthy v = true /\ isInternalModule v = false)
  \/ (truthy v = false \/ isInternalModule v = true).
Proof. destruct (truthy v), (isInternalModule v); auto. Qed.

Lemma record_le_refl p : record_le p p.
Proof. intros k S H. eauto. Qed.

Lemma record_le_trans p q r : record_le p q -> record_le q r -> record_le p r.
Proof.
  intros H1 H2 k S H. destruct (H1 k S H) as (S' & H' & Hs).
  destruct (H2 k S' H') as (S'' & H'' & Hs'). exists S''. split; [exact H''|set_solver].
Qed.

Lemma addPackage_le (v : value) (source : string) (packages : gmap value (gset string)) :
  record_le packages (addPackage v source packages).
Proof.
  destruct (recorded_dec v) as [[Ht Hi]|H].
  - intros k S Hk. destruct (decide (k = v)) as [->|Hne].
    + rewrite addPackage_self, Hk by assumption. eexists. split; [reflexivity|].
      cbn. set_solver.
    + rewrite addPackage_other by assumption. eauto.
  - rewrite addPackage_skip by assumption. apply record_le_refl.
Qed.

Lemma addPackage_recordable (v : value) (source : string)
    (packages : gmap value (gset string)) :
  recordable_keys packages -> recordable_keys (addPackage v source packages).
Proof.
  intros Hp k Hk.
  destruct (recorded_dec v) as [[Ht Hi]|H].
  - destruct (decide (k = v)) as [->|Hne]; [now split|].
    rewrite addPackage_other in Hk by assumption. now apply Hp.
  - rewrite addPackage_skip in Hk by assumption. now apply Hp.
Qed.

(** A fold of [addPackage] over names, as [parsePackageJson] runs it. *)
Lemma ingest_fold (P : gmap value (gset string) -> Prop) (source : string)
    (names : list string) :
  (forall v p, P p -> P (addPackage v source p)) ->
  forall packages, P packages ->
    P (fold_left (fun pk d => addPackage (VString d) source pk) names packages).
Proof.
  intros Hstep. induction names as [|d names IH]; intros packages Hp; simpl; auto.
Qed.

Lemma parsePackageJson_inv (P : gmap value (gset string) -> Prop) (site : Site) :
  (forall v source p, P p -> P (addPackage v source p)) ->
  forall packages, P packages -> P (parsePackageJson site packages).
Proof.
  intros Hstep packages Hp. unfold parsePackageJson.
  destruct (packageJson site) as [json|]; [|exact Hp].
  destruct (Json.get json "dependencies") as [deps|]; [|exact Hp].
  destruct (Json.get json "devDependencies") as [devDeps|]; [|exact Hp].
  assert (Hingest : forall (section : option JSON) p, P p ->
    P match section with
      | Some j => if truthy (Json.to_value j)
                  then fold_left (fun pk d => addPackage (VString d) "/package.json" pk)
                         (Json.keys j) p
                  else p
      | None => p
      end).
  { intros [j|] p Hq; [|exact Hq].
    destruct (truthy (Json.to_value j)); [|exact Hq].
    apply ingest_fold; auto. }
  auto.
Qed.

Lemma checkExposedFiles_inv (P : gmap value (gset string) -> Prop) (site : Site)
    (order : list string) :
  (forall v source p, P p -> P (addPackage v source p)) ->
  forall packages, P packages -> P (snd (checkExposedFiles site order packages)).
Proof.
  intros Hstep packages Hp. unfold checkExposedFiles.
  match goal with |- P (snd (fold_left ?F order ([], packages))) =>
    cut (forall acc pk, P pk -> P (snd (fold_left F order (acc, pk)))); [auto|] end.
  clear packages Hp.
  induction order as [|p later IH]; intros acc packages Hp; [exact Hp|].
  cbn [fold_left].
  assert (Hc : P (snd (checkFile site
             match root site with Normal text => text | Throw => EmptyString end
             p packages))).
  { unfold checkFile.
    destruct (HEAD site p) as [h|]; [|exact Hp].
    destruct (PackageScanner.ok h); [|exact Hp].
    destruct (GET site p) as [g|]; [|exact Hp].
    destruct (PackageScanner.ok (res_status g)); [|exact Hp].
    destruct (validate _ p g); [|exact Hp].
    cbn [snd]. destruct (String.eqb p "/package.json"); [|exact Hp].
    now apply parsePackageJson_inv. }
  destruct (checkFile _ _ p packages) as [[found|] packages']; cbn [snd] in Hc;
    now apply IH.
Qed.

Section Paths.

Variable URL_new : string -> completion URL.
Variable P : gmap value (gset string) -> Prop.
Hypothesis step : forall v source p, P p -> P (addPackage v source p).

Lemma scanCaptures_inv (matches : list string) (source : string) :
  forall packages packages',
    P packages -> scanCaptures URL_new matches source packages = Normal packages' ->
    P packages'.
Proof.
  induction matches as [|m1 later IH]; intros packages packages' Hp; cbn [scanCaptures].
  - now intros [= <-].
  - destruct (truthy (VString m1)); [|now apply IH].
    destruct (extract URL_new (VString m1)) as [pkg|];
      cbn [mbind completion_bind JS.bind]; [|discriminate].
    apply IH. now apply step.
Qed.

Lemma scanUrls_inv (urls : list string) :
  forall packages packages',
    P packages -> scanUrls URL_new urls packages = Normal packages' -> P packages'.
Proof.
  induction urls as [|url later IH]; intros packages packages' Hp; cbn [scanUrls].
  - now intros [= <-].
  - destruct (extract URL_new (VString url)) as [pkg|];
      cbn [mbind completion_bind JS.bind]; [|discriminate].
    apply IH. destruct (truthy pkg); [now apply step | exact Hp].
Qed.

Lemma scanSources_inv (sources : list JSON) (url : string) :
  forall packages packages',
    P packages -> scanSources URL_new sources url packages = Normal packages' ->
    P packages'.
Proof.
  induction sources as [|s later IH]; intros packages packages' Hp; cbn [scanSources].
  - now intros [= <-].
  - destruct (extract URL_new (Json.to_value s)) as [pkg|];
      cbn [mbind completion_bind JS.bind]; [|discriminate].
    apply IH. now apply step.
Qed.

End Paths.

End RecordFacts.

(** X12.  [addPackage] with a name that is truthy and is no internal
    sub-module leaves the name in the record with its earlier sources and
    the new one, and leaves every other entry as it was. *)
Theorem addPackage_records :
  forall (v : value) (source : string) (packages : gmap value (gset string)),
    truthy v = true ->
    isInternalModule v = false ->
    addPackage v source packages !! v
    = Some (default ∅ (packages !! v) ∪ {[source]})
    /\ forall k, k <> v -> addPackage v source packages !! k = packages !! k.
Proof.
  intros v source packages Ht Hi. split.
  - now apply RecordFacts.addPackage_self.
  - intros k Hk. now apply addPackage_other.
Qed.

Lemma addPackage_records_witness :
  addPackage (VString "react") "Inline Script" ∅ !! VString "react"
  = Some (default ∅ ((∅ : gmap value (gset string)) !! VString "react")
          ∪ {["Inline Script"]}).
Proof.
  apply (addPackage_records (VString "react") "Inline Script" ∅).
  - reflexivity.
  - reflexivity.
Defined.

(** X13.  Recording is idempotent and does not depend on the order: the
    same name and source recorded twice give the record of once, and two
    recordings give the same record in either order. *)
Theorem addPackage_idempotent_commutative :
  forall (a b : value) (s t : string) (packages : gmap value (gset string)),
    addPackage a s (addPackage a s packages) = addPackage a s packages
    /\ addPackage a s (addPackage b t packages)
       = addPackage b t (addPackage a s packages).
Proof.
  intros a b s t packages.
  destruct (RecordFacts.recorded_dec a) as [[Hta Hia]|Ha];
    [|now rewrite !(RecordFacts.addPackage_skip a) by assumption].
  split.
  - apply map_eq. intros k. destruct (decide (k = a)) as [->|Hk].
    + rewrite !RecordFacts.addPackage_self by assumption. cbn. f_equal. set_solver.
    + now rewrite !addPackage_other by assumption.
  - destruct (RecordFacts.recorded_dec b) as [[Htb Hib]|Hb];
      [|now rewrite !(RecordFacts.addPackage_skip b) by assumption].
    apply map_eq. intros k.
    destruct (decide (a = b)) as [<-|Hab].
    + destruct (decide (k = a)) as [->|Hk].
      * rewrite !RecordFacts.addPackage_self by assumption. cbn. f_equal. set_solver.
      * now rewrite !addPackage_other by assumption.
    + destruct (decide (k = a)) as [->|Hka]; [|destruct (decide (k = b)) as [->|Hkb]].
      * rewrite RecordFacts.addPackage_self by assumption.
        rewrite !(addPackage_other b a) by assumption.
        now rewrite RecordFacts.addPackage_self by assumption.
      * rewrite (addPackage_other a b) by congruence.
        rewrite !RecordFacts.addPackage_self by assumption.
        now rewrite (addPackage_other a b) by congruence.
      * now rewrite !addPackage_other by assumption.
Qed.

(** X14.  The record only grows: on every recording path, a name the
    record held is still there afterwards, with the sources it had. *)
Theorem record_grows :
  forall (URL_new : string -> completion URL) (packages : gmap value (gset string)),
    (forall v source, record_le packages (addPackage v source packages))
    /\ (forall matches source packages',
          scanCaptures URL_new matches source packages = Normal packages' ->
          record_le packages packages')
    /\ (forall urls packages',
          scanUrls URL_new urls packages = Normal packages' ->
          record_le packages packages')
    /\ (forall sources url packages',
          scanSources URL_new sources url packages = Normal packages' ->
          record_le packages packages')
    /\ (forall site, record_le packages (parsePackageJson site packages))
    /\ (forall site completion_order,
          record_le packages (snd (checkExposedFiles site completion_order packages))).
Proof.
  intros URL_new packages.
  assert (Hstep : forall v source p,
            record_le packages p -> record_le packages (addPackage v source p)).
  { intros v source p Hp. eapply RecordFacts.record_le_trans; [exact Hp|].
    apply RecordFacts.addPackage_le. }
  pose proof (RecordFacts.record_le_refl packages) as Hrefl.
  refine (conj _ (conj _ (conj _ (conj _ (conj _ _))))).
  - intros v source. apply RecordFacts.addPackage_le.
  - intros matches source packages'.
    now apply (RecordFacts.scanCaptures_inv URL_new (record_le packages)).
  - intros urls packages'.
    now apply (RecordFacts.scanUrls_inv URL_new (record_le packages)).
  - intros sources url packages'.
    now apply (RecordFacts.scanSources_inv URL_new (record_le packages)).
  - intros site. now apply (RecordFacts.parsePackageJson_inv (record_le packages)).
  - intros site order. now apply (RecordFacts.checkExposedFiles_inv (record_le packages)).
Qed.

(** X15.  No recording path, the ingestion of [/package.json] included,
    records a falsy name or an internal sub-module: a record whose keys
    are all truthy and not internal stays so. *)
Theorem internal_modules_never_recorded :
  forall (URL_new : string -> completion URL) (packages : gmap value (gset string)),
    recordable_keys packages ->
    (forall v source, recordable_keys (addPackage v source packages))
    /\ (forall matches source packages',
          scanCaptures URL_new matches source packages = Normal packages' ->
          recordable_keys packages')
    /\ (forall urls packages',
          scanUrls URL_new urls packages = Normal packages' ->
          recordable_keys packages')
    /\ (forall sources url packages',
          scanSources URL_new sources url packages = Normal packages' ->
          recordable_keys packages')
    /\ (forall site, recordable_keys (parsePackageJson site packages))
    /\ (forall site completion_order,
          recordable_keys (snd (checkExposedFiles site completion_order packages))).
Proof.
  intros URL_new packages Hp.
  pose proof RecordFacts.addPackage_recordable as Hstep.
  refine (conj _ (conj _ (conj _ (conj _ (conj _ _))))).
  - intros v source. now apply Hstep.
  - intros matches source packages'.
    now apply (RecordFacts.scanCaptures_inv URL_new recordable_keys).
  - intros urls packages'.
    now apply (RecordFacts.scanUrls_inv URL_new recordable_keys).
  - intros sources url packages'.
    now apply (RecordFacts.scanSources_inv URL_new recordable_keys).
  - intros site. now apply (RecordFacts.parsePackageJson_inv recordable_keys).
  - intros site order. now apply (RecordFacts.checkExposedFiles_inv recordable_keys).
Qed.

Lemma internal_modules_never_recorded_witness :
  recordable_keys
    (parsePackageJson
       {| root := Throw; HEAD := fun _ => Throw; GET := fun _ => Throw;
          packageJson :=
            Normal (JObject [("dependencies",
                              JObject [("prism-python", JString "1.0.0");
                                       ("react", JString "18.2.0")])]) |}
       ∅).
Proof.
  apply (internal_modules_never_recorded WHATWG.URL_new ∅).
  intros k [x Hk]. rewrite lookup_empty in Hk. discriminate Hk.
Defined.

(** X16.  Every name under [dependencies] of the [/package.json] that the
    site serves is recorded with the source [/package.json], unless it is
    empty or an internal sub-module. *)
Theorem parsePackageJson_ingests_dependencies :
  forall (site : Site) (fields deps : list (string * JSON)) (d : string)
         (packages : gmap value (gset string)),
    packageJson site = Normal (JObject fields) ->
    Json.get (JObject fields) "dependencies" = Normal (Some (JObject deps)) ->
    In d (map fst deps) ->
    d <> EmptyString ->
    isInternalModule (VString d) = false ->
    exists sources,
      parsePackageJson site packages !! VString d = Some sources
      /\ "/package.json" ∈ sources.
Proof.
  intros site fields deps d packages Hjson Hdeps Hd Hne Hint.
  unfold parsePackageJson. rewrite Hjson, Hdeps.
  cbn [Json.get Json.to_value truthy Json.keys].
  set (recorded := fun p : gmap value (gset string) =>
         exists sources, p !! VString d = Some sources /\ "/package.json" ∈ sources).
  assert (Hkeep : forall v source p, recorded p -> recorded (addPackage v source p)).
  { intros v source p (S & HS & Hin).
    destruct (RecordFacts.addPackage_le v source p _ _ HS) as (S' & HS' & Hsub).
    exists S'. split; [exact HS'|set_solver]. }
  assert (Hfold : forall names p,
            In d names \/ recorded p ->
            recorded (fold_left (fun pk d => addPackage (VString d) "/package.json" pk)
                        names p)).
  { induction names as [|x names IH]; intros p [Hin|Hrec]; cbn [fold_left].
    - destruct Hin.
    - exact Hrec.
    - destruct Hin as [->|Hin]; [|apply IH; now left].
      apply IH. right. eexists. split.
      + apply RecordFacts.addPackage_self; [|exact Hint].
        cbn. now rewrite (proj2 (String.eqb_neq _ _) Hne).
      + set_solver.
    - apply IH. right. now apply Hkeep. }
  assert (Hdone : recorded (fold_left (fun pk d => addPackage (VString d) "/package.json" pk)
                              (map fst deps) packages)) by (apply Hfold; now left).
  destruct (List.find _ (rev fields)) as [[? dev]|]; cbn [fmap option_fmap option_map snd];
    [|exact Hdone].
  destruct (truthy (Json.to_value dev)); [|exact Hdone].
  apply RecordFacts.ingest_fold; [intros; now apply Hkeep | exact Hdone].
Qed.

Lemma parsePackageJson_ingests_dependencies_witness :
  exists sources,
    parsePackageJson site_with_JSONStream ∅ !! VString "JSONStream" = Some sources
    /\ "/package.json" ∈ sources.
Proof.
  apply (parsePackageJson_ingests_dependencies site_with_JSONStream
           [("name", JString "shop");
            ("dependencies", JObject [("JSONStream", JString "^1.3.5")])]
           [("JSONStream", JString "^1.3.5")] "JSONStream" ∅).
  - reflexivity.
  - reflexivity.
  - left. reflexivity.
  - discriminate.
  - reflexivity.
Defined.

(* ===================================================================== *)
(** * More properties of the exposed-file probe and of the chunks         *)
(* ===================================================================== *)

Module ProbeFacts.

(** An invariant of the loop of [checkExposedFiles]. *)
Lemma probe_invariant (I : list ExposedFile -> gmap value (gset string) -> Prop)
    (site : Site) (rootContent : string) (order : list string) :
  (forall acc pk p, In p order -> I acc pk ->
     match checkFile site rootContent p pk with
     | (Some found, pk') => I (acc ++ [found])%list pk'
     | (None, pk') => I acc pk'
     end) ->
  forall acc pk, I acc pk ->
    let result :=
      fold_left
        (fun '(exposedFiles, packages) p =>
           match checkFile site rootContent p packages with
           | (Some found, packages) => ((exposedFiles ++ [found])%list, packages)
           | (None, packages) => (exposedFiles, packages)
           end) order (acc, pk) in
    I (fst result) (snd result).
Proof.
  induction order as [|p later IH]; intros Hstep acc pk HI; [exact HI|].
  cbn [fold_left].
  pose proof (Hstep acc pk p (or_introl eq_refl) HI) as Hp.
  destruct (checkFile site rootContent p pk) as [[found|] pk'];
    apply IH; auto; intros; apply Hstep; auto; now right.
Qed.

(** What [checkFile] has seen when it pushes an entry. *)
Lemma checkFile_some (site : Site) (rootContent p : string)
    (packages packages' : gmap value (gset string)) (found : ExposedFile) :
  checkFile site rootContent p packages = (Some found, packages') ->
  exists headStatus getRes,
    HEAD site p = Normal headStatus /\ PackageScanner.ok headStatus = true
    /\ GET site p = Normal getRes /\ PackageScanner.ok (res_status getRes) = true
    /\ validate rootContent p getRes = Some found
    /\ packages' = if String.eqb p "/package.json"
                   then parsePackageJson site packages else packages.
Proof.
  unfold checkFile.
  destruct (HEAD site p) as [headStatus|]; [|discriminate].
  destruct (PackageScanner.ok headStatus) eqn:Hh; [|discriminate].
  destruct (GET site p) as [getRes|]; [|discriminate].
  destruct (PackageScanner.ok (res_status getRes)) eqn:Hg; [|discriminate].
  destruct (validate rootContent p getRes) as [f|] eqn:Hv; [|discriminate].
  intros [= <- <-]. exists headStatus, getRes. repeat split; auto.
Qed.

Lemma checkFile_none (site : Site) (rootContent p : string)
    (packages packages' : gmap value (gset string)) :
  checkFile site rootContent p packages = (None, packages') -> packages' = packages.
Proof.
  unfold checkFile.
  destruct (HEAD site p) as [headStatus|]; [|now intros [= <-]].
  destruct (PackageScanner.ok headStatus); [|now intros [= <-]].
  destruct (GET site p) as [getRes|]; [|now intros [= <-]].
  destruct (PackageScanner.ok (res_status getRes)); [|now intros [= <-]].
  destruct (validate rootContent p getRes); [discriminate | now intros [= <-]].
Qed.

Lemma validate_some (rootContent p : string) (getRes : Response) (found : ExposedFile) :
  validate rootContent p getRes = Some found ->
  found = {| path := p; risk := risk_of p; ef_status := res_status getRes;
             contentType := res_contentType getRes |}
  /\ soft404 rootContent (res_text getRes) && negb (endsWith p ".html") = false
  /\ match Patterns.lookup (filename_of p) with
     | Patterns.Own test => test (res_text getRes) = true
     | Patterns.Inherited => False
     | Patterns.Absent => True
     end.
Proof.
  unfold validate.
  destruct (_ && _); [discriminate|].
  destruct (Patterns.lookup (filename_of p)) as [test| |].
  - destruct (test (res_text getRes)); [|discriminate]. now intros [= <-].
  - discriminate.
  - match goal with |- (if ?c then _ else _) = _ -> _ => destruct c end;
      [|discriminate]. now intros [= <-].
Qed.

(** Every configured path has a pattern of its own and does not end in
    [.html]. *)
Lemma configured_path (p : string) :
  In p CONFIG.CONFIG_FILES ->
  endsWith p ".html" = false
  /\ exists test, Patterns.lookup (filename_of p) = Patterns.Own test.
Proof.
  intros Hin.
  assert (H : forallb (fun p => negb (endsWith p ".html")
                       && match Patterns.lookup (filename_of p) with
                          | Patterns.Own _ => true
                          | _ => false
                          end) CONFIG.CONFIG_FILES = true) by (vm_compute; reflexivity).
  rewrite forallb_forall in H. specialize (H p Hin).
  apply andb_true_iff in H as [H1 H2]. apply negb_true_iff in H1.
  split; [exact H1|].
  destruct (Patterns.lookup (filename_of p)); try discriminate. eauto.
Qed.

End ProbeFacts.

(** X17.  An entry of [exposedFiles] is for a probed path whose HEAD and
    ranged GET requests both answered with a status from 200 to 299; it
    carries the status and the content type of the GET answer and the tier
    of its path. *)
Theorem exposed_files_answered_ok :
  forall (site : Site) (completion_order : list string)
         (packages : gmap value (gset string)) (f : ExposedFile),
    In f (fst (checkExposedFiles site completion_order packages)) ->
    In (path f) completion_order
    /\ exists headStatus getRes,
         HEAD site (path f) = Normal headStatus
         /\ 200 <= headStatus <= 299
         /\ GET site (path f) = Normal getRes
         /\ 200 <= res_status getRes <= 299
         /\ f = {| path := path f; risk := risk_of (path f);
                   ef_status := res_status getRes;
                   contentType := res_contentType getRes |}.
Proof.
  intros site order packages f Hin.
  set (Q := fun f : ExposedFile =>
         In (path f) order
         /\ exists headStatus getRes,
              HEAD site (path f) = Normal headStatus
              /\ 200 <= headStatus <= 299
              /\ GET site (path f) = Normal getRes
              /\ 200 <= res_status getRes <= 299
              /\ f = {| path := path f; risk := risk_of (path f);
                        ef_status := res_status getRes;
                        contentType := res_contentType getRes |}).
  cut (Forall Q (fst (checkExposedFiles site order packages))).
  { intros HF. exact (proj1 (List.Forall_forall _ _) HF f Hin). }
  unfold checkExposedFiles.
  apply (ProbeFacts.probe_invariant (fun acc _ => Forall Q acc)); [|constructor].
  intros acc pk p Hp Hacc.
  destruct (checkFile site _ p pk) as [[found|] pk'] eqn:Hc; [|exact Hacc].
  apply Forall_app. split; [exact Hacc|]. constructor; [|constructor].
  destruct (ProbeFacts.checkFile_some _ _ _ _ _ _ Hc)
    as (h & g & Hh & Hhok & Hg & Hgok & Hv & _).
  destruct (ProbeFacts.validate_some _ _ _ _ Hv) as (-> & _).
  unfold PackageScanner.ok in *. unfold Q. cbn [path].
  split; [exact Hp|]. exists h, g. repeat split; auto; bool_to_Z; lia.
Qed.

(** X18.  For the configured paths, an entry of [exposedFiles] is for a
    body that matches the pattern of its file name in
    [CONFIG.CONFIG_PATTERNS] and that is no soft 404: every configured
    path has a pattern, and none ends in [.html]. *)
Theorem exposed_files_match_signature :
  forall (site : Site) (completion_order : list string)
         (packages : gmap value (gset string)) (f : ExposedFile),
    (forall p, In p completion_order -> In p CONFIG.CONFIG_FILES) ->
    In f (fst (checkExposedFiles site completion_order packages)) ->
    exists getRes test,
      GET site (path f) = Normal getRes
      /\ Patterns.lookup (filename_of (path f)) = Patterns.Own test
      /\ test (res_text getRes) = true
      /\ soft404 (match root site with Normal text => text | Throw => EmptyString end)
           (res_text getRes) = false.
Proof.
  intros site order packages f Hconf Hin.
  set (rootContent := match root site with Normal text => text | Throw => EmptyString end).
  set (Q := fun f : ExposedFile =>
         exists getRes test,
           GET site (path f) = Normal getRes
           /\ Patterns.lookup (filename_of (path f)) = Patterns.Own test
           /\ test (res_text getRes) = true
           /\ soft404 rootContent (res_text getRes) = false).
  cut (Forall Q (fst (checkExposedFiles site order packages))).
  { intros HF. exact (proj1 (List.Forall_forall _ _) HF f Hin). }
  unfold checkExposedFiles. fold rootContent.
  apply (ProbeFacts.probe_invariant (fun acc _ => Forall Q acc)); [|constructor].
  intros acc pk p Hp Hacc.
  destruct (checkFile site _ p pk) as [[found|] pk'] eqn:Hc; [|exact Hacc].
  apply Forall_app. split; [exact Hacc|]. constructor; [|constructor].
  destruct (ProbeFacts.checkFile_some _ _ _ _ _ _ Hc)
    as (h & g & _ & _ & Hg & _ & Hv & _).
  destruct (ProbeFacts.validate_some _ _ _ _ Hv) as (-> & Hsoft & Hpat).
  destruct (ProbeFacts.configured_path p (Hconf p Hp)) as (Hhtml & test & Htest).
  rewrite Htest in Hpat. rewrite Hhtml, andb_true_r in Hsoft.
  exists g, test. cbn [path]. auto.
Qed.

(** X19.  The probe touches the record only through [/package.json]: when
    no entry of [exposedFiles] is for [/package.json], the record is the
    one the probe started with. *)
Theorem probe_leaves_record :
  forall (site : Site) (completion_order : list string)
         (packages : gmap value (gset string)),
    ~ In "/package.json"
         (map path (fst (checkExposedFiles site completion_order packages))) ->
    snd (checkExposedFiles site completion_order packages) = packages.
Proof.
  intros site order packages Hno.
  cut (snd (checkExposedFiles site order packages) = packages
       \/ In "/package.json" (map path (fst (checkExposedFiles site order packages)))).
  { intros [H|H]; [exact H | contradiction]. }
  unfold checkExposedFiles.
  apply (ProbeFacts.probe_invariant
           (fun acc pk => pk = packages \/ In "/package.json" (map path acc)));
    [|now left].
  intros acc pk p _ Hacc.
  destruct (checkFile site _ p pk) as [[found|] pk'] eqn:Hc.
  - destruct (ProbeFacts.checkFile_some _ _ _ _ _ _ Hc)
      as (h & g & _ & _ & _ & _ & Hv & ->).
    destruct (ProbeFacts.validate_some _ _ _ _ Hv) as (-> & _).
    rewrite map_app, in_app_iff. cbn [map path In].
    destruct (String.eqb_spec p "/package.json") as [->|_].
    + right. right. now left.
    + destruct Hacc as [->|Hacc]; [now left | right; now left].
  - now rewrite (ProbeFacts.checkFile_none _ _ _ _ _ Hc).
Qed.

Lemma exposed_files_answered_ok_witness :
  exists headStatus getRes,
    HEAD spa_site_no_baseline "/.npmrc" = Normal headStatus
    /\ 200 <= headStatus <= 299
    /\ GET spa_site_no_baseline "/.npmrc" = Normal getRes
    /\ 200 <= res_status getRes <= 299.
Proof.
  destruct (exposed_files_answered_ok spa_site_no_baseline ["/.env"; "/.npmrc"] ∅
              {| path := "/.npmrc"; risk := HIGH; ef_status := 200;
                 contentType := Some "text/html" |})
    as (_ & headStatus & getRes & H1 & H2 & H3 & H4 & _).
  - vm_compute. left. reflexivity.
  - exists headStatus, getRes. repeat split; solve [apply H1 | apply H2 | apply H3 | apply H4].
Defined.

Lemma exposed_files_match_signature_witness :
  exists getRes test,
    GET spa_site_no_baseline "/.npmrc" = Normal getRes
    /\ Patterns.lookup ".npmrc" = Patterns.Own test
    /\ test (res_text getRes) = true.
Proof.
  destruct (exposed_files_match_signature spa_site_no_baseline ["/.env"; "/.npmrc"] ∅
              {| path := "/.npmrc"; risk := HIGH; ef_status := 200;
                 contentType := Some "text/html" |})
    as (getRes & test & H1 & H2 & H3 & _).
  - intros p [<-|[<-|[]]]; vm_compute; tauto.
  - vm_compute. left. reflexivity.
  - exists getRes, test. repeat split; assumption.
Defined.

Lemma probe_leaves_record_witness :
  snd (checkExposedFiles spa_site_no_baseline ["/.env"; "/.npmrc"] ∅) = ∅.
Proof.
  apply (probe_leaves_record spa_site_no_baseline ["/.env"; "/.npmrc"] ∅).
  vm_compute. intros [H|[]]. discriminate H.
Defined.

Module ChunkFacts.

Import Crawl.

Lemma slice_chunk {A} (xs : list A) (i : nat) :
  slice xs i (i + chunkSize) = firstn chunkSize (skipn i xs).
Proof. unfold slice. f_equal. lia. Qed.

Lemma chunksFrom_concat (urls : list string) :
  forall fuel i, (length urls - i <= fuel)%nat ->
    concat (chunksFrom fuel i urls) = skipn i urls.
Proof.
  induction fuel as [|fuel IH]; intros i Hfuel; cbn [chunksFrom].
  - cbn [concat]. symmetry. apply skipn_all2. lia.
  - destruct (Nat.ltb_spec i (length urls)) as [Hlt|Hge].
    + cbn [concat]. rewrite slice_chunk, IH by (unfold chunkSize; lia).
      rewrite (Nat.add_comm i chunkSize), <- List.skipn_skipn.
      apply List.firstn_skipn.
    + cbn [concat]. symmetry. apply skipn_all2. lia.
Qed.

Lemma chunksFrom_sizes (urls : list string) :
  forall fuel i,
    Forall (fun chunk => (1 <= length chunk <= chunkSize)%nat) (chunksFrom fuel i urls).
Proof.
  induction fuel as [|fuel IH]; intros i; cbn [chunksFrom]; [constructor|].
  destruct (Nat.ltb_spec i (length urls)) as [Hlt|Hge]; [|constructor].
  constructor; [|apply IH].
  rewrite slice_chunk, List.length_firstn, List.length_skipn. unfold chunkSize. lia.
Qed.

End ChunkFacts.

(** X20.  The chunks of [scanAllDiscoveredFiles] partition the list of
    URLs: put end to end they give the list back, in order, and each holds
    from one to five URLs. *)
Theorem chunks_partition :
  forall urls : list string,
    concat (Crawl.chunks urls) = urls
    /\ Forall (fun chunk => (1 <= length chunk <= 5)%nat) (Crawl.chunks urls).
Proof.
  intros urls. split.
  - unfold Crawl.chunks. rewrite ChunkFacts.chunksFrom_concat by lia. reflexivity.
  - apply ChunkFacts.chunksFrom_sizes.
Qed.

(* ===================================================================== *)
(** * More properties of the risk rules and of the registry lookup        *)
(* ===================================================================== *)

(** X21.  The three fields of an assessment agree: the package is
    suspicious exactly when a reason is given, exactly when the level is
    not [LOW]; the level is [MEDIUM] exactly when the name is suspicious,
    [HIGH] exactly when it is not and the package has fewer than 100
    downloads and no repository; [assessRisk] never gives [CRITICAL]. *)
Theorem assessRisk_fields_agree :
  forall (info : PackageInfo) (downloads : Z),
    let a := RiskAssessor.assessRisk info downloads in
    (suspicious a = true <-> riskReasons a <> [])
    /\ (suspicious a = true <-> riskLevel a <> LOW)
    /\ (riskLevel a = MEDIUM <-> suspicious_name (info_name info) = true)
    /\ (riskLevel a = HIGH <->
          suspicious_name (info_name info) = false
          /\ downloads < 100 /\ truthy (info_repository info) = false)
    /\ riskLevel a <> CRITICAL.
Proof.
  intros info downloads a. subst a. unfold RiskAssessor.assessRisk.
  unfold CONFIG.MIN_DOWNLOADS_SUSPICIOUS.
  destruct (Z.ltb_spec downloads 100) as [Hd|Hd];
    destruct (truthy (info_repository info));
    destruct (suspicious_name (info_name info));
    cbn; repeat split; try discriminate; try congruence; try lia;
    try (intros (? & ? & ?)); try discriminate; try lia.
Qed.

Module LookupFacts.

Import MessageHandler.

Lemma assessRisk_not_critical (info : PackageInfo) (downloads : Z) :
  riskLevel (RiskAssessor.assessRisk info downloads) <> CRITICAL.
Proof.
  unfold RiskAssessor.assessRisk.
  destruct (_ && _); destruct (suspicious_name _); discriminate.
Qed.

(** The results of [handleAnalyzePackage], by what was fetched. *)
Lemma handleAnalyzePackage_cases (request : Request)
    (registry : fetched RegistryResponse) (downloadsPoint : fetched DownloadsResponse) :
  let r := handleAnalyzePackage request registry downloadsPoint in
  (exists message, r = error_result (name request) message (sources request)
                   /\ forall res, registry = Fetched res -> status res <> 404)
  \/ (exists res, registry = Fetched res /\ status res = 404
                  /\ r_error r = None /\ isUnregistered r = true
                  /\ r_riskLevel r = Some CRITICAL)
  \/ (exists res info downloads,
        registry = Fetched res /\ status res <> 404 /\ ok (status res) = true
        /\ json res = Fetched info
        /\ r_error r = None /\ isUnregistered r = false
        /\ r_weeklyDownloads r = Some downloads
        /\ r_suspicious r = Some (suspicious (RiskAssessor.assessRisk info downloads))
        /\ r_riskLevel r = Some (riskLevel (RiskAssessor.assessRisk info downloads))).
Proof.
  intros r. subst r. unfold handleAnalyzePackage.
  destruct registry as [res|message].
  - destruct (Z.eqb_spec (status res) 404) as [H404|H404].
    + right. left. exists res. auto.
    + destruct (status res =? 429).
      { left. eexists. split; [reflexivity|]. now intros ? [= <-]. }
      destruct (ok (status res)) eqn:Hok; cbn [negb].
      2:{ left. eexists. split; [reflexivity|]. now intros ? [= <-]. }
      destruct (json res) as [info|message] eqn:Hjson.
      2:{ left. eexists. split; [reflexivity|]. now intros ? [= <-]. }
      right. right. exists res, info. eexists.
      repeat split; try reflexivity; auto.
  - left. exists message. split; [reflexivity | discriminate].
Qed.

Lemma handleAnalyzePackage_echo (request : Request)
    (registry : fetched RegistryResponse) (downloadsPoint : fetched DownloadsResponse) :
  r_name (handleAnalyzePackage request registry downloadsPoint) = name request
  /\ r_sources (handleAnalyzePackage request registry downloadsPoint) = sources request.
Proof.
  unfold handleAnalyzePackage.
  destruct registry as [res|message]; [|now split].
  destruct (status res =? 404); [now split|].
  destruct (status res =? 429); [now split|].
  destruct (negb (ok (status res))); [now split|].
  destruct (json res); now split.
Qed.

End LookupFacts.

(** X22.  An answer of [handleAnalyzePackage] gives the name and the
    sources of the request back; it has an [error] or a [riskLevel], never
    both; and the level is [CRITICAL], and [isUnregistered] set, exactly
    when the registry answered 404. *)
Theorem handleAnalyzePackage_answers :
  forall (request : MessageHandler.Request)
         (registry : MessageHandler.fetched MessageHandler.RegistryResponse)
         (downloadsPoint : MessageHandler.fetched MessageHandler.DownloadsResponse),
    let r := MessageHandler.handleAnalyzePackage request registry downloadsPoint in
    MessageHandler.r_name r = MessageHandler.name request
    /\ MessageHandler.r_sources r = MessageHandler.sources request
    /\ (MessageHandler.r_error r = None <-> MessageHandler.r_riskLevel r <> None)
    /\ (MessageHandler.r_riskLevel r = Some CRITICAL <->
          exists res, registry = MessageHandler.Fetched res
                      /\ MessageHandler.status res = 404)
    /\ (MessageHandler.isUnregistered r = true <->
          MessageHandler.r_riskLevel r = Some CRITICAL).
Proof.
  intros request registry downloadsPoint.
  pose proof (LookupFacts.handleAnalyzePackage_echo request registry downloadsPoint)
    as [Hname Hsources].
  pose proof (LookupFacts.handleAnalyzePackage_cases request registry downloadsPoint)
    as Hcases.
  cbv zeta in *.
  revert Hname Hsources Hcases.
  generalize (MessageHandler.handleAnalyzePackage request registry downloadsPoint) as r.
  intros r Hname Hsources
    [(message & Hr & Hno) | [(res & -> & H404 & He & Hu & Hl)
       | (res & info & downloads & -> & H404 & Hok & Hj & He & Hu & Hw & Hs & Hl)]];
    (split; [exact Hname|]); (split; [exact Hsources|]).
  - rewrite Hr. cbn. refine (conj _ (conj _ _)).
    + split; [discriminate | congruence].
    + split; [discriminate|]. intros (res & -> & H404). exfalso. exact (Hno res eq_refl H404).
    + split; discriminate.
  - refine (conj _ (conj _ _)).
    + rewrite He, Hl. split; [discriminate | reflexivity].
    + rewrite Hl. split; [eauto | reflexivity].
    + rewrite Hu, Hl. tauto.
  - assert (Hnc : riskLevel (RiskAssessor.assessRisk info downloads) <> CRITICAL)
      by apply LookupFacts.assessRisk_not_critical.
    refine (conj _ (conj _ _)).
    + rewrite He, Hl. split; [discriminate | reflexivity].
    + rewrite Hl. split.
      * intros [= Hc]. contradiction.
      * intros (res' & [= <-] & Hs'). contradiction.
    + rewrite Hu, Hl. split; [discriminate|]. intros [= Hc]. contradiction.
Qed.

(** X23.  When the registry knows the package, a failure of the downloads
    endpoint (the request fails, the status is outside 200..299, or the
    body cannot be read) counts as 0 downloads: the answer is the one for
    a package with no downloads, so a package without repository is
    reported as suspicious. *)
Theorem handleAnalyzePackage_downloads_failure :
  forall (request : MessageHandler.Request) (res : MessageHandler.RegistryResponse)
         (info : PackageInfo)
         (downloadsPoint : MessageHandler.fetched MessageHandler.DownloadsResponse),
    MessageHandler.ok (MessageHandler.status res) = true ->
    MessageHandler.json res = MessageHandler.Fetched info ->
    (forall dlRes, downloadsPoint = MessageHandler.Fetched dlRes ->
       MessageHandler.ok (MessageHandler.dl_status dlRes) = false
       \/ exists message, MessageHandler.dl_downloads dlRes = MessageHandler.Failed message) ->
    let r := MessageHandler.handleAnalyzePackage request
               (MessageHandler.Fetched res) downloadsPoint in
    r = MessageHandler.handleAnalyzePackage request (MessageHandler.Fetched res)
          (MessageHandler.Fetched {| MessageHandler.dl_status := 200;
                                     MessageHandler.dl_downloads := MessageHandler.Fetched 0 |})
    /\ MessageHandler.r_weeklyDownloads r = Some 0
    /\ (truthy (info_repository info) = false ->
        MessageHandler.r_suspicious r = Some true).
Proof.
  intros request res info downloadsPoint Hok Hjson Hdl r. subst r.
  unfold MessageHandler.handleAnalyzePackage.
  assert (H404 : (MessageHandler.status res =? 404) = false)
    by (unfold MessageHandler.ok in Hok; bool_to_Z; lia).
  assert (H429 : (MessageHandler.status res =? 429) = false)
    by (unfold MessageHandler.ok in Hok; bool_to_Z; lia).
  rewrite H404, H429, Hok, Hjson. cbn [negb].
  assert (Hzero : match downloadsPoint with
                  | MessageHandler.Fetched dlRes =>
                      if MessageHandler.ok (MessageHandler.dl_status dlRes) then
                        match MessageHandler.dl_downloads dlRes with
                        | MessageHandler.Fetched n => n
                        | MessageHandler.Failed _ => 0
                        end
                      else 0
                  | MessageHandler.Failed _ => 0
                  end = 0).
  { destruct downloadsPoint as [dlRes|]; [|reflexivity].
    destruct (Hdl dlRes eq_refl) as [H|(message & H)]; rewrite H; [reflexivity|].
    now destruct (MessageHandler.ok (MessageHandler.dl_status dlRes)). }
  rewrite Hzero. cbn.
  repeat split. intros Hrepo. f_equal.
  unfold RiskAssessor.assessRisk. rewrite Hrepo. cbn.
  now destruct (suspicious_name _).
Qed.

Lemma handleAnalyzePackage_downloads_failure_witness :
  MessageHandler.r_weeklyDownloads
    (MessageHandler.handleAnalyzePackage
       {| MessageHandler.name := "left-pad"; MessageHandler.sources := ["/app.js"] |}
       (MessageHandler.Fetched
          {| MessageHandler.status := 200;
             MessageHandler.json :=
               MessageHandler.Fetched {| info_name := VString "left-pad";
                                         info_repository := VUndefined;
                                         info_latest := VString "1.3.0" |} |})
       (MessageHandler.Fetched
          {| MessageHandler.dl_status := 503;
             MessageHandler.dl_downloads := MessageHandler.Fetched 2000000 |}))
  = Some 0.
Proof.
  apply (handleAnalyzePackage_downloads_failure
           {| MessageHandler.name := "left-pad"; MessageHandler.sources := ["/app.js"] |}
           {| MessageHandler.status := 200;
              MessageHandler.json :=
                MessageHandler.Fetched {| info_name := VString "left-pad";
                                          info_repository := VUndefined;
                                          info_latest := VString "1.3.0" |} |}
           {| info_name := VString "left-pad"; info_repository := VUndefined;
              info_latest := VString "1.3.0" |}).
  - reflexivity.
  - reflexivity.
  - intros dlRes [= <-]. left. reflexivity.
Defined.

(* ===================================================================== *)
(** * The cache of the analysis                                           *)
(* ===================================================================== *)

Module CacheFacts.

Import MessageHandler Analysis.


(** The four ways [analyzePackage] ends. *)
Lemma analyzePackage_cases (fuel : nat) (late : nat -> Z)
    (sendMessage : string -> list string -> fetched Result) (latency now : Z)
    (name : string) (sources : list string) (scanner scanner' : Scanner)
    (result : Result) :
  analyzePackage fuel late sendMessage latency now name sources scanner
  = Some (result, scanner') ->
  (exists cached, cache scanner !! name = Some cached
                  /\ now - timestamp cached < CACHE_DURATION
                  /\ result = with_sources (data cached) sources
                  /\ scanner' = scanner)
  \/ (exists rl grantedAt,
        RateLimiter.waitForSlot fuel late now (rateLimiter scanner) = Some (rl, grantedAt)
        /\ (forall cached, cache scanner !! name = Some cached ->
              CACHE_DURATION <= now - timestamp cached)
        /\ rateLimiter scanner' = rl
        /\ ((sendMessage name sources = Fetched result
             /\ has_error result = false
             /\ cache scanner'
                = <[name := {| data := result;
                               timestamp := grantedAt + Z.max 0 latency |}]> (cache scanner))
            \/ (cache scanner' = cache scanner
                /\ exists message, result = error_result name message sources
                   /\ (sendMessage name sources = Failed message
                       \/ exists answer, sendMessage name sources = Fetched answer
                            /\ r_error answer = Some message
                            /\ message <> EmptyString)))).
Proof.
  unfold analyzePackage.
  assert (Hlookup :
    forall (Hstale : forall cached, cache scanner !! name = Some cached ->
                       CACHE_DURATION <= now - timestamp cached),
    match RateLimiter.waitForSlot fuel late now (rateLimiter scanner) with
    | None => None
    | Some (rl, grantedAt) =>
        match sendMessage name sources with
        | Fetched result =>
            if has_error result then
              Some (error_result name (default EmptyString (r_error result)) sources,
                    {| rateLimiter := rl; cache := cache scanner |})
            else
              Some (result,
                    {| rateLimiter := rl;
                       cache := cacheResult (grantedAt + Z.max 0 latency) name result
                                  (cache scanner) |})
        | Failed message =>
            Some (error_result name message sources,
                  {| rateLimiter := rl; cache := cache scanner |})
        end
    end = Some (result, scanner') ->
    exists rl grantedAt,
        RateLimiter.waitForSlot fuel late now (rateLimiter scanner) = Some (rl, grantedAt)
        /\ (forall cached, cache scanner !! name = Some cached ->
              CACHE_DURATION <= now - timestamp cached)
        /\ rateLimiter scanner' = rl
        /\ ((sendMessage name sources = Fetched result
             /\ has_error result = false
             /\ cache scanner'
                = <[name := {| data := result;
                               timestamp := grantedAt + Z.max 0 latency |}]> (cache scanner))
            \/ (cache scanner' = cache scanner
                /\ exists message, result = error_result name message sources
                   /\ (sendMessage name sources = Failed message
                       \/ exists answer, sendMessage name sources = Fetched answer
                            /\ r_error answer = Some message
                            /\ message <> EmptyString)))).
  { intros Hstale.
    destruct (RateLimiter.waitForSlot fuel late now (rateLimiter scanner))
      as [[rl grantedAt]|]; [|discriminate].
    destruct (sendMessage name sources) as [answer|message] eqn:Hsend.
    - destruct (has_error answer) eqn:Herr.
      + intros [= <- <-]. exists rl, grantedAt.
        refine (conj eq_refl (conj Hstale (conj eq_refl _))). right.
        split; [reflexivity|]. unfold has_error in Herr.
        destruct (r_error answer) as [e|] eqn:He; [|discriminate].
        exists e. split; [reflexivity|]. right. exists answer.
        refine (conj eq_refl (conj He _)).
        intros ->. discriminate.
      + intros [= <- <-]. exists rl, grantedAt.
        refine (conj eq_refl (conj Hstale (conj eq_refl _))). left. auto.
    - intros [= <- <-]. exists rl, grantedAt.
      refine (conj eq_refl (conj Hstale (conj eq_refl _))). right.
      split; [reflexivity|]. exists message. auto. }
  destruct (cache scanner !! name) as [cached|] eqn:Hc.
  - destruct (Z.ltb_spec (now - timestamp cached) CACHE_DURATION) as [Hfresh|Hstale].
    + intros [= <- <-]. left. exists cached. auto.
    + intros H. right. apply Hlookup; [|exact H]. now intros ? [= <-].
  - intros H. right. apply Hlookup; [|exact H]. discriminate.
Qed.

End CacheFacts.


(** X25.  A failure is not cached: a call that returns an [error] leaves
    the cache as it was, and a cache that holds no answer with an [error]
    holds none after the call. *)
Theorem analyzePackage_failures_not_cached :
  forall (fuel : nat) (late : nat -> Z)
         (sendMessage : string -> list string -> MessageHandler.fetched MessageHandler.Result)
         (latency now : Z) (name : string) (sources : list string)
         (scanner scanner' : Analysis.Scanner) (result : MessageHandler.Result),
    (forall n cached, Analysis.cache scanner !! n = Some cached ->
       Analysis.has_error (Analysis.data cached) = false) ->
    Analysis.analyzePackage fuel late sendMessage latency now name sources scanner
    = Some (result, scanner') ->
    (Analysis.has_error result = true -> Analysis.cache scanner' = Analysis.cache scanner)
    /\ (forall n cached, Analysis.cache scanner' !! n = Some cached ->
          Analysis.has_error (Analysis.data cached) = false).
Proof.
  intros fuel late sendMessage latency now name sources scanner scanner' result
         Hclean Hcall.
  destruct (CacheFacts.analyzePackage_cases _ _ _ _ _ _ _ _ _ _ Hcall)
    as [(cached & Hc & Hfresh & -> & ->) | (rl & grantedAt & Hwait & _ & _ & Hend)].
  { split; [reflexivity | exact Hclean]. }
  destruct Hend as [(Hs & Herr & Hcache) | (Hcache & _)].
  - split; [congruence|]. intros n cached. rewrite Hcache.
    destruct (decide (n = name)) as [->|Hn].
    + rewrite lookup_insert_eq. now intros [= <-].
    + rewrite lookup_insert_ne by congruence. apply Hclean.
  - rewrite Hcache. split; [reflexivity | exact Hclean].
Qed.


Lemma analyzePackage_failures_not_cached_witness :
  match Analysis.analyzePackage 1 (fun _ => 0)
          (fun _ _ => MessageHandler.Failed "Could not establish connection")
          40 1000 "left-pad" ["/app.js"]
          {| Analysis.rateLimiter := RateLimiter.new 10 1000; Analysis.cache := ∅ |} with
  | Some (result, scanner') => Analysis.cache scanner' = ∅
  | None => False
  end.
Proof.
  destruct (Analysis.analyzePackage 1 (fun _ => 0)
              (fun _ _ => MessageHandler.Failed "Could not establish connection")
              40 1000 "left-pad" ["/app.js"]
              {| Analysis.rateLimiter := RateLimiter.new 10 1000; Analysis.cache := ∅ |})
    as [[result scanner']|] eqn:Hcall.
  - refine (proj1 (analyzePackage_failures_not_cached 1 (fun _ => 0)
                     (fun _ _ => MessageHandler.Failed "Could not establish connection")
                     40 1000 "left-pad" ["/app.js"]
                     {| Analysis.rateLimiter := RateLimiter.new 10 1000;
                        Analysis.cache := ∅ |}
                     scanner' result _ Hcall) _).
    + intros n cached Hc. cbn in Hc. rewrite lookup_empty in Hc. discriminate.
    + pose proof Hcall as Hresult. vm_compute in Hresult.
      injection Hresult as <- _. reflexivity.
  - vm_compute in Hcall. discriminate.
Defined.

(* ===================================================================== *)
(** * The state of the background worker                                  *)
(* ===================================================================== *)

Module BackgroundFacts.

Import Background.

(** What the loop of [cleanup] has done after any part of its visits. *)
Lemma cleanup_fold (now : Z) (st : State) (visited : gmap Z TabResult) :
  let stale (tabId : Z) :=
    match visited !! tabId with
    | Some data => now - tr_timestamp data >? maxAge
    | None => false
    end in
  let st' := map_fold (fun tabId data st =>
                         if now - tr_timestamp data >? maxAge
                         then removeTab tabId st else st) st visited in
  forall tabId,
    tabResults st' !! tabId = (if stale tabId then None else tabResults st !! tabId)
    /\ scanTimestamps st' !! tabId = (if stale tabId then None else scanTimestamps st !! tabId)
    /\ notificationIds st' !! tabId
       = (if stale tabId then None else notificationIds st !! tabId).
Proof.
  cbv zeta.
  apply (map_fold_weak_ind
           (fun (st' : State) (visited : gmap Z TabResult) =>
              forall tabId,
                tabResults st' !! tabId
                = (if match visited !! tabId with
                      | Some data => now - tr_timestamp data >? maxAge
                      | None => false
                      end then None else tabResults st !! tabId)
                /\ scanTimestamps st' !! tabId
                   = (if match visited !! tabId with
                         | Some data => now - tr_timestamp data >? maxAge
                         | None => false
                         end then None else scanTimestamps st !! tabId)
                /\ notificationIds st' !! tabId
                   = (if match visited !! tabId with
                         | Some data => now - tr_timestamp data >? maxAge
                         | None => false
                         end then None else notificationIds st !! tabId))).
  - intros tabId. rewrite lookup_empty. auto.
  - intros i data m r Hi IH tabId.
    destruct (IH tabId) as (IH1 & IH2 & IH3).
    destruct (decide (tabId = i)) as [->|Hne].
    + rewrite lookup_insert_eq. rewrite Hi in IH1, IH2, IH3.
      destruct (now - tr_timestamp data >? maxAge); [|auto].
      unfold removeTab. cbn. now rewrite !lookup_delete_eq.
    + rewrite lookup_insert_ne by congruence.
      destruct (now - tr_timestamp data >? maxAge); [|auto].
      unfold removeTab. cbn. now rewrite !lookup_delete_ne by congruence.
Qed.

End BackgroundFacts.

(** X26.  The cooldown of a tab: after [recordScan] at the time [now], a
    scan of that tab is allowed again only more than 5000 ms later (or at
    once, were the recorded time 0); the other tabs are not affected, and
    [removeTab] lifts the cooldown. *)
Theorem canScan_cooldown :
  forall (now now' tabId other : Z) (st : Background.State),
    (Background.canScan now' tabId (Background.recordScan now tabId st) = true
       <-> now = 0 \/ 5000 < now' - now)
    /\ (other <> tabId ->
        Background.canScan now' other (Background.recordScan now tabId st)
        = Background.canScan now' other st)
    /\ Background.canScan now' tabId (Background.removeTab tabId st) = true.
Proof.
  intros now now' tabId other st. unfold Background.canScan. cbn.
  refine (conj _ (conj _ _)).
  - rewrite lookup_insert_eq.
    destruct (Z.eqb_spec now 0) as [->|Hne]; [tauto|].
    destruct (Z.gtb_spec (now' - now) 5000); split; try tauto; try lia;
      try discriminate.
  - intros Hne. now rewrite lookup_insert_ne by congruence.
  - now rewrite lookup_delete_eq.
Qed.

Lemma canScan_cooldown_witness :
  Background.canScan 9000 8 (Background.recordScan 5000 7 Background.empty)
  = Background.canScan 9000 8 Background.empty.
Proof.
  destruct (canScan_cooldown 5000 9000 7 8 Background.empty) as (_ & H & _).
  apply H. discriminate.
Defined.

(** X27.  [cleanup] removes the tabs whose stored result is more than ten
    minutes old, with their scan time and their notification, and leaves
    every other entry of the three maps as it was; a tab without stored
    result keeps its scan time whatever its age. *)
Theorem cleanup_removes_stale_tabs :
  forall (now : Z) (st : Background.State) (tabId : Z),
    let stale :=
      match Background.getTabResult tabId st with
      | Some data => 600000 <? now - Background.tr_timestamp data
      | None => false
      end in
    let st' := Background.cleanup now st in
    Background.tabResults st' !! tabId
    = (if stale then None else Background.tabResults st !! tabId)
    /\ Background.scanTimestamps st' !! tabId
       = (if stale then None else Background.scanTimestamps st !! tabId)
    /\ Background.notificationIds st' !! tabId
       = (if stale then None else Background.notificationIds st !! tabId).
Proof.
  intros now st tabId. cbv zeta.
  pose proof (BackgroundFacts.cleanup_fold now st (Background.tabResults st) tabId) as H.
  cbv zeta in H. unfold Background.cleanup, Background.getTabResult.
  replace (match Background.tabResults st !! tabId with
           | Some data => 600000 <? now - Background.tr_timestamp data
           | None => false
           end)
    with (match Background.tabResults st !! tabId with
          | Some data => now - Background.tr_timestamp data >? Background.maxAge
          | None => false
          end); [exact H|].
  destruct (Background.tabResults st !! tabId) as [data|]; [|reflexivity].
  unfold Background.maxAge. now rewrite Z.gtb_ltb.
Qed.

(** X28.  What [notifyRisks] stores under the tab of the sender is what
    [getResults] gives back for that tab, stamped with the time of the
    call; the answer counts the findings of both lists, and the badge shows
    that count ("99+" above 99) on a colour that is never the green of
    [getRiskColor], or is cleared when there is no finding.  The results of
    the other tabs are not touched. *)
Theorem notifyRisks_then_getResults :
  forall (now tabId other : Z) (request : Background.NotifyRequest)
         (st : Background.State),
    tabId <> 0 ->
    let suspicious := default [] (Background.nr_suspiciousPackages request) in
    let exposed := default [] (Background.nr_exposedFiles request) in
    let total := Z.of_nat (length suspicious + length exposed) in
    let '(answer, badge, st') :=
      Background.handleNotifyRisks now request (Some tabId) st in
    answer = Background.Stored total
    /\ Background.handleGetResults tabId st'
       = Background.Found {| Background.suspiciousPackages := suspicious;
                             Background.tr_exposedFiles := exposed;
                             Background.tr_timestamp := now |}
    /\ (other <> tabId ->
        Background.handleGetResults other st' = Background.handleGetResults other st)
    /\ (exists text colour,
          badge = Some (text, colour)
          /\ colour <> Some "#388e3c"
          /\ (total = 0 -> text = EmptyString /\ colour = None)
          /\ (0 < total <= 99 -> text = pretty total /\ colour <> None)
          /\ (99 < total -> text = "99+" /\ colour = Some "#d32f2f")).
Proof.
  intros now tabId other request st Hid. cbv zeta.
  unfold Background.handleNotifyRisks.
  rewrite (proj2 (Z.eqb_neq _ _) Hid).
  set (suspicious := default [] (Background.nr_suspiciousPackages request)).
  set (exposed := default [] (Background.nr_exposedFiles request)).
  rewrite <- Nat2Z.inj_add.
  set (total := Z.of_nat (length suspicious + length exposed)).
  assert (Hpos : 0 <= total) by (subst total; lia).
  refine (conj eq_refl (conj _ (conj _ _))).
  - unfold Background.handleGetResults, Background.getTabResult,
      Background.setTabResult. cbn. now rewrite lookup_insert_eq.
  - intros Hne. unfold Background.handleGetResults, Background.getTabResult,
      Background.setTabResult. cbn. now rewrite lookup_insert_ne by congruence.
  - unfold Background.updateBadge, Background.getRiskColor.
    destruct (Z.gtb_spec total 0) as [H0|H0].
    + destruct (Z.gtb_spec total 99) as [H99|H99].
      * eexists _, _. split; [reflexivity|].
        destruct (Z.geb_spec total 5); [|lia].
        repeat split; try discriminate; try lia.
      * eexists _, _. split; [reflexivity|].
        destruct (Z.geb_spec total 5); [|destruct (Z.geb_spec total 3);
          [|destruct (Z.geb_spec total 1); [|lia]]];
        repeat split; try discriminate; try lia.
    + eexists _, _. split; [reflexivity|].
      repeat split; try discriminate; try lia.
Qed.

Lemma notifyRisks_then_getResults_witness :
  Background.handleGetResults 7
    (snd (Background.handleNotifyRisks 1000
            {| Background.nr_suspiciousPackages := None;
               Background.nr_exposedFiles := None |} (Some 7) Background.empty))
  = Background.Found {| Background.suspiciousPackages := [];
                        Background.tr_exposedFiles := [];
                        Background.tr_timestamp := 1000 |}.
Proof.
  apply (notifyRisks_then_getResults 1000 7 8
           {| Background.nr_suspiciousPackages := None;
              Background.nr_exposedFiles := None |} Background.empty).
  discriminate.
Defined.

(* ===================================================================== *)
(** * The popup and the state of the scan                                 *)
(* ===================================================================== *)

Module PopupFacts.

Import MessageHandler Popup.

(** An answer of the registry lookup that is marked unregistered has no
    [error]. *)
Lemma unregistered_no_error (request : Request)
    (registry : fetched RegistryResponse) (downloadsPoint : fetched DownloadsResponse) :
  let p := handleAnalyzePackage request registry downloadsPoint in
  isUnregistered p = true -> has_error p = false.
Proof.
  cbv zeta. unfold handleAnalyzePackage, has_error.
  destruct registry as [res|message]; [|discriminate].
  destruct (status res =? 404); [reflexivity|].
  destruct (status res =? 429); [discriminate|].
  destruct (negb (ok (status res))); [discriminate|].
  destruct (json res); discriminate.
Qed.

Lemma sections_length (packages : list Result) :
  Forall (fun p => isUnregistered p = true -> has_error p = false) packages ->
  (length (criticalPackages packages) + length (safePackages packages)
   + length (errorPackages packages) = length packages)%nat.
Proof.
  unfold criticalPackages, safePackages, errorPackages.
  induction 1 as [|p packages Hp _ IH]; [reflexivity|].
  cbn [List.filter length].
  destruct (isUnregistered p); [rewrite Hp by reflexivity|];
    [|destruct (has_error p)]; cbn [negb andb length]; lia.
Qed.

End PopupFacts.

(** X29.  The three sections of the popup split the answers of the
    registry lookup: each answer is listed in exactly one of the critical,
    verified and error sections, under the badge of that section, and the
    sizes of the three sections add up to the [totalPackages] of the
    statistics. *)
Theorem popup_sections_partition :
  forall (lookups : list (MessageHandler.Request
                          * MessageHandler.fetched MessageHandler.RegistryResponse
                          * MessageHandler.fetched MessageHandler.DownloadsResponse))
         (exposed : list ExposedFile),
    let packages :=
      map (fun '(request, registry, downloadsPoint) =>
             MessageHandler.handleAnalyzePackage request registry downloadsPoint)
          lookups in
    (length (Popup.criticalPackages packages) + length (Popup.safePackages packages)
     + length (Popup.errorPackages packages)
     = fst (Popup.calculateStats packages exposed))%nat
    /\ forall p, In p packages ->
         (In p (Popup.criticalPackages packages)
          /\ ~ In p (Popup.safePackages packages)
          /\ ~ In p (Popup.errorPackages packages)
          /\ Popup.getBadge p = "UNREGISTERED")
         \/ (~ In p (Popup.criticalPackages packages)
             /\ In p (Popup.safePackages packages)
             /\ ~ In p (Popup.errorPackages packages)
             /\ Popup.getBadge p = "OK")
         \/ (~ In p (Popup.criticalPackages packages)
             /\ ~ In p (Popup.safePackages packages)
             /\ In p (Popup.errorPackages packages)
             /\ Popup.getBadge p = "ERROR").
Proof.
  intros lookups exposed packages.
  assert (Hall : Forall (fun p => MessageHandler.isUnregistered p = true
                                  -> Popup.has_error p = false) packages).
  { subst packages. apply List.Forall_forall. intros p Hp.
    apply in_map_iff in Hp as ([[request registry] downloadsPoint] & <- & _).
    apply PopupFacts.unregistered_no_error. }
  split.
  - cbn [Popup.calculateStats fst]. now apply PopupFacts.sections_length.
  - intros p Hp.
    pose proof (proj1 (List.Forall_forall _ _) Hall p Hp) as Hexcl.
    unfold Popup.criticalPackages, Popup.safePackages, Popup.errorPackages,
      Popup.getBadge.
    rewrite !filter_In.
    destruct (MessageHandler.isUnregistered p) eqn:Hu.
    + left. rewrite (Hexcl Hu). cbn. intuition discriminate.
    + destruct (Popup.has_error p) eqn:He.
      * right. right. cbn. intuition discriminate.
      * right. left. cbn. intuition discriminate.
Qed.

Module ScanStateFacts.

Import AutoScan.

(** Each step keeps the two facts that hold of [scanState] at the start. *)
Lemma step_keeps (st : ScanState) (e : Event) :
  scanning st && complete st = false ->
  (complete st = false -> packages st = [] /\ exposedFiles st = []) ->
  scanning (step st e) && complete (step st e) = false
  /\ (complete (step st e) = false
      -> packages (step st e) = [] /\ exposedFiles (step st e) = []).
Proof.
  destruct st as [sc co pk ex er en]. cbn [scanning complete packages exposedFiles].
  intros H1 H2. destruct e as [extensionEnabled|outcome|isEnabled]; cbn [step].
  - destruct (negb (bool_decide (extensionEnabled = Some false)));
      destruct sc; destruct co; cbn in *; auto; discriminate.
  - destruct sc; destruct co; try destruct outcome; cbn in *; auto;
      try discriminate; split; auto; discriminate.
  - destruct isEnabled; destruct sc; destruct co; cbn in *; auto; discriminate.
Qed.

Lemma run_keeps (events : list Event) :
  forall st,
    scanning st && complete st = false ->
    (complete st = false -> packages st = [] /\ exposedFiles st = []) ->
    scanning (run events st) && complete (run events st) = false
    /\ (complete (run events st) = false
        -> packages (run events st) = [] /\ exposedFiles (run events st) = []).
Proof.
  induction events as [|e later IH]; intros st H1 H2; [now split|].
  cbn [run fold_left]. destruct (step_keeps st e H1 H2) as [H1' H2'].
  now apply IH.
Qed.

(** Once complete, the results stay until the extension is switched off. *)
Lemma run_complete (events : list Event) :
  forall st,
    scanning st = false -> complete st = true ->
    Forall (fun e => e <> Toggle false) events ->
    scanning (run events st) = false
    /\ complete (run events st) = true
    /\ packages (run events st) = packages st
    /\ exposedFiles (run events st) = exposedFiles st.
Proof.
  induction events as [|e later IH]; intros st Hs Hc Hall; [now repeat split|].
  inversion Hall as [|? ? He Hlater]; subst.
  cbn [run fold_left].
  assert (Hstep : scanning (step st e) = false /\ complete (step st e) = true
                  /\ packages (step st e) = packages st
                  /\ exposedFiles (step st e) = exposedFiles st).
  { destruct st as [sc co pk ex er en]. cbn in Hs, Hc. subst sc co.
    destruct e as [extensionEnabled|outcome|[|]]; cbn [step].
    - destruct (negb (bool_decide (extensionEnabled = Some false))); cbn;
        now repeat split.
    - cbn. now repeat split.
    - cbn. now repeat split.
    - contradiction. }
  destruct Hstep as (Hs' & Hc' & Hp' & He').
  destruct (IH (step st e) Hs' Hc' Hlater) as (? & ? & Hp & Hx).
  rewrite <- Hp', <- He'. now repeat split.
Qed.

End ScanStateFacts.

(** X30.  Whatever happens to the page, [scanState] is never both
    [scanning] and [complete], and it holds results only when [complete];
    once a scan is complete, its results stay as they are, and no new scan
    starts, until the extension is switched off. *)
Theorem scanState_consistent :
  forall (before after : list AutoScan.Event),
    let st := AutoScan.run before AutoScan.initial in
    let st' := AutoScan.run after st in
    AutoScan.scanning st && AutoScan.complete st = false
    /\ (AutoScan.complete st = false ->
        AutoScan.packages st = [] /\ AutoScan.exposedFiles st = [])
    /\ (AutoScan.complete st = true ->
        Forall (fun e => e <> AutoScan.Toggle false) after ->
        AutoScan.scanning st' = false
        /\ AutoScan.complete st' = true
        /\ AutoScan.packages st' = AutoScan.packages st
        /\ AutoScan.exposedFiles st' = AutoScan.exposedFiles st).
Proof.
  intros before after st st'.
  destruct (ScanStateFacts.run_keeps before AutoScan.initial) as [H1 H2];
    [reflexivity | now split |].
  fold st in H1, H2.
  refine (conj H1 (conj H2 _)).
  intros Hc Hall. apply ScanStateFacts.run_complete; [|exact Hc | exact Hall].
  rewrite Hc, andb_true_r in H1. exact H1.
Qed.

Lemma scanState_consistent_witness :
  let st := AutoScan.run [AutoScan.Enter None; AutoScan.Leave (AutoScan.Completed [] [])]
              AutoScan.initial in
  AutoScan.complete
    (AutoScan.run [AutoScan.Toggle true; AutoScan.Enter (Some true)] st) = true.
Proof.
  intros st.
  destruct (scanState_consistent
              [AutoScan.Enter None; AutoScan.Leave (AutoScan.Completed [] [])]
              [AutoScan.Toggle true; AutoScan.Enter (Some true)])
    as (_ & _ & H).
  apply H.
  - reflexivity.
  - repeat constructor; discriminate.
Defined.
